(** * Attention CV: request-routing supervisor, session memory and RAG context

    A shallow embedding of the Python sources
      backend/app/services/data/document_service.py
      backend/app/services/data/memory_service.py
      backend/app/services/ai/supervisor.py
      backend/app/services/ai/ai_service.py
      backend/app/api/v1/endpoints/chat.py   (the endpoints [/supervisor],
                                              [/generate-code] and
                                              [/upload-document])
    together with the properties of the design document that concern them
    and further properties of the code.

    Python values are modelled as follows.
    - [str]: a sequence of Unicode code points, [list N]; [len] is the number
      of code points, as in Python.
    - exceptions: a result type with an exception value (class and message);
      stateful code runs in a state-and-exception monad over the memory
      service, whose mutations survive a raised exception.
    - [dict]: a finite map ([gmap]); a missing key is [None].
    - objects that are shared by reference (the per-session chat history) live
      in a store of instances indexed by references. *)

From Stdlib Require Import ZArith NArith QArith Ascii String List Lia.
From Stdlib Require Import DecimalString.
From stdpp Require Import base option list gmap.

Open Scope Z_scope.
Close Scope Q_scope.

(** ** Python strings *)

Module Py.

(** A Python [str] is a sequence of code points. *)
Abbreviation str := (list N).

(** An ASCII literal. *)
Definition lit (s : string) : str :=
  List.map N_of_ascii (list_ascii_of_string s).

(** The newline character, written [\n] in the sources. *)
Definition nl : str := [10%N].

Definition len (s : str) : Z := Z.of_nat (length s).

(** [c.isspace()]: the code points Python treats as white space (the set used
    by [str.strip] and by [\s] in a [str] pattern). *)
Definition isspace (c : N) : bool :=
  ((9 <=? c) && (c <=? 13) || (28 <=? c) && (c <=? 32) || (c =? 133) ||
   (c =? 160) || (c =? 5760) || (8192 <=? c) && (c <=? 8202) || (c =? 8232) ||
   (c =? 8233) || (c =? 8239) || (c =? 8287) || (c =? 12288))%N.

Fixpoint lstrip (s : str) : str :=
  match s with
  | c :: s' => if isspace c then lstrip s' else s
  | [] => []
  end.

Definition rstrip (s : str) : str := rev (lstrip (rev s)).

(** [s.strip()] *)
Definition strip (s : str) : str := rstrip (lstrip s).

(** [s.startswith(p)] *)
Fixpoint startswith (s p : str) {struct p} : bool :=
  match p, s with
  | [], _ => true
  | _ :: _, [] => false
  | c :: p', d :: s' => (c =? d)%N && startswith s' p'
  end.

(** [s.endswith(p)] *)
Definition endswith (s p : str) : bool := startswith (rev s) (rev p).

(** [sub in s] *)
Fixpoint contains (sub s : str) : bool :=
  startswith s sub ||
  match s with
  | [] => false
  | _ :: s' => contains sub s'
  end.

(** [s.split(sep)] for a non-empty separator: the string is scanned from the
    left, occurrences of [sep] do not overlap.  [skip] counts the characters of
    an occurrence that are still to be passed over, [cur] is the current piece,
    reversed. *)
Fixpoint split_go (sep s : str) (skip : nat) (cur : str) : list str :=
  match s with
  | [] => [rev cur]
  | c :: s' =>
      match skip with
      | S k => split_go sep s' k cur
      | O =>
          if startswith s sep
          then rev cur :: split_go sep s' (length sep - 1) []
          else split_go sep s' 0 (c :: cur)
      end
  end.

Definition split (sep s : str) : list str := split_go sep s 0 [].

(** [parts[i]] on a list of strings.  Every use in the modelled code is guarded
    by a test [sep in s] that makes the index valid (lemma
    [split_contains_length] below); the default is never reached. *)
Definition item (parts : list str) (i : nat) : str := nth i parts [].

(** [sep.join(parts)] *)
Fixpoint join (sep : str) (parts : list str) : str :=
  match parts with
  | [] => []
  | [p] => p
  | p :: ps => p ++ sep ++ join sep ps
  end.

(** [s[:k]] *)
Definition slice_to (s : str) (k : Z) : str :=
  if 0 <=? k then take (Z.to_nat k) s
  else take (length s - Z.to_nat (- k)) s.

(** [l[-k:]] for a positive literal [k] *)
Definition last_n {A} (k : nat) (l : list A) : list A :=
  drop (length l - k) l.

(** [str(n)] for a non-negative integer *)
Definition str_of_nat (n : nat) : str :=
  lit (NilZero.string_of_uint (Nat.to_uint n)).

(** Truth value of an optional string: [None] and [""] are false. *)
Definition truthy (o : option str) : bool :=
  match o with
  | Some (_ :: _) => true
  | _ => false
  end.

(** [a or b] where [a] is an optional string and [b] a string *)
Definition or_else (o : option str) (d : str) : str :=
  match o with
  | Some (c :: s) => c :: s
  | _ => d
  end.

End Py.

Import Py.

(** ** Documents and the RAG context builder (document_service.py) *)

(** A langchain [Document].  Of its metadata only the key ['source_file'] is
    read by the code modelled here; [None] stands for a missing key. *)
Record Document := {
  page_content : str;
  source_file : option str
}.

Module DocumentService.

(** The literal appended to a truncated document: three dots, an opening
    bracket, two Hangul syllables, a space, two Hangul syllables and a closing
    bracket (ten code points). *)
Definition truncation_marker : str :=
  [46; 46; 46; 91; 45236; 50857; 32; 49373; 47029; 93]%N.

(** [header = f"\\n[Document: {source_file}]\\n"], where [source_file] is
    [doc.metadata.get('source_file', f'Document {i+1}')]. *)
Definition header (i : nat) (doc : Document) : str :=
  nl ++ lit "[Document: " ++
  default (lit "Document " ++ str_of_nat (i + 1)) (source_file doc) ++
  lit "]" ++ nl.

Definition doc_content (doc : Document) : str := strip (page_content doc).

(** [total_content = header + doc_content] *)
Definition total_content (i : nat) (doc : Document) : str :=
  header i doc ++ doc_content doc.

(** The [for i, doc in enumerate(documents)] loop of [create_rag_context]:
    [context_parts] and [current_length] are the loop's variables, a [break]
    returns the parts collected so far. *)
Fixpoint rag_loop (docs : list Document) (i : nat) (max_length : Z)
    (context_parts : list str) (current_length : Z) : list str :=
  match docs with
  | [] => context_parts
  | doc :: rest =>
      let total := total_content i doc in
      if current_length + len total >? max_length then
        match context_parts with
        | [] =>
            let remaining_space := max_length - len (header i doc) - 50 in
            if remaining_space >? 100 then
              context_parts ++
                [header i doc ++ slice_to (doc_content doc) remaining_space
                   ++ truncation_marker]
            else context_parts
        | _ :: _ => context_parts
        end
      else
        rag_loop rest (S i) max_length (context_parts ++ [total])
          (current_length + len total)
  end.

Definition create_rag_context (documents : list Document) (max_length : Z)
    : str :=
  match documents with
  | [] => []
  | _ :: _ => join nl (rag_loop documents 0 max_length [] 0)
  end.

(** The blocks of a document list, numbered from [i]. *)
Fixpoint blocks_from (i : nat) (docs : list Document) : list str :=
  match docs with
  | [] => []
  | d :: rest => total_content i d :: blocks_from (S i) rest
  end.

Definition total_len (bs : list str) : Z :=
  fold_right (fun b acc => len b + acc) 0 bs.

(** The longest prefix of [bs] that can be added block by block without the
    running length exceeding [budget]. *)
Fixpoint fitting_prefix (bs : list str) (budget : Z) : list str :=
  match bs with
  | [] => []
  | b :: bs' =>
      if len b >? budget then []
      else b :: fitting_prefix bs' (budget - len b)
  end.

(** The block format in the words of the design document:
    ["[Document: <name>]\n<content>"], blocks concatenated. *)
Definition spec_block (d : Document) : str :=
  lit "[Document: " ++ default [] (source_file d) ++ lit "]" ++ nl
    ++ page_content d.

Definition spec_concatenation (docs : list Document) : str :=
  concat (List.map spec_block docs).

End DocumentService.

Import DocumentService.

Definition doc_a : Document :=
  {| page_content := lit "x"; source_file := Some (lit "a") |}.

Definition doc_b : Document :=
  {| page_content := lit " hello " ++ nl; source_file := None |}.

Definition doc_c : Document :=
  {| page_content := lit "y"; source_file := Some (lit "c") |}.

(** A document of 200 characters. *)
Definition doc_long : Document :=
  {| page_content := repeat 120%N 200; source_file := Some (lit "a") |}.

(** ** Session memory (memory_service.py) *)

(** langchain messages: only the class and the content are used. *)
Inductive message :=
| HumanMessage (content : str)
| AIMessage (content : str).

Definition content (m : message) : str :=
  match m with
  | HumanMessage c => c
  | AIMessage c => c
  end.

Definition is_human (m : message) : bool :=
  match m with
  | HumanMessage _ => true
  | AIMessage _ => false
  end.

(** A reference to an [InMemoryChatMessageHistory] instance. *)
Definition ref := nat.

(** The [MemoryService] object.  [chat_histories] holds references: the
    history instances themselves live in [instances], so that every holder of
    a reference sees the mutations made through any other. *)
Record MemoryService := {
  chat_histories : gmap str ref;
  session_documents : gmap str (list Document);
  instances : gmap ref (list message)
}.

Module MemoryService.

(** [MemoryService()] *)
Definition init : MemoryService :=
  {| chat_histories := ∅; session_documents := ∅; instances := ∅ |}.

(** *** Methods of a history instance *)

(** [history.messages] *)
Definition messages (h : ref) (s : MemoryService) : list message :=
  default [] (instances s !! h).

(** [history.add_message(m)] *)
Definition add_message (h : ref) (m : message) (s : MemoryService)
    : MemoryService :=
  {| chat_histories := chat_histories s;
     session_documents := session_documents s;
     instances := <[h := messages h s ++ [m]]> (instances s) |}.

(** [history.clear()] *)
Definition clear (h : ref) (s : MemoryService) : MemoryService :=
  {| chat_histories := chat_histories s;
     session_documents := session_documents s;
     instances := <[h := []]> (instances s) |}.

(** *** Methods of the service: each returns its value and the new state *)

Definition get_session_history (session_id : str) (s : MemoryService)
    : ref * MemoryService :=
  match chat_histories s !! session_id with
  | Some h => (h, s)
  | None =>
      let h := fresh (dom (instances s)) in
      (h, {| chat_histories := <[session_id := h]> (chat_histories s);
             session_documents := session_documents s;
             instances := <[h := []]> (instances s) |})
  end.

Definition clear_session_history (session_id : str) (s : MemoryService)
    : bool * MemoryService :=
  match chat_histories s !! session_id with
  | Some h => (true, clear h s)
  | None => (false, s)
  end.

Definition get_session_message_count (session_id : str) (s : MemoryService)
    : nat :=
  match chat_histories s !! session_id with
  | Some h => length (messages h s)
  | None => 0
  end.

(** [list(self.chat_histories.keys())]; the order of the keys is not
    modelled. *)
Definition list_active_sessions (s : MemoryService) : list str :=
  elements (dom (chat_histories s)).

Definition add_session_documents (session_id : str) (documents : list Document)
    (s : MemoryService) : bool * MemoryService :=
  (true,
   {| chat_histories := chat_histories s;
      session_documents :=
        <[session_id := default [] (session_documents s !! session_id)
                          ++ documents]> (session_documents s);
      instances := instances s |}).

Definition get_session_documents (session_id : str) (s : MemoryService)
    : list Document :=
  default [] (session_documents s !! session_id).

Definition clear_session_documents (session_id : str) (s : MemoryService)
    : bool * MemoryService :=
  match session_documents s !! session_id with
  | Some _ =>
      (true,
       {| chat_histories := chat_histories s;
          session_documents := delete session_id (session_documents s);
          instances := instances s |})
  | None => (false, s)
  end.

Definition get_session_document_count (session_id : str) (s : MemoryService)
    : nat :=
  length (get_session_documents session_id s).

(** Every session refers to an existing instance, and no instance is shared
    between two sessions. *)
Definition wf (s : MemoryService) : Prop :=
  (forall sid h, chat_histories s !! sid = Some h -> is_Some (instances s !! h)) /\
  (forall sid1 sid2 h,
     chat_histories s !! sid1 = Some h -> chat_histories s !! sid2 = Some h ->
     sid1 = sid2).

End MemoryService.

(** A store with one session holding two messages and one document. *)
Definition store_one_session : MemoryService :=
  let '(h, s) := MemoryService.get_session_history (lit "s1") MemoryService.init in
  let s := MemoryService.add_message h (HumanMessage (lit "hi")) s in
  let s := MemoryService.add_message h (AIMessage (lit "hello")) s in
  snd (MemoryService.add_session_documents (lit "s1") [doc_a] s).

(** ** Exceptions *)

(** The exception classes that occur in the modelled code.  [JSONDecodeError]
    and pydantic's [ValidationError] are subclasses of [ValueError];
    [ModuleNotFoundError] is a subclass of [ImportError]; [OtherException] is
    any other subclass of [Exception] (a provider or network error of the
    model backend, for instance). *)
Inductive exn_class :=
| ValueError
| JSONDecodeError
| ValidationError
| KeyError
| AttributeError
| TypeError
| NameError
| ModuleNotFoundError
| OtherException.

(** An exception: its class and [str(e)]. *)
Record exn := Exn { class_of : exn_class; str_of : str }.

Inductive result (A : Type) :=
| Ok (a : A)
| Raise (e : exn).

Arguments Ok {A} a.
Arguments Raise {A} e.

Definition rbind {A B} (r : result A) (k : A -> result B) : result B :=
  match r with
  | Ok a => k a
  | Raise e => Raise e
  end.

Notation "'let?' x := c 'in' k" := (rbind c (fun x => k))
  (at level 10, x name, c at level 100, k at level 200).

Fixpoint rmap {A B} (f : A -> result B) (l : list A) : result (list B) :=
  match l with
  | [] => Ok []
  | a :: l' => let? b := f a in let? bs := rmap f l' in Ok (b :: bs)
  end.

(** Stateful code: the memory service is threaded through, and a raised
    exception keeps the mutations made before it. *)
Definition M (A : Type) : Type := MemoryService -> result A * MemoryService.

Definition ret {A} (a : A) : M A := fun s => (Ok a, s).

Definition raise {A} (e : exn) : M A := fun s => (Raise e, s).

Definition bind {A B} (m : M A) (k : A -> M B) : M B :=
  fun s =>
    match m s with
    | (Ok a, s') => k a s'
    | (Raise e, s') => (Raise e, s')
    end.

Notation "'do' x <- c ;; k" := (bind c (fun x => k))
  (at level 10, x name, c at level 99, k at level 200).

(** [try: body except Exception as e: handler(e)] *)
Definition try_except {A} (body : M A) (handler : exn -> M A) : M A :=
  fun s =>
    match body s with
    | (Ok a, s') => (Ok a, s')
    | (Raise e, s') => handler e s'
    end.

Definition lift_result {A} (r : result A) : M A := fun s => (r, s).

(** A method of the memory service that returns a value and a new state. *)
Definition call {A} (f : MemoryService -> A * MemoryService) : M A :=
  fun s => let '(a, s') := f s in (Ok a, s').

(** A method that only reads. *)
Definition read {A} (f : MemoryService -> A) : M A := fun s => (Ok (f s), s).

(** A method that only mutates. *)
Definition exec (f : MemoryService -> MemoryService) : M unit :=
  fun s => (Ok tt, f s).

(** The combinators, for [autounfold with monad]. *)
Create HintDb monad.
#[global] Hint Unfold bind ret raise try_except lift_result call read exec
  : monad.

(** ** Data of the supervisor (schemas.py, supervisor.py) *)

(** Values produced by [json.loads]; a float is kept as its literal. *)
#[warnings="-register-all"]
Inductive json :=
| JNull
| JBool (b : bool)
| JInt (z : Z)
| JFloat (literal : str)
| JStr (s : str)
| JList (items : list json)
| JDict (entries : list (str * json)).

Record CodeOperation := {
  operation : str;
  target : str;
  old_content : option str;
  new_content : str;
  line_start : option Z;
  line_end : option Z
}.

Record IncrementalCodeUpdate := {
  update_type : str;
  operations : list CodeOperation;
  inc_explanation : str;
  estimated_impact : str
}.

(** The literal type of [RequestType.type]: ["chat"] or ["code"]. *)
Inductive request_kind := Chat | Code.

(** [RequestType], the structured output of the classifier.  Confidence
    values are only stored and copied; they are carried as rationals. *)
Record RequestType := {
  type : request_kind;
  rt_confidence : Q;
  rt_reasoning : str
}.

Definition kind_str (k : request_kind) : str :=
  match k with
  | Chat => lit "chat"
  | Code => lit "code"
  end.

Inductive AIProvider := openai | azure_openai | anthropic.

(** [UserConfig]: the fields read by [_create_llm] and the session id;
    [azureOpenAIConfig] tells whether the optional Azure configuration is
    present. *)
Record UserConfig := {
  aiProvider : AIProvider;
  sessionId : str;
  openaiApiKey : option str;
  anthropicApiKey : option str;
  azureOpenAIConfig : bool
}.

Record SupervisorRequest := {
  prompt : str;
  config : UserConfig;
  req_session_id : option str;
  req_currentCode : option str;
  req_currentFilename : option str;
  req_currentLanguage : option str;
  req_enable_incremental_updates : option bool
}.

(** The dictionaries of the supervisor: the one that [process_request] builds
    and the ones that the nodes read.  The keys that [SupervisorState]
    declares are always present; an optional field is [None] when its key is
    absent. *)
Record SupervisorState := {
  messages : list message;
  request_type : str;
  confidence : Q;
  reasoning : str;
  response : str;
  generated_code : str;
  filename : str;
  language : str;
  session_id : str;
  currentCode : option str;
  currentFilename : option str;
  currentLanguage : option str;
  enable_incremental_updates : option bool;
  incremental_update : option IncrementalCodeUpdate;
  conversation_messages : option (list message);
  rag_context : option str;
  st_session_documents : option (list Document)
}.

(** One [key: value] entry of the [update] dictionary of a [Command]. *)
Inductive assignment :=
| set_request_type (v : str)
| set_confidence (v : Q)
| set_reasoning (v : str)
| set_response (v : str)
| set_generated_code (v : str)
| set_filename (v : str)
| set_language (v : str)
| set_incremental_update (v : option IncrementalCodeUpdate)
| set_messages (v : list message)
| set_conversation_messages (v : list message)
| set_rag_context (v : str)
| set_session_documents (v : list Document).

Inductive node := chat_agent_node | code_agent_node | END.

Record Command := { goto : node; update : list assignment }.

Definition assign (st : SupervisorState) (a : assignment) : SupervisorState :=
  let '{| messages := m; request_type := rt; confidence := cf; reasoning := rs;
          response := rp; generated_code := gc; filename := fn; language := lg;
          session_id := sid; currentCode := cc; currentFilename := cfn;
          currentLanguage := cl; enable_incremental_updates := en;
          incremental_update := iu; conversation_messages := cm;
          rag_context := rc; st_session_documents := sd |} := st in
  match a with
  | set_request_type v =>
      Build_SupervisorState m v cf rs rp gc fn lg sid cc cfn cl en iu cm rc sd
  | set_confidence v =>
      Build_SupervisorState m rt v rs rp gc fn lg sid cc cfn cl en iu cm rc sd
  | set_reasoning v =>
      Build_SupervisorState m rt cf v rp gc fn lg sid cc cfn cl en iu cm rc sd
  | set_response v =>
      Build_SupervisorState m rt cf rs v gc fn lg sid cc cfn cl en iu cm rc sd
  | set_generated_code v =>
      Build_SupervisorState m rt cf rs rp v fn lg sid cc cfn cl en iu cm rc sd
  | set_filename v =>
      Build_SupervisorState m rt cf rs rp gc v lg sid cc cfn cl en iu cm rc sd
  | set_language v =>
      Build_SupervisorState m rt cf rs rp gc fn v sid cc cfn cl en iu cm rc sd
  | set_incremental_update v =>
      Build_SupervisorState m rt cf rs rp gc fn lg sid cc cfn cl en v cm rc sd
  | set_messages v =>
      Build_SupervisorState v rt cf rs rp gc fn lg sid cc cfn cl en iu cm rc sd
  | set_conversation_messages v =>
      Build_SupervisorState m rt cf rs rp gc fn lg sid cc cfn cl en iu (Some v)
        rc sd
  | set_rag_context v =>
      Build_SupervisorState m rt cf rs rp gc fn lg sid cc cfn cl en iu cm
        (Some v) sd
  | set_session_documents v =>
      Build_SupervisorState m rt cf rs rp gc fn lg sid cc cfn cl en iu cm rc
        (Some v)
  end.

(** A dictionary after the entries of an [update] have been written into
    it. *)
Definition apply_update (st : SupervisorState) (u : list assignment)
    : SupervisorState :=
  fold_left assign u st.

(** The dictionary returned by [process_request]. *)
Record Payload := {
  p_request_type : str;
  p_confidence : Q;
  p_reasoning : str;
  p_response : str;
  p_generated_code : str;
  p_filename : str;
  p_language : str;
  p_incremental_update : option IncrementalCodeUpdate;
  p_messages : list message;
  p_session_id : str
}.

(** [SupervisorResponse], the body returned by the endpoint. *)
Record SupervisorResponse := {
  r_request_type : str;
  r_confidence : Q;
  r_reasoning : str;
  r_response : str;
  r_generated_code : str;
  r_filename : str;
  r_language : str;
  r_incremental_update : option IncrementalCodeUpdate;
  success : bool
}.

(** ** Collaborators *)

(** The f-strings whose fixed text is a long prompt are kept abstract: a
    rendered prompt is determined by the template and the interpolated
    values. *)
Inductive template :=
| rag_context_template
| classification_prompt_template
| document_context_template
| system_prompt_template
| current_code_context_template.

(** Library functions of the Python runtime that are not modelled here. *)
Class PythonRuntime := {
  (** an f-string template applied to the values of its fields *)
  render : template -> list str -> str;
  (** [s.lower()] *)
  str_lower : str -> str;
  (** [json.loads(s)] *)
  json_loads : str -> result json;
  (** [CodeOperation(operation=.., target=.., old_content=.., new_content=..,
      line_start=.., line_end=..)]: pydantic validates the six values and
      raises a [ValidationError] when one cannot be coerced *)
  validate_CodeOperation :
    json -> json -> json -> json -> json -> json -> result CodeOperation;
  (** the text of the [ValueError] raised for an invalid format specifier *)
  invalid_format_specifier : str
}.

(** The model backend: [classifier.invoke(messages)], giving a [RequestType],
    and [llm.invoke(messages).content]. *)
Class ModelBackend := {
  classifier_invoke : list message -> result RequestType;
  llm_invoke : list message -> result str
}.

(** ** The supervisor (supervisor.py) *)

Module Supervisor.

Section Nodes.

Context `{PythonRuntime} `{ModelBackend}.

(** *** Literals *)

Definition no_message : str := lit "No message to process".

Definition generic_explanation : str :=
  lit "Generated code based on your request".

(** The Korean literals, as code points: the prefix of the chat agent's error
    message, the label and words of the code agent's acknowledgements, the
    prefix of its error message, and the two prefixes used by
    [process_request] and by the endpoint. *)
Definition chat_error_prefix : str :=
  [51396; 49569; 54633; 45768; 45796; 46; 32; 50724; 47448; 44032; 32; 48156;
   49373; 54664; 49845; 45768; 45796; 58; 32]%N.

Definition generated_code_label : str :=
  [49373; 49457; 46108; 32; 53076; 46300; 58; 32]%N.

Definition code_update_word : str :=
  [53076; 46300; 32; 50629; 45936; 51060; 53944]%N.

Definition generated_code_word : str :=
  [49373; 49457; 46108; 32; 53076; 46300]%N.

Definition shown_in_editor : str :=
  [44032; 32; 50724; 47480; 51901; 32; 50640; 46356; 53552; 50640; 32; 54364;
   49884; 46121; 45768; 45796; 46]%N.

Definition code_error_prefix : str :=
  [53076; 46300; 32; 49373; 49457; 32; 51473; 32; 50724; 47448; 44032; 32;
   48156; 49373; 54664; 49845; 45768; 45796; 58; 32]%N.

Definition error_occurred_prefix : str :=
  [50724; 47448; 32; 48156; 49373; 58; 32]%N.

Definition request_error_prefix : str :=
  [51396; 49569; 54633; 45768; 45796; 46; 32; 50836; 52397; 32; 52376; 47532;
   32; 51473; 32; 50724; 47448; 44032; 32; 48156; 49373; 54664; 49845; 45768;
   45796; 58; 32]%N.

(** *** [_create_llm] *)

Definition _create_llm (config : UserConfig) : result unit :=
  match aiProvider config with
  | azure_openai =>
      if azureOpenAIConfig config then Ok tt
      else Raise (Exn ValueError (lit "Invalid AI provider configuration"))
  | openai =>
      if truthy (openaiApiKey config) then Ok tt
      else Raise (Exn ValueError (lit "Invalid AI provider configuration"))
  | anthropic =>
      if truthy (anthropicApiKey config) then Ok tt
      else Raise (Exn ValueError (lit "Invalid AI provider configuration"))
  end.

(** *** Helpers shared by the nodes *)

(** [msgs[-30:] if len(msgs) > 30 else msgs] *)
Definition recent (msgs : list message) : list message :=
  if (30 <? length msgs)%nat then last_n 30 msgs else msgs.

(** The loop [for msg in msgs: context += f"{role}: {msg.content}\n"]. *)
Definition render_history (human ai : str) (msgs : list message) : str :=
  concat (List.map
            (fun m => (if is_human m then human else ai) ++ lit ": "
                      ++ content m ++ nl) msgs).

(** *** [supervisor_node] *)

(** The prompt sent to the classifier, from the history of the session and the
    content of the request. *)
Definition classification_prompt (conversation_messages : list message)
    (content : str) : str :=
  let context :=
    match conversation_messages with
    | [] => []
    | _ :: _ =>
        nl ++ nl ++ lit "Conversation History:" ++ nl ++
        render_history (lit "Human") (lit "AI") (recent conversation_messages)
    end in
  render classification_prompt_template [context; content].

(** The [Command] of the [except] branch. *)
Definition classification_fallback (e : exn) : Command :=
  {| goto := chat_agent_node;
     update := [set_request_type (lit "chat");
                set_confidence (1 # 2)%Q;
                set_reasoning (lit "Classification failed: " ++ str_of e)] |}.

Definition supervisor_node (state : SupervisorState) : M Command :=
  match last (messages state) with
  | None => ret {| goto := END; update := [set_response no_message] |}
  | Some last_message =>
      let content := content last_message in
      do session_history <-
        call (MemoryService.get_session_history (session_id state)) ;;
      do session_documents <-
        read (MemoryService.get_session_documents (session_id state)) ;;
      do conversation_messages <-
        read (MemoryService.messages session_history) ;;
      let rag_context :=
        match session_documents with
        | [] => []
        | _ :: _ =>
            render rag_context_template
              [create_rag_context session_documents 1500]
        end in
      try_except
        (do result <-
           lift_result
             (classifier_invoke
                [HumanMessage
                   (classification_prompt conversation_messages content)]) ;;
         ret {| goto := match type result with
                        | Code => code_agent_node
                        | Chat => chat_agent_node
                        end;
                update := [set_request_type (kind_str (type result));
                           set_confidence (rt_confidence result);
                           set_reasoning (rt_reasoning result);
                           set_conversation_messages conversation_messages;
                           set_rag_context rag_context;
                           set_session_documents session_documents] |})
        (fun e => ret (classification_fallback e))
  end.

(** *** [chat_agent] *)

Definition chat_agent (state : SupervisorState) : M Command :=
  match last (messages state) with
  | None => ret {| goto := END; update := [set_response no_message] |}
  | Some last_message =>
      let content := content last_message in
      do session_history <-
        call (MemoryService.get_session_history (session_id state)) ;;
      do session_documents <-
        read (MemoryService.get_session_documents (session_id state)) ;;
      do history <- read (MemoryService.messages session_history) ;;
      let current_user_message := HumanMessage content in
      let conversation_messages := recent history ++ [current_user_message] in
      let document_context :=
        match session_documents with
        | [] => []
        | _ :: _ =>
            render document_context_template
              [create_rag_context session_documents 2000;
               str_of_nat (length session_documents)]
        end in
      let system_prompt :=
        render system_prompt_template [document_context] in
      let messages_with_system :=
        HumanMessage system_prompt :: conversation_messages in
      try_except
        (do response <- lift_result (llm_invoke messages_with_system) ;;
         do _ <- exec (MemoryService.add_message session_history
                         current_user_message) ;;
         do _ <- exec (MemoryService.add_message session_history
                         (AIMessage response)) ;;
         ret {| goto := END;
                update := [set_response response;
                           set_messages
                             (messages state ++ [AIMessage response])] |})
        (fun e =>
           let error_message := chat_error_prefix ++ str_of e in
           do _ <- exec (MemoryService.add_message session_history
                           current_user_message) ;;
           do _ <- exec (MemoryService.add_message session_history
                           (AIMessage error_message)) ;;
           ret {| goto := END;
                  update := [set_response error_message;
                             set_messages
                               (messages state ++ [AIMessage error_message])] |})
  end.

(** *** [code_agent]: the markers and the pattern of the reply *)

Definition EXPLANATION : str := lit "EXPLANATION:".
Definition INCREMENTAL_OPERATIONS : str := lit "INCREMENTAL_OPERATIONS:".
Definition CODE : str := lit "CODE:".
Definition FILENAME : str := lit "FILENAME:".
Definition LANGUAGE : str := lit "LANGUAGE:".

(** [.*?\]] with [re.DOTALL]: the shortest text up to and including the first
    closing bracket. *)
Fixpoint through_bracket (s : str) : option str :=
  match s with
  | [] => None
  | c :: s' =>
      if (c =? 93)%N then Some [c]
      else option_map (cons c) (through_bracket s')
  end.

(** [\s*(\[.*?\])] at the text that follows the marker: group 1. *)
Definition operations_after (s : str) : option str :=
  match lstrip s with
  | c :: s' =>
      if (c =? 91)%N then option_map (cons c) (through_bracket s') else None
  | [] => None
  end.

(** [re.search(r'INCREMENTAL_OPERATIONS:\s*(\[.*?\])', s, re.DOTALL)]: group 1
    of the leftmost match, [None] without a match. *)
Fixpoint search_operations (s : str) : option str :=
  match
    (if startswith s INCREMENTAL_OPERATIONS
     then operations_after (drop (length INCREMENTAL_OPERATIONS) s)
     else None)
  with
  | Some g => Some g
  | None =>
      match s with
      | [] => None
      | _ :: s' => search_operations s'
      end
  end.

(** *** [code_agent]: conversion of the decoded operations *)

Definition type_name (v : json) : str :=
  match v with
  | JNull => lit "NoneType"
  | JBool _ => lit "bool"
  | JInt _ => lit "int"
  | JFloat _ => lit "float"
  | JStr _ => lit "str"
  | JList _ => lit "list"
  | JDict _ => lit "dict"
  end.

(** [d.get(key, default)] *)
Definition dict_get (entries : list (str * json)) (key : str) (default : json)
    : json :=
  match List.find (fun kv => bool_decide (kv.1 = key)) entries with
  | Some kv => kv.2
  | None => default
  end.

(** [for op in operations_data] *)
Definition iterate (v : json) : result (list json) :=
  match v with
  | JList items => Ok items
  | JDict entries => Ok (List.map (fun kv => JStr kv.1) entries)
  | JStr s => Ok (List.map (fun c => JStr [c]) s)
  | _ =>
      Raise (Exn TypeError
               (lit "'" ++ type_name v ++ lit "' object is not iterable"))
  end.

(** [CodeOperation(operation=op.get("operation", "replace"), ...)] *)
Definition to_CodeOperation (op : json) : result CodeOperation :=
  match op with
  | JDict entries =>
      validate_CodeOperation
        (dict_get entries (lit "operation") (JStr (lit "replace")))
        (dict_get entries (lit "target") (JStr []))
        (dict_get entries (lit "old_content") JNull)
        (dict_get entries (lit "new_content") (JStr []))
        (dict_get entries (lit "line_start") JNull)
        (dict_get entries (lit "line_end") JNull)
  | _ =>
      Raise (Exn AttributeError
               (lit "'" ++ type_name op ++ lit "' object has no attribute 'get'"))
  end.

(** [from ..models.schemas import CodeOperation, IncrementalCodeUpdate]
    (line 451).  The module is [app.services.ai.supervisor]; two dots name the
    package [app.services], which has no sub-package [models]: the schemas are
    in [app.models.schemas], which line 12 imports with three dots.  The
    statement raises [ModuleNotFoundError]. *)
Definition schemas_not_found : exn :=
  Exn ModuleNotFoundError (lit "No module named 'app.services.models'").

Definition import_schemas : result unit := Raise schemas_not_found.

(** *** [code_agent]: reading the reply (lines 425-505) *)

(** What the reading of a reply assigns. *)
Record Parsed := {
  parsed_code : str;
  parsed_explanation : str;
  parsed_filename : str;
  parsed_language : str;
  parsed_update : option IncrementalCodeUpdate
}.

(** Lines 439-442. *)
Definition incremental_explanation (response_text explanation : str) : str :=
  if contains EXPLANATION response_text then
    let explanation_part := item (split EXPLANATION response_text) 1 in
    if contains INCREMENTAL_OPERATIONS explanation_part
    then strip (item (split INCREMENTAL_OPERATIONS explanation_part) 0)
    else explanation
  else explanation.

(** Lines 444-469: the value assigned to [incremental_update]. *)
Definition parse_operations (response_text explanation : str)
    : result (option IncrementalCodeUpdate) :=
  match search_operations response_text with
  | None => Ok None
  | Some operations_json =>
      let? operations_data := json_loads operations_json in
      let? _ := import_schemas in
      let? ops := iterate operations_data in
      let? operations := rmap to_CodeOperation ops in
      Ok (Some {| update_type := lit "incremental";
                  operations := operations;
                  inc_explanation := explanation;
                  estimated_impact := lit "medium" |})
  end.

(** [except (json.JSONDecodeError, KeyError, ValueError)] *)
Definition caught_by_fallback (c : exn_class) : bool :=
  match c with
  | JSONDecodeError | KeyError | ValueError | ValidationError => true
  | _ => false
  end.

(** Lines 432-474: the explanation and the incremental update after the
    [if "INCREMENTAL_OPERATIONS:" in response_text and has_existing_code]
    block. *)
Definition parse_incremental (response_text : str) (has_existing_code : bool)
    : result (str * option IncrementalCodeUpdate) :=
  if contains INCREMENTAL_OPERATIONS response_text && has_existing_code then
    let explanation := incremental_explanation response_text [] in
    match parse_operations response_text explanation with
    | Ok u => Ok (explanation, u)
    | Raise e =>
        if caught_by_fallback (class_of e) then Ok (explanation, None)
        else Raise e
    end
  else Ok ([], None).

(** Lines 478-493: code, filename and language. *)
Definition parse_code (response_text filename language : str)
    : str * str * str :=
  if contains CODE response_text then
    let parts := split CODE response_text in
    if (1 <? length parts)%nat then
      let code := strip (item parts 1) in
      if contains FILENAME code then
        let code_parts := split FILENAME code in
        let code := strip (item code_parts 0) in
        if (1 <? length code_parts)%nat then
          let filename_part := strip (item code_parts 1) in
          if contains LANGUAGE filename_part then
            let filename_lang_parts := split LANGUAGE filename_part in
            let filename := strip (item filename_lang_parts 0) in
            if (1 <? length filename_lang_parts)%nat
            then (code, filename,
                  str_lower (strip (item filename_lang_parts 1)))
            else (code, filename, language)
          else (code, filename_part, language)
        else (code, filename, language)
      else (code, filename, language)
    else ([], filename, language)
  else ([], filename, language).

(** Lines 495-500. *)
Definition parse_explanation (response_text explanation : str) : str :=
  if contains EXPLANATION response_text then
    let explanation_part := item (split EXPLANATION response_text) 1 in
    if contains CODE explanation_part
    then strip (item (split CODE explanation_part) 0)
    else strip explanation_part
  else explanation.

(** Lines 477-505, the standard parsing, entered when [incremental_update] is
    [None]. *)
Definition parse_full_generation
    (response_text explanation filename language : str) : Parsed :=
  let '(code, filename, language) :=
    parse_code response_text filename language in
  let explanation := parse_explanation response_text explanation in
  match code with
  | [] =>
      {| parsed_code := response_text;
         parsed_explanation := generic_explanation;
         parsed_filename := filename;
         parsed_language := language;
         parsed_update := None |}
  | _ :: _ =>
      {| parsed_code := code;
         parsed_explanation := explanation;
         parsed_filename := filename;
         parsed_language := language;
         parsed_update := None |}
  end.

(** Lines 425-505. *)
Definition parse_response (response_text : str)
    (current_filename current_language : option str)
    (has_existing_code : bool) : result Parsed :=
  let filename := or_else current_filename (lit "index.html") in
  let language := or_else current_language (lit "html") in
  let? r := parse_incremental response_text has_existing_code in
  match r.2 with
  | Some u =>
      Ok {| parsed_code := [];
            parsed_explanation := r.1;
            parsed_filename := filename;
            parsed_language := language;
            parsed_update := Some u |}
  | None => Ok (parse_full_generation response_text r.1 filename language)
  end.

(** *** [code_agent]: the choice of the prompt (lines 344-348) *)

(** [current_code and current_code.strip()] *)
Definition has_existing_code (state : SupervisorState) : bool :=
  match currentCode state with
  | Some c => match strip c with [] => false | _ :: _ => true end
  | None => false
  end.

(** [state.get("enable_incremental_updates", True)] *)
Definition enable_incremental (state : SupervisorState) : bool :=
  default true (enable_incremental_updates state).

Inductive mode := incremental_mode | full_generation_mode.

(** The branch taken by [if enable_incremental and has_existing_code]. *)
Definition select_mode (state : SupervisorState) : mode :=
  if enable_incremental state && has_existing_code state
  then incremental_mode else full_generation_mode.

(** The f-string of the incremental prompt (line 350).  Its fields
    [current_language or 'html'], [current_code], [content] and
    [conversation_context] are evaluated first.  The text then shows the JSON
    shape of an operation between single braces, which Python reads as one
    more replacement field: the expression ["operation"] followed, after the
    colon, by the rest of the example as its format specifier.  Formatting a
    string with that specifier raises [ValueError]. *)
Definition incremental_prompt
    (current_language current_code content conversation_context : str)
    : result str :=
  Raise (Exn ValueError invalid_format_specifier).

(** The f-string of the full-generation prompt (line 388).  Its first field is
    [rag_context], a name that is bound neither in [code_agent], nor in
    [_create_code_agent], nor in the module: evaluating it raises
    [NameError]. *)
Definition full_generation_prompt
    (conversation_context current_code_context content : str) : result str :=
  Raise (Exn NameError (lit "name 'rag_context' is not defined")).

(** *** [code_agent] *)

(** The body of the [try] (lines 421-522), given the prompt. *)
Definition code_agent_try (state : SupervisorState) (session_history : ref)
    (content code_prompt : str) : M Command :=
  let current_user_message := HumanMessage content in
  do response_text <- lift_result (llm_invoke [HumanMessage code_prompt]) ;;
  do parsed <-
    lift_result (parse_response response_text (currentFilename state)
                   (currentLanguage state) (has_existing_code state)) ;;
  do _ <- exec (MemoryService.add_message session_history
                  current_user_message) ;;
  let ai_response :=
    parsed_explanation parsed ++ nl ++ nl ++ generated_code_label ++
    parsed_filename parsed ++ lit " (" ++ parsed_language parsed ++ lit ")" in
  do _ <- exec (MemoryService.add_message session_history
                  (AIMessage ai_response)) ;;
  ret {| goto := END;
         update :=
           [set_response (parsed_explanation parsed);
            set_generated_code (parsed_code parsed);
            set_filename (parsed_filename parsed);
            set_language (parsed_language parsed);
            set_incremental_update (parsed_update parsed);
            set_messages
              (messages state ++
               [AIMessage
                  (parsed_explanation parsed ++ nl ++ nl ++
                   match parsed_update parsed with
                   | Some _ => code_update_word
                   | None => generated_code_word
                   end ++ shown_in_editor)])] |}.

(** The handler of the [try] (lines 523-535). *)
Definition code_agent_except (state : SupervisorState) (session_history : ref)
    (content : str) (e : exn) : M Command :=
  let error_message := code_error_prefix ++ str_of e in
  do _ <- exec (MemoryService.add_message session_history
                  (HumanMessage content)) ;;
  do _ <- exec (MemoryService.add_message session_history
                  (AIMessage error_message)) ;;
  ret {| goto := END;
         update := [set_response error_message;
                    set_messages
                      (messages state ++ [AIMessage error_message])] |}.

Definition code_agent (state : SupervisorState) : M Command :=
  match last (messages state) with
  | None => ret {| goto := END; update := [set_response no_message] |}
  | Some last_message =>
      let content := content last_message in
      do session_history <-
        call (MemoryService.get_session_history (session_id state)) ;;
      do history <- read (MemoryService.messages session_history) ;;
      let current_code := default [] (currentCode state) in
      let current_filename := currentFilename state in
      let current_language := currentLanguage state in
      let conversation_context :=
        match history with
        | [] => []
        | _ :: _ =>
            nl ++ nl ++ lit "Previous Conversation Context:" ++ nl ++
            render_history (lit "User") (lit "Assistant") (recent history)
        end in
      let current_code_context :=
        if has_existing_code state then
          render current_code_context_template
            [or_else current_filename (lit "index.html");
             or_else current_language (lit "html");
             or_else current_language (lit "html");
             slice_to current_code 1000;
             if 1000 <? len current_code then lit "...(truncated)" else []]
        else [] in
      do code_prompt <-
        lift_result
          (match select_mode state with
           | incremental_mode =>
               incremental_prompt (or_else current_language (lit "html"))
                 current_code content conversation_context
           | full_generation_mode =>
               full_generation_prompt conversation_context
                 current_code_context content
           end) ;;
      try_except
        (code_agent_try state session_history content code_prompt)
        (code_agent_except state session_history content)
  end.

(** *** The graph and [process_request] *)

(** [create_supervisor_graph]: the only step that can fail is [_create_llm]. *)
Definition create_supervisor_graph (config : UserConfig) : result unit :=
  _create_llm config.

(** The compiled graph is a [StateGraph(SupervisorState)]: its channels are
    ["messages"] of [MessagesState] and the eight keys that [SupervisorState]
    declares (lines 30-39).  A key of the input dictionary or of a node's
    update that is no channel is ignored, so a node reads a dictionary that
    holds the channels only: [state.get("currentCode", "")] and the like give
    their defaults. *)
Definition channels (state : SupervisorState) : SupervisorState :=
  {| messages := messages state;
     request_type := request_type state;
     confidence := confidence state;
     reasoning := reasoning state;
     response := response state;
     generated_code := generated_code state;
     filename := filename state;
     language := language state;
     session_id := session_id state;
     currentCode := None;
     currentFilename := None;
     currentLanguage := None;
     enable_incremental_updates := None;
     incremental_update := None;
     conversation_messages := None;
     rag_context := None;
     st_session_documents := None |}.

(** [self.graph.invoke(initial_state)]: the entry edge leads to the supervisor
    node, whose [Command] names the next node; of the input and of every
    update the channels are kept.  The reducer of ["messages"] merges by
    message id; the lists that the nodes return extend the current one, so
    the merge is the returned list. *)
Definition graph_invoke (state : SupervisorState) : M SupervisorState :=
  let state := channels state in
  do c <- supervisor_node state ;;
  let state := channels (apply_update state (update c)) in
  match goto c with
  | chat_agent_node =>
      do c <- chat_agent state ;;
      ret (channels (apply_update state (update c)))
  | code_agent_node =>
      do c <- code_agent state ;;
      ret (channels (apply_update state (update c)))
  | END => ret state
  end.

(** [getattr(request, 'session_id', None)
     or getattr(request.config, 'sessionId', None) or 'default'] *)
Definition session_id_of (request : SupervisorRequest) : str :=
  or_else (req_session_id request)
    (or_else (Some (sessionId (config request))) (lit "default")).

(** The dictionary built on lines 575-588.  It has no key
    ["enable_incremental_updates"]. *)
Definition initial_state (request : SupervisorRequest) (session_id : str)
    : SupervisorState :=
  {| messages := [HumanMessage (prompt request)];
     request_type := lit "unknown";
     confidence := 0%Q;
     reasoning := [];
     response := [];
     generated_code := [];
     filename := lit "index.html";
     language := lit "html";
     session_id := session_id;
     currentCode := req_currentCode request;
     currentFilename := req_currentFilename request;
     currentLanguage := req_currentLanguage request;
     enable_incremental_updates := None;
     incremental_update := None;
     conversation_messages := None;
     rag_context := None;
     st_session_documents := None |}.

(** [process_request] on a supervisor whose graph is not yet built. *)
Definition process_request (request : SupervisorRequest) : M Payload :=
  do _ <- lift_result (create_supervisor_graph (config request)) ;;
  let session_id := session_id_of request in
  try_except
    (do result <- graph_invoke (initial_state request session_id) ;;
     ret {| p_request_type := request_type result;
            p_confidence := confidence result;
            p_reasoning := reasoning result;
            p_response := response result;
            p_generated_code := generated_code result;
            p_filename := filename result;
            p_language := language result;
            p_incremental_update := incremental_update result;
            p_messages := messages result;
            p_session_id := session_id |})
    (fun e =>
       do session_history <-
         call (MemoryService.get_session_history session_id) ;;
       do _ <- exec (MemoryService.add_message session_history
                       (HumanMessage (prompt request))) ;;
       do _ <- exec (MemoryService.add_message session_history
                       (AIMessage (error_occurred_prefix ++ str_of e))) ;;
       ret {| p_request_type := lit "error";
              p_confidence := 0%Q;
              p_reasoning := lit "Processing error: " ++ str_of e;
              p_response := request_error_prefix ++ str_of e;
              p_generated_code := [];
              p_filename := lit "index.html";
              p_language := lit "html";
              p_incremental_update := None;
              p_messages := [HumanMessage (prompt request)];
              p_session_id := session_id |}).

(** *** The endpoint [supervisor_routing] (chat.py) *)

(** The [try] builds a fresh [Supervisor] and awaits [process_request]; every
    exception is turned into a response by the handler. *)
Definition supervisor_routing (request : SupervisorRequest)
    (s : MemoryService) : SupervisorResponse * MemoryService :=
  match process_request request s with
  | (Ok result, s') =>
      ({| r_request_type := p_request_type result;
          r_confidence := p_confidence result;
          r_reasoning := p_reasoning result;
          r_response := p_response result;
          r_generated_code := p_generated_code result;
          r_filename := p_filename result;
          r_language := p_language result;
          r_incremental_update := None;
          success := true |}, s')
  | (Raise e, s') =>
      ({| r_request_type := lit "error";
          r_confidence := 0%Q;
          r_reasoning := lit "Processing error: " ++ str_of e;
          r_response := request_error_prefix ++ str_of e;
          r_generated_code := [];
          r_filename := lit "index.html";
          r_language := lit "html";
          r_incremental_update := None;
          success := false |}, s')
  end.

End Nodes.

End Supervisor.

(** ** A runtime, two backends and some requests to evaluate the code on *)

Definition ascii_lower (c : N) : N :=
  if ((65 <=? c) && (c <=? 90))%N then (c + 32)%N else c.

(** Decodes the text [[1]] and rejects every other text. *)
Definition demo_json_loads (s : str) : result json :=
  if bool_decide (s = lit "[1]") then Ok (JList [JInt 1])
  else Raise (Exn JSONDecodeError (lit "Expecting value")).

Definition demo_runtime : PythonRuntime :=
  {| render := fun _ fields => concat fields;
     str_lower := List.map ascii_lower;
     json_loads := demo_json_loads;
     validate_CodeOperation := fun _ _ _ _ _ _ =>
       Raise (Exn ValidationError (lit "validation error for CodeOperation"));
     invalid_format_specifier := lit "Invalid format specifier" |}.

(** A backend whose classifier answers [code]. *)
Definition demo_backend_code : ModelBackend :=
  {| classifier_invoke := fun _ =>
       Ok {| type := Code; rt_confidence := (9 # 10)%Q;
             rt_reasoning := lit "asks for a page" |};
     llm_invoke := fun _ => Ok (lit "CODE: <p>hi</p>") |}.

(** A backend whose classifier is unreachable. *)
Definition demo_backend_down : ModelBackend :=
  {| classifier_invoke := fun _ =>
       Raise (Exn OtherException (lit "connection refused"));
     llm_invoke := fun _ => Ok (lit "hello") |}.

Definition demo_config : UserConfig :=
  {| aiProvider := openai; sessionId := lit "default";
     openaiApiKey := Some (lit "sk-test"); anthropicApiKey := None;
     azureOpenAIConfig := false |}.

(** A request that comes with editor code and asks for full generation. *)
Definition request_no_incremental : SupervisorRequest :=
  {| prompt := lit "make the title blue";
     config := demo_config;
     req_session_id := Some (lit "s1");
     req_currentCode := Some (lit "<h1>Hi</h1>");
     req_currentFilename := None;
     req_currentLanguage := None;
     req_enable_incremental_updates := Some false |}.

(** A request that comes with editor code and asks for incremental
    updates. *)
Definition request_incremental : SupervisorRequest :=
  {| prompt := lit "make the title blue";
     config := demo_config;
     req_session_id := Some (lit "s1");
     req_currentCode := Some (lit "<h1>Hi</h1>");
     req_currentFilename := Some (lit "index.html");
     req_currentLanguage := Some (lit "html");
     req_enable_incremental_updates := Some true |}.

(** A request without editor code. *)
Definition request_plain : SupervisorRequest :=
  {| prompt := lit "build my CV page";
     config := demo_config;
     req_session_id := Some (lit "s1");
     req_currentCode := None;
     req_currentFilename := None;
     req_currentLanguage := None;
     req_enable_incremental_updates := Some true |}.


(** A reply whose operations array decodes but holds no operation object. *)
Definition reply_array_of_int : str :=
  lit "EXPLANATION: change" ++ nl ++ lit "INCREMENTAL_OPERATIONS: [1]".

(** A reply whose operations array is not JSON. *)
Definition reply_malformed : str :=
  lit "EXPLANATION: change" ++ nl ++ lit "INCREMENTAL_OPERATIONS: [{oops]".


(** A backend whose classifier answers [code] and whose model replies with
    [reply_array_of_int]. *)
Definition demo_backend_ops : ModelBackend :=
  {| classifier_invoke := fun _ =>
       Ok {| type := Code; rt_confidence := (9 # 10)%Q;
             rt_reasoning := lit "asks for a change" |};
     llm_invoke := fun _ => Ok reply_array_of_int |}.

(** A configuration that selects OpenAI without an API key. *)
Definition config_without_key : UserConfig :=
  {| aiProvider := openai; sessionId := lit "default";
     openaiApiKey := None; anthropicApiKey := None;
     azureOpenAIConfig := false |}.

Definition request_without_key : SupervisorRequest :=
  {| prompt := lit "hello";
     config := config_without_key;
     req_session_id := None;
     req_currentCode := None;
     req_currentFilename := None;
     req_currentLanguage := None;
     req_enable_incremental_updates := Some true |}.

(** A dictionary with editor code, as a direct call of the code agent can
    receive it; the graph hands over the channels only. *)
Definition state_with_code : SupervisorState :=
  Supervisor.initial_state request_no_incremental (lit "s1").

(** ** Session memory: the summary and sequences of operations *)

(** One entry of ["last_messages"]: the class name of the message and its
    content, cut to 100 characters and three dots when it is longer. *)
Record MessagePreview := {
  preview_type : str;
  preview_content : str
}.

(** The dictionary returned by [get_session_summary]; ["last_messages"] is
    missing when the session has no history. *)
Record SessionSummary := {
  summary_session_id : str;
  message_count : nat;
  summary_exists : bool;
  document_count : nat;
  last_messages : option (list MessagePreview)
}.

Module MemorySummary.

(** [msg.__class__.__name__] *)
Definition class_name (m : message) : str :=
  match m with
  | HumanMessage _ => lit "HumanMessage"
  | AIMessage _ => lit "AIMessage"
  end.

(** [msg.content[:100] + "..." if len(msg.content) > 100 else msg.content] *)
Definition preview (m : message) : MessagePreview :=
  {| preview_type := class_name m;
     preview_content :=
       if 100 <? len (content m)
       then slice_to (content m) 100 ++ lit "..."
       else content m |}.

Definition get_session_summary (session_id : str) (s : MemoryService)
    : SessionSummary :=
  match chat_histories s !! session_id with
  | None =>
      {| summary_session_id := session_id;
         message_count := 0;
         summary_exists := false;
         document_count := 0;
         last_messages := None |}
  | Some history =>
      {| summary_session_id := session_id;
         message_count := length (MemoryService.messages history s);
         summary_exists := true;
         document_count :=
           length (default [] (session_documents s !! session_id));
         last_messages :=
           Some (List.map preview
                   (last_n 3 (MemoryService.messages history s))) |}
  end.

End MemorySummary.

(** The ways in which the rest of the code uses the memory service.  A message
    is always appended through the handle that [get_session_history] returns
    for the session. *)
Inductive memory_op :=
| op_get_session_history (session_id : str)
| op_append (session_id : str) (m : message)
| op_clear_session_history (session_id : str)
| op_add_session_documents (session_id : str) (documents : list Document)
| op_clear_session_documents (session_id : str).

Definition run_op (s : MemoryService) (o : memory_op) : MemoryService :=
  match o with
  | op_get_session_history sid => (MemoryService.get_session_history sid s).2
  | op_append sid m =>
      let '(h, s1) := MemoryService.get_session_history sid s in
      MemoryService.add_message h m s1
  | op_clear_session_history sid =>
      (MemoryService.clear_session_history sid s).2
  | op_add_session_documents sid docs =>
      (MemoryService.add_session_documents sid docs s).2
  | op_clear_session_documents sid =>
      (MemoryService.clear_session_documents sid s).2
  end.

Definition run_ops (ops : list memory_op) (s : MemoryService)
    : MemoryService :=
  fold_left run_op ops s.

(** [self.chat_histories[session_id].messages], empty for a session without
    history. *)
Definition session_messages (session_id : str) (s : MemoryService)
    : list message :=
  match chat_histories s !! session_id with
  | Some h => MemoryService.messages h s
  | None => []
  end.

(** What an operation does to the messages of a session, seen as a plain list
    per session id. *)
Definition op_on_messages (o : memory_op) (session_id : str)
    (old : list message) : list message :=
  match o with
  | op_append sid m => if decide (sid = session_id) then old ++ [m] else old
  | op_clear_session_history sid =>
      if decide (sid = session_id) then [] else old
  | _ => old
  end.

(** ** The reply format of the full-generation prompt *)

(** The number of positions of [s] at which [sep] occurs. *)
Fixpoint occurrences (sep s : str) : nat :=
  (if startswith s sep then 1 else 0) +
  match s with
  | [] => 0
  | _ :: s' => occurrences sep s'
  end.

(** A text that is not empty and neither starts nor ends with white space. *)
Definition clean (x : str) : bool :=
  match x with
  | [] => false
  | c :: _ => negb (isspace c) && negb (isspace (List.last x c))
  end.

(** A reply in the format that the full-generation prompt asks for (lines
    413-417): the four markers in order, each followed by its part. *)
Definition format_reply (explanation code filename language : str) : str :=
  Supervisor.EXPLANATION ++ lit " " ++ explanation ++ nl ++
  Supervisor.CODE ++ nl ++ code ++ nl ++
  Supervisor.FILENAME ++ lit " " ++ filename ++ nl ++
  Supervisor.LANGUAGE ++ lit " " ++ language.

(** ** Uploading documents (document_service.py, chat.py) *)

(** [os.path.splitext] of the POSIX path module. *)
Module PosixPath.

(** [s.rfind(c)] for a one-character [c]: the highest index at which [c]
    occurs, [-1] when it does not occur. *)
Fixpoint rfind (c : N) (s : str) : Z :=
  match s with
  | [] => -1
  | d :: s' =>
      let r := rfind c s' in
      if 0 <=? r then r + 1 else if (d =? c)%N then 0 else -1
  end.

(** [s[k:]] *)
Definition slice_from (s : str) (k : Z) : str :=
  if 0 <=? k then drop (Z.to_nat k) s
  else drop (length s - Z.to_nat (- k)) s.

(** The loop [while filenameIndex < dotIndex] of [_splitext], run over the
    characters [p[filenameIndex:dotIndex]]: it stops at the first character
    that is not a dot. *)
Fixpoint has_non_dot (chars : str) : bool :=
  match chars with
  | [] => false
  | c :: rest => if (c =? 46)%N then has_non_dot rest else true
  end.

(** [splitext(p)], with separator [/] (47) and extension separator [.] (46):
    the extension starts at the last dot of the last path component, and
    leading dots of that component do not start an extension. *)
Definition splitext (p : str) : str * str :=
  let sepIndex := rfind 47 p in
  let dotIndex := rfind 46 p in
  if dotIndex >? sepIndex then
    let filenameIndex := sepIndex + 1 in
    if has_non_dot (slice_from (slice_to p dotIndex) filenameIndex)
    then (slice_to p dotIndex, slice_from p dotIndex)
    else (p, [])
  else (p, []).

End PosixPath.

(** The upload handed over by the web framework: its file name, taken to be
    present, and the bytes that reading it gives. *)
Record UploadFile := {
  upload_filename : str;
  upload_content : list Byte.byte
}.

(** A document with the metadata key ['file_type'], which
    [extract_key_information] reads; [None] stands for a missing key.  The
    memory service and the context builder read [document] only. *)
Record LoadedDocument := {
  document : Document;
  file_type : option str
}.

(** The three langchain loaders. *)
Inductive loader := PyPDFLoader | Docx2txtLoader | UnstructuredExcelLoader.

(** [Loader(path).load()] on a temporary file that holds the given bytes. *)
Class DocumentLoaders := {
  loader_load : loader -> list Byte.byte -> result (list Document)
}.

(** The two steps that [process_uploaded_file] takes before its [try]:
    reading the upload (line 52) and creating the temporary file and writing
    the bytes to it (lines 56-61).  Each either succeeds ([None]; the read
    then gives the bytes of the upload) or raises an [OSError], of which the
    message is given (a full disk, a missing temporary directory). *)
Class UploadIO := {
  read_error : UploadFile -> option str;
  temporary_file_error : list Byte.byte -> str -> option str
}.

(** An [OSError]: a subclass of [Exception] that is no [ValueError]. *)
Definition OSError (message : str) : exn := Exn OtherException message.

(** One entry of ["summary"]. *)
Record SummaryEntry := {
  entry_source : str;
  entry_preview : str
}.

(** The dictionary returned by [extract_key_information]; the two sets are
    returned as lists in no particular order. *)
Record KeyInformation := {
  total_documents : nat;
  file_types : gset str;
  source_files : gset str;
  total_text_length : Z;
  summary : list SummaryEntry
}.

(** The body of a successful upload. *)
Record UploadResponse := {
  upload_success : bool;
  upload_message : str;
  upload_session_id : str;
  file_info : KeyInformation;
  upload_preview : str;
  upload_document_count : nat;
  total_session_documents : nat
}.

(** What an endpoint hands to the web framework: a body, or an
    [HTTPException] with its status code and detail. *)
Inductive http (A : Type) :=
| Respond (body : A)
| HTTPException (status_code : Z) (detail : str).

Arguments Respond {A} body.
Arguments HTTPException {A} status_code detail.

(** What the [try] block of an endpoint can raise: an [HTTPException] of its
    own or an exception of the code it calls.  [HTTPException] is a subclass
    of [Exception] and not of [ValueError]. *)
Inductive raised :=
| raised_http (status_code : Z) (detail : str)
| raised_exn (e : exn).

(** [isinstance(e, ValueError)] *)
Definition is_ValueError (c : exn_class) : bool :=
  match c with
  | ValueError | JSONDecodeError | ValidationError => true
  | _ => false
  end.

Module DocumentUpload.

Section Upload.

Context `{PythonRuntime} `{DocumentLoaders} `{UploadIO}.

(** [self.supported_formats], in insertion order *)
Definition supported_formats : list (str * list str) :=
  [(lit "pdf", [lit ".pdf"]);
   (lit "docx", [lit ".docx"; lit ".doc"]);
   (lit "excel", [lit ".xlsx"; lit ".xls"])].

Definition get_supported_formats : list str :=
  fold_left (fun formats format_list => formats ++ format_list)
    (List.map snd supported_formats) [].

Definition is_supported_format (filename : str) : bool :=
  let ext := (PosixPath.splitext (str_lower filename)).2 in
  bool_decide (ext ∈ get_supported_formats).

(** The metadata update of lines 100-105; the key ['processed_at'] is read
    nowhere and left out. *)
Definition with_metadata (original_filename extension : str) (doc : Document)
    : LoadedDocument :=
  {| document := {| page_content := page_content doc;
                    source_file := Some original_filename |};
     file_type := Some extension |}.

(** [_load_document]; its handler logs and raises the exception again. *)
Definition _load_document (content : list Byte.byte)
    (extension original_filename : str) : result (list LoadedDocument) :=
  let? documents :=
    if bool_decide (extension = lit ".pdf")
    then loader_load PyPDFLoader content
    else if bool_decide (extension ∈ [lit ".docx"; lit ".doc"])
    then loader_load Docx2txtLoader content
    else if bool_decide (extension ∈ [lit ".xlsx"; lit ".xls"])
    then loader_load UnstructuredExcelLoader content
    else Raise (Exn ValueError
                  (lit "Unsupported file extension: " ++ extension)) in
  Ok (List.map (with_metadata original_filename extension) documents).

(** [process_uploaded_file].  The read and the temporary file come before
    the [try]: what they raise is not wrapped.  The [finally] removes the
    temporary file and ignores an [OSError] of the removal. *)
Definition process_uploaded_file (file : UploadFile)
    : result (list LoadedDocument) :=
  if negb (is_supported_format (upload_filename file)) then
    Raise (Exn ValueError
             (lit "Unsupported file format: " ++ upload_filename file))
  else
    let? file_content :=
      match read_error file with
      | Some message => Raise (OSError message)
      | None => Ok (upload_content file)
      end in
    let file_extension :=
      (PosixPath.splitext (str_lower (upload_filename file))).2 in
    let? _ :=
      match temporary_file_error file_content file_extension with
      | Some message => Raise (OSError message)
      | None => Ok tt
      end in
    match
      _load_document file_content file_extension (upload_filename file)
    with
    | Ok documents => Ok documents
    | Raise e =>
        Raise (Exn ValueError (lit "Failed to process file: " ++ str_of e))
    end.

(** [doc.page_content.strip()[:150]], followed by three dots when the
    unstripped content is longer than 150 characters. *)
Definition key_preview (doc : LoadedDocument) : str :=
  let preview := slice_to (strip (page_content (document doc))) 150 in
  if 150 <? len (page_content (document doc))
  then preview ++ lit "..."
  else preview.

(** One round of the loop of [extract_key_information]. *)
Definition add_key_information (info : KeyInformation) (doc : LoadedDocument)
    : KeyInformation :=
  {| total_documents := total_documents info;
     file_types :=
       file_types info ∪ {[ default (lit "unknown") (file_type doc) ]};
     source_files :=
       source_files info ∪
         {[ default (lit "unknown") (source_file (document doc)) ]};
     total_text_length :=
       total_text_length info + len (page_content (document doc));
     summary :=
       summary info ++
         [{| entry_source :=
               default (lit "unknown") (source_file (document doc));
             entry_preview := key_preview doc |}] |}.

Definition extract_key_information (documents : list LoadedDocument)
    : KeyInformation :=
  fold_left add_key_information documents
    {| total_documents := length documents;
       file_types := ∅;
       source_files := ∅;
       total_text_length := 0;
       summary := [] |}.

(** *** The endpoint [upload_document] (chat.py) *)

Definition internal_server_error : str :=
  lit "Internal server error during document processing".

(** The [try] block of the endpoint. *)
Definition upload_document_try (file : UploadFile) (session_id : str)
    (s : MemoryService) : (UploadResponse + raised) * MemoryService :=
  if negb (is_supported_format (upload_filename file)) then
    let supported := get_supported_formats in
    (inr (raised_http 400
            (lit "Unsupported file format. Supported formats: "
               ++ join (lit ", ") supported)), s)
  else
    match process_uploaded_file file with
    | Raise e => (inr (raised_exn e), s)
    | Ok documents =>
        let '(success, s) :=
          MemoryService.add_session_documents session_id
            (List.map document documents) s in
        if negb success then
          (inr (raised_http 500 (lit "Failed to store documents in session")),
           s)
        else
          let info := extract_key_information documents in
          let preview_context :=
            create_rag_context (List.map document documents) 500 in
          (inl {| upload_success := true;
                  upload_message :=
                    lit "Successfully processed " ++ upload_filename file;
                  upload_session_id := session_id;
                  file_info := info;
                  upload_preview := preview_context;
                  upload_document_count := length documents;
                  total_session_documents :=
                    MemoryService.get_session_document_count session_id s |},
           s)
    end.

(** The endpoint with its two handlers: [except ValueError] answers 400 with
    the message of the exception, [except Exception] answers 500. *)
Definition upload_document (file : UploadFile) (session_id : str)
    (s : MemoryService) : http UploadResponse * MemoryService :=
  match upload_document_try file session_id s with
  | (inl body, s') => (Respond body, s')
  | (inr (raised_exn e), s') =>
      if is_ValueError (class_of e)
      then (HTTPException 400 (str_of e), s')
      else (HTTPException 500 internal_server_error, s')
  | (inr (raised_http _ _), s') =>
      (HTTPException 500 internal_server_error, s')
  end.

End Upload.

End DocumentUpload.

(** Loaders for the examples: the PDF loader yields one page, the others
    fail. *)
Definition demo_loaders : DocumentLoaders :=
  {| loader_load := fun l _ =>
       match l with
       | PyPDFLoader =>
           Ok [{| page_content := lit " page one "; source_file := None |}]
       | _ => Raise (Exn OtherException (lit "cannot open file"))
       end |}.

(** A file system on which reading and writing succeed, and one whose
    temporary directory is full. *)
Definition demo_io : UploadIO :=
  {| read_error := fun _ => None;
     temporary_file_error := fun _ _ => None |}.

Definition demo_io_full : UploadIO :=
  {| read_error := fun _ => None;
     temporary_file_error := fun _ _ =>
       Some (lit "[Errno 28] No space left on device") |}.

Definition upload_pdf : UploadFile :=
  {| upload_filename := lit "CV.final.PDF"; upload_content := [] |}.

Definition upload_doc : UploadFile :=
  {| upload_filename := lit "notes.doc"; upload_content := [] |}.

Definition upload_txt : UploadFile :=
  {| upload_filename := lit "notes.txt"; upload_content := [] |}.


(** ** The AI service and the [/generate-code] endpoint (ai_service.py,
       chat.py) *)

(** The service object lives as long as the process and holds one
    [Supervisor], whose compiled graph is kept in [self.graph] from the first
    request that builds it; a compiled graph counts as true in the test
    [if not self.graph].  A boolean tells whether the graph is built. *)
Module CachedSupervisor.

Section Graph.

Context `{PythonRuntime} `{ModelBackend}.

(** Lines 571-626 of [process_request]: what follows the test of
    [self.graph]. *)
Definition run_graph (request : SupervisorRequest) : M Payload :=
  let session_id := Supervisor.session_id_of request in
  try_except
    (do result <-
       Supervisor.graph_invoke (Supervisor.initial_state request session_id) ;;
     ret {| p_request_type := request_type result;
            p_confidence := confidence result;
            p_reasoning := reasoning result;
            p_response := response result;
            p_generated_code := generated_code result;
            p_filename := filename result;
            p_language := language result;
            p_incremental_update := incremental_update result;
            p_messages := messages result;
            p_session_id := session_id |})
    (fun e =>
       do session_history <-
         call (MemoryService.get_session_history session_id) ;;
       do _ <- exec (MemoryService.add_message session_history
                       (HumanMessage (prompt request))) ;;
       do _ <- exec (MemoryService.add_message session_history
                       (AIMessage (Supervisor.error_occurred_prefix
                                     ++ str_of e))) ;;
       ret {| p_request_type := lit "error";
              p_confidence := 0%Q;
              p_reasoning := lit "Processing error: " ++ str_of e;
              p_response := Supervisor.request_error_prefix ++ str_of e;
              p_generated_code := [];
              p_filename := lit "index.html";
              p_language := lit "html";
              p_incremental_update := None;
              p_messages := [HumanMessage (prompt request)];
              p_session_id := session_id |}).

(** [process_request] on a supervisor whose graph is built or not; the last
    component tells whether it is built afterwards. *)
Definition process_request (graph : bool) (request : SupervisorRequest)
    (s : MemoryService) : result Payload * MemoryService * bool :=
  if negb graph then
    match Supervisor.create_supervisor_graph (config request) with
    | Ok _ => (run_graph request s, true)
    | Raise e => (Raise e, s, false)
    end
  else (run_graph request s, true).

End Graph.

End CachedSupervisor.

(** The dictionary returned by [generate_response]: the payload of the
    supervisor, or the error dictionary of lines 94-101, whose ["session_id"]
    is the request's own, possibly [None]. *)
Inductive ai_response :=
| ai_payload (p : Payload)
| ai_error (response : str) (session_id : option str).

(** [CodeOnlyRequest] *)
Record CodeOnlyRequest := {
  co_prompt : str;
  co_config : UserConfig;
  co_language : option str;
  co_filename : option str;
  co_currentCode : option str;
  co_sessionId : option str
}.

(** [CodeOnlyResponse] as the endpoint builds it; [detail] is left at its
    default. *)
Record CodeOnlyResponse := {
  code : str;
  code_language : str;
  code_filename : str;
  explanation : option str
}.

Module AIService.

Section Service.

Context `{PythonRuntime} `{ModelBackend}.

(** [response.get('generated_code', '')] and the like: all four keys are
    present in both dictionaries. *)
Definition get_generated_code (r : ai_response) : str :=
  match r with
  | ai_payload p => p_generated_code p
  | ai_error _ _ => []
  end.

Definition get_language (r : ai_response) : str :=
  match r with
  | ai_payload p => p_language p
  | ai_error _ _ => lit "html"
  end.

Definition get_filename (r : ai_response) : str :=
  match r with
  | ai_payload p => p_filename p
  | ai_error _ _ => lit "index.html"
  end.

Definition get_response (r : ai_response) : str :=
  match r with
  | ai_payload p => p_response p
  | ai_error response _ => response
  end.

(** [generate_response]: every exception of the supervisor becomes an error
    dictionary. *)
Definition generate_response (graph : bool) (request : SupervisorRequest)
    (s : MemoryService) : ai_response * MemoryService * bool :=
  match CachedSupervisor.process_request graph request s with
  | (Ok result, s', graph') => (ai_payload result, s', graph')
  | (Raise e, s', graph') =>
      (ai_error (Supervisor.request_error_prefix ++ str_of e)
         (req_session_id request), s', graph')
  end.

(** [generate_code_with_context]; [generate_response] raises nothing, so the
    handler of lines 155-163 is never entered. *)
Definition generate_code_with_context (graph : bool)
    (request : SupervisorRequest) (current_code : option str)
    (s : MemoryService) : ai_response * MemoryService * bool :=
  let request :=
    if truthy current_code then
      {| prompt := prompt request;
         config := config request;
         req_session_id := req_session_id request;
         req_currentCode := current_code;
         req_currentFilename := req_currentFilename request;
         req_currentLanguage := req_currentLanguage request;
         req_enable_incremental_updates :=
           req_enable_incremental_updates request |}
    else request in
  generate_response graph request s.

(** The endpoint [generate_code_only] (chat.py).  [CodeOnlyRequest] has no
    attribute [currentFilename] or [currentLanguage], so both [getattr] calls
    give [None]; the supervisor request gets no session id and the default
    [enable_incremental_updates].  Nothing in the [try] raises. *)
Definition generate_code_only (graph : bool) (request : CodeOnlyRequest)
    (s : MemoryService) : CodeOnlyResponse * MemoryService * bool :=
  let chat_request :=
    {| prompt := co_prompt request;
       config := co_config request;
       req_session_id := None;
       req_currentCode := co_currentCode request;
       req_currentFilename := None;
       req_currentLanguage := None;
       req_enable_incremental_updates := Some true |} in
  let '(response, s', graph') :=
    generate_code_with_context graph chat_request None s in
  ({| code := get_generated_code response;
      code_language := get_language response;
      code_filename := get_filename response;
      explanation := Some (get_response response) |}, s', graph').

End Service.

End AIService.

(** A code-editor request that names a session of its own. *)
Definition code_only_request : CodeOnlyRequest :=
  {| co_prompt := lit "add a footer";
     co_config := demo_config;
     co_language := Some (lit "css");
     co_filename := Some (lit "style.css");
     co_currentCode := Some (lit "<h1>Hi</h1>");
     co_sessionId := Some (lit "s1") |}.


(** ** Technology detection (ai_service.py) *)

Module Technologies.

Section Detect.

Context `{PythonRuntime}.

(** [if condition: technologies.add(name)] *)
Definition add_if (condition : bool) (name : str) (technologies : gset str)
    : gset str :=
  if condition then technologies ∪ {[ name ]} else technologies.

(** Lines 219-230: detection by the extension of the file name. *)
Definition by_extension (filename : str) (technologies : gset str)
    : gset str :=
  if endswith filename (lit ".tsx") || endswith filename (lit ".jsx") then
    technologies ∪ {[ lit "react" ]}
      ∪ {[ if endswith filename (lit ".tsx")
           then lit "typescript" else lit "javascript" ]}
  else if endswith filename (lit ".vue") then
    technologies ∪ {[ lit "vue" ]}
  else if endswith filename (lit ".html") then
    technologies ∪ {[ lit "html5" ]}
  else if endswith filename (lit ".css") || endswith filename (lit ".scss")
  then
    add_if (contains (lit ".scss") filename) (lit "sass")
      (technologies ∪ {[ lit "css" ]})
  else technologies.

(** [any(cls in code_lower for cls in [...])] *)
Definition any_in (classes : list str) (code_lower : str) : bool :=
  existsb (fun cls => contains cls code_lower) classes.

(** [detect_technologies]; the set is returned as a list in no particular
    order. *)
Definition detect_technologies (code filename : str) : gset str :=
  let technologies := by_extension filename ∅ in
  let code_lower := str_lower code in
  let technologies :=
    add_if (contains (lit "from react") code_lower
            || contains (lit "import react") code_lower)
      (lit "react") technologies in
  let technologies :=
    add_if (contains (lit "from next") code_lower
            || contains (lit "import next") code_lower)
      (lit "nextjs") technologies in
  let technologies :=
    add_if (contains (lit "vue") code_lower
            && (contains (lit "script setup") code_lower
                || contains (lit "vue") filename))
      (lit "vue") technologies in
  let technologies :=
    add_if (any_in [lit "tailwind"; lit "tw-"; lit "bg-"; lit "text-";
                    lit "p-"; lit "m-"] code_lower)
      (lit "tailwindcss") technologies in
  let technologies :=
    add_if (contains (lit "bootstrap") code_lower
            || contains (lit "btn") code_lower)
      (lit "bootstrap") technologies in
  if contains (lit "typescript") code_lower
     || contains (lit ": string") code
     || contains (lit "interface ") code
  then technologies ∪ {[ lit "typescript" ]}
  else if contains (lit "javascript") code_lower
          || endswith filename (lit ".js")
  then technologies ∪ {[ lit "javascript" ]}
  else technologies.

End Detect.

End Technologies.


(* ===================================================================== *)
(** * Properties *)
(* ===================================================================== *)

(** ** Python strings *)

Example split_commas :
  split (lit ",") (lit "a,b,,c") = [lit "a"; lit "b"; lit ""; lit "c"].
Proof. reflexivity. Qed.

Example split_no_overlap :
  split (lit "XX") (lit "aXXXa") = [lit "a"; lit "Xa"].
Proof. reflexivity. Qed.

Example split_trailing : split (lit "X") (lit "aX") = [lit "a"; lit ""].
Proof. reflexivity. Qed.

Example strip_both : strip (lit "  a b " ++ nl) = lit "a b".
Proof. reflexivity. Qed.

Example str_of_nat_12 : str_of_nat 12 = lit "12".
Proof. reflexivity. Qed.

Lemma len_app (a b : str) : len (a ++ b) = len a + len b.
Proof. unfold len. rewrite length_app. lia. Qed.

Lemma len_nonneg (a : str) : 0 <= len a.
Proof. unfold len. lia. Qed.

Lemma startswith_app (p x : str) : startswith (p ++ x) p = true.
Proof.
  induction p as [|c p IH]; simpl; [reflexivity|].
  rewrite N.eqb_refl. exact IH.
Qed.

Lemma endswith_app (a m : str) : endswith (a ++ m) m = true.
Proof. unfold endswith. rewrite rev_app_distr. apply startswith_app. Qed.

Lemma startswith_nil_l (p : str) : p <> [] -> startswith [] p = false.
Proof. destruct p; [congruence | reflexivity]. Qed.

Lemma split_go_length (sep s : str) (k : nat) (cur : str) :
  (1 <= length (split_go sep s k cur))%nat.
Proof.
  revert k cur. induction s as [|c s IH]; intros k cur; simpl; [lia|].
  destruct k as [|k]; [|apply IH].
  destruct (startswith (c :: s) sep); simpl; [lia | apply IH].
Qed.

(** Whenever [sep in s] holds, [s.split(sep)] has at least two pieces, so the
    index [1] used by the parsers exists. *)
Lemma split_contains_length (sep s : str) :
  sep <> [] -> contains sep s = true -> (2 <= length (split sep s))%nat.
Proof.
  intros Hsep. unfold split. generalize (@nil N) as cur.
  induction s as [|c s IH]; intros cur Hc.
  - simpl in Hc. rewrite startswith_nil_l in Hc by assumption. discriminate.
  - cbn [contains] in Hc. cbn [split_go].
    destruct (startswith (c :: s) sep) eqn:Hs.
    + cbn [length]. pose proof (split_go_length sep s (length sep - 1) []). lia.
    + apply IH. exact Hc.
Qed.

(** Without an occurrence of the separator the string is the only piece. *)
Lemma split_not_contains (sep s : str) :
  contains sep s = false -> split sep s = [s].
Proof.
  unfold split. intros Hc.
  enough (forall cur, split_go sep s 0 cur = [rev cur ++ s]) as H by apply H.
  induction s as [|c s IH]; intros cur.
  - simpl. by rewrite app_nil_r.
  - cbn [contains] in Hc. apply orb_false_iff in Hc as [Hs Hc].
    cbn [split_go]. rewrite Hs, (IH Hc). simpl. by rewrite <- app_assoc.
Qed.

Lemma slice_to_length (s : str) (k : Z) : 0 <= k -> len (slice_to s k) <= k.
Proof.
  intros Hk. unfold slice_to, len.
  destruct (0 <=? k) eqn:E; [|lia]. rewrite length_take. lia.
Qed.

(** ** The RAG context builder: greedy whole blocks *)

Example rag_two_docs :
  create_rag_context [doc_a; doc_b] 4000 =
  nl ++ lit "[Document: a]" ++ nl ++ lit "x" ++ nl ++
  nl ++ lit "[Document: Document 2]" ++ nl ++ lit "hello".
Proof. reflexivity. Qed.

Lemma total_len_nonneg (bs : list str) : 0 <= total_len bs.
Proof.
  induction bs as [|b bs IH]; simpl; [lia|]. pose proof (len_nonneg b). lia.
Qed.

Lemma fitting_prefix_all (bs : list str) (budget : Z) :
  total_len bs <= budget -> fitting_prefix bs budget = bs.
Proof.
  revert budget. induction bs as [|b bs IH]; intros budget H; simpl in *.
  - reflexivity.
  - pose proof (total_len_nonneg bs).
    destruct (len b >? budget) eqn:E; [lia|].
    f_equal. apply IH. lia.
Qed.

(** The prefix that is kept fits, and the block after it (if any) does not. *)
Lemma fitting_prefix_maximal (bs : list str) (budget : Z) :
  exists rest,
    bs = fitting_prefix bs budget ++ rest /\
    (0 <= budget -> total_len (fitting_prefix bs budget) <= budget) /\
    match rest with
    | [] => True
    | b :: _ => total_len (fitting_prefix bs budget) + len b > budget
    end.
Proof.
  revert budget. induction bs as [|b bs IH]; intros budget; simpl.
  - exists []. repeat split; lia.
  - destruct (len b >? budget) eqn:E.
    + exists (b :: bs). simpl. repeat split; lia.
    + destruct (IH (budget - len b)) as (rest & Heq & Hfit & Hnext).
      exists rest. simpl. pose proof (len_nonneg b). repeat split.
      * congruence.
      * intros _. assert (0 <= budget - len b) as H0 by lia.
        specialize (Hfit H0). lia.
      * destruct rest; [exact I | lia].
Qed.

(** Once a block has been collected, the loop appends the fitting prefix of the
    remaining blocks and nothing else. *)
Lemma rag_loop_collected (docs : list Document) (i : nat) (max_length : Z)
    (parts : list str) (cur : Z) :
  parts <> [] ->
  rag_loop docs i max_length parts cur =
  parts ++ fitting_prefix (blocks_from i docs) (max_length - cur).
Proof.
  revert i parts cur. induction docs as [|d docs IH]; intros i parts cur Hne.
  - simpl. by rewrite app_nil_r.
  - cbn [rag_loop blocks_from fitting_prefix].
    destruct (cur + len (total_content i d) >? max_length) eqn:E.
    + assert ((len (total_content i d) >? max_length - cur) = true) as -> by lia.
      destruct parts; [congruence|]. by rewrite app_nil_r.
    + assert ((len (total_content i d) >? max_length - cur) = false) as -> by lia.
      rewrite IH by (destruct parts; discriminate).
      rewrite <- app_assoc. simpl. do 3 f_equal. lia.
Qed.

Lemma rag_loop_first_fits (d : Document) (rest : list Document)
    (max_length : Z) :
  len (total_content 0 d) <= max_length ->
  rag_loop (d :: rest) 0 max_length [] 0 =
  fitting_prefix (blocks_from 0 (d :: rest)) max_length.
Proof.
  intros Hfit. cbn [rag_loop blocks_from fitting_prefix].
  assert ((0 + len (total_content 0 d) >? max_length) = false) as -> by lia.
  assert ((len (total_content 0 d) >? max_length) = false) as -> by lia.
  rewrite rag_loop_collected by discriminate. simpl. do 2 f_equal.
Qed.

(** C5, as stated, fails: two documents that fit are not returned as the plain
    concatenation of their ["[Document: <name>]\n<content>"] blocks; every
    block starts with a newline and the blocks are joined by a newline. *)
Lemma create_rag_context_not_plain_concatenation :
  len (spec_concatenation [doc_a; doc_c]) <= 4000 /\
  total_len (blocks_from 0 [doc_a; doc_c]) <= 4000 /\
  spec_concatenation [doc_a; doc_c] =
    lit "[Document: a]" ++ nl ++ lit "x" ++ lit "[Document: c]" ++ nl ++ lit "y" /\
  create_rag_context [doc_a; doc_c] 4000 =
    nl ++ lit "[Document: a]" ++ nl ++ lit "x" ++ nl ++
    nl ++ lit "[Document: c]" ++ nl ++ lit "y" /\
  create_rag_context [doc_a; doc_c] 4000 <> spec_concatenation [doc_a; doc_c].
Proof. repeat split; try (vm_compute; congruence). Qed.

(** C5 (amended): when the lengths of the blocks sum to at most [max_length],
    the context is the newline-join of all blocks
    ["\n[Document: <name>]\n" + content.strip()] in document order; in general,
    when the first block fits, it is the newline-join of the longest prefix of
    blocks whose running length stays within [max_length], and the block after
    that prefix, if any, would exceed it. *)
Theorem create_rag_context_greedy (docs : list Document) (max_length : Z) :
  (total_len (blocks_from 0 docs) <= max_length ->
     create_rag_context docs max_length = join nl (blocks_from 0 docs)) /\
  (fitting_prefix (blocks_from 0 docs) max_length <> [] ->
     create_rag_context docs max_length =
     join nl (fitting_prefix (blocks_from 0 docs) max_length)) /\
  (exists rest,
     blocks_from 0 docs = fitting_prefix (blocks_from 0 docs) max_length ++ rest /\
     match rest with
     | [] => True
     | b :: _ =>
         total_len (fitting_prefix (blocks_from 0 docs) max_length) + len b
           > max_length
     end).
Proof.
  assert (fitting_prefix (blocks_from 0 docs) max_length <> [] ->
          create_rag_context docs max_length =
          join nl (fitting_prefix (blocks_from 0 docs) max_length)) as Hgreedy.
  { destruct docs as [|d rest]; [simpl; congruence|].
    intros Hne. unfold create_rag_context.
    destruct (Z.leb_spec (len (total_content 0 d)) max_length) as [Hfit|Hno].
    - by rewrite rag_loop_first_fits.
    - exfalso. apply Hne. simpl.
      by assert ((len (total_content 0 d) >? max_length) = true) as -> by lia. }
  split; [|split].
  - intros Hall. destruct docs as [|d rest]; [reflexivity|].
    rewrite Hgreedy; rewrite fitting_prefix_all by assumption;
      [reflexivity | discriminate].
  - exact Hgreedy.
  - destruct (fitting_prefix_maximal (blocks_from 0 docs) max_length)
      as (rest & Heq & _ & Hnext).
    by exists rest.
Qed.

Lemma create_rag_context_greedy_witness :
  total_len (blocks_from 0 [doc_a; doc_c]) <= 4000 /\
  create_rag_context [doc_a; doc_c] 4000 = join nl (blocks_from 0 [doc_a; doc_c]) /\
  fitting_prefix (blocks_from 0 [doc_a; doc_c]) 20 <> [] /\
  create_rag_context [doc_a; doc_c] 20 =
    join nl (fitting_prefix (blocks_from 0 [doc_a; doc_c]) 20).
Proof.
  pose proof (create_rag_context_greedy [doc_a; doc_c] 4000) as [H1 _].
  pose proof (create_rag_context_greedy [doc_a; doc_c] 20) as [_ [H2 _]].
  assert (total_len (blocks_from 0 [doc_a; doc_c]) <= 4000) as Hfit
    by (vm_compute; congruence).
  assert (fitting_prefix (blocks_from 0 [doc_a; doc_c]) 20 <> []) as Hne
    by (vm_compute; congruence).
  exact (conj Hfit (conj (H1 Hfit) (conj Hne (H2 Hne)))).
Defined.

(** ** The RAG context builder: truncation of the first block *)

(** C4, as stated, fails: with [max_length = 100] the header (15 characters),
    the 50 reserved characters and the marker all fit, the first block (215
    characters) exceeds the budget, and the context returned is empty. *)
Lemma create_rag_context_small_budget_empty :
  len (header 0 doc_long) + 50 + len truncation_marker < 100 /\
  len (total_content 0 doc_long) > 100 /\
  create_rag_context [doc_long] 100 = [] /\
  endswith (create_rag_context [doc_long] 100) truncation_marker = false.
Proof. repeat split. Qed.

(** C4 (amended): when the first block exceeds the budget and
    [max_length - len(header) - 50 > 100], the context is the header, the first
    [max_length - len(header) - 50] characters of the stripped content and the
    truncation marker; it is at most [max_length] long, ends with the marker
    and is not empty. *)
Theorem create_rag_context_truncates_first (d : Document)
    (rest : list Document) (max_length : Z) :
  len (total_content 0 d) > max_length ->
  max_length - len (header 0 d) - 50 > 100 ->
  create_rag_context (d :: rest) max_length =
    header 0 d ++
    slice_to (doc_content d) (max_length - len (header 0 d) - 50) ++
    truncation_marker /\
  len (create_rag_context (d :: rest) max_length) <= max_length /\
  endswith (create_rag_context (d :: rest) max_length) truncation_marker = true /\
  create_rag_context (d :: rest) max_length <> [].
Proof.
  intros Hbig Hroom.
  assert (create_rag_context (d :: rest) max_length =
          header 0 d ++
          slice_to (doc_content d) (max_length - len (header 0 d) - 50) ++
          truncation_marker) as Heq.
  { unfold create_rag_context. cbn [rag_loop].
    assert ((0 + len (total_content 0 d) >? max_length) = true) as -> by lia.
    assert ((max_length - len (header 0 d) - 50 >? 100) = true) as -> by lia.
    reflexivity. }
  rewrite Heq. repeat split.
  - rewrite !len_app.
    pose proof (slice_to_length (doc_content d)
                  (max_length - len (header 0 d) - 50)) as Hs.
    change (len truncation_marker) with 10. lia.
  - rewrite app_assoc. apply endswith_app.
  - unfold header, nl. simpl. discriminate.
Qed.

Lemma create_rag_context_truncates_first_witness :
  len (total_content 0 doc_long) > 170 /\
  170 - len (header 0 doc_long) - 50 > 100 /\
  len (create_rag_context [doc_long] 170) <= 170 /\
  endswith (create_rag_context [doc_long] 170) truncation_marker = true.
Proof.
  assert (len (total_content 0 doc_long) > 170) as H1 by reflexivity.
  assert (170 - len (header 0 doc_long) - 50 > 100) as H2 by reflexivity.
  pose proof (create_rag_context_truncates_first doc_long [] 170 H1 H2)
    as (_ & Hlen & Hend & _).
  exact (conj H1 (conj H2 (conj Hlen Hend))).
Defined.

(** When the room left after the header and the 50 reserved characters is at
    most 100, nothing is kept of a first block that does not fit. *)
Lemma create_rag_context_no_room (d : Document) (rest : list Document)
    (max_length : Z) :
  len (total_content 0 d) > max_length ->
  max_length - len (header 0 d) - 50 <= 100 ->
  create_rag_context (d :: rest) max_length = [].
Proof.
  intros Hbig Hroom. unfold create_rag_context. cbn [rag_loop].
  assert ((0 + len (total_content 0 d) >? max_length) = true) as -> by lia.
  by assert ((max_length - len (header 0 d) - 50 >? 100) = false) as -> by lia.
Qed.

(** ** Session memory *)

Module MemoryFacts.
Import MemoryService.

Lemma wf_init : wf init.
Proof. split; intros *; cbn; by rewrite lookup_empty. Qed.

Lemma get_session_history_lookup (sid : str) (s : MemoryService) :
  chat_histories (get_session_history sid s).2 !! sid
  = Some (get_session_history sid s).1.
Proof.
  unfold get_session_history.
  destruct (chat_histories s !! sid) eqn:E; cbn; [done|].
  by rewrite lookup_insert_eq.
Qed.

Lemma get_session_history_wf (sid : str) (s : MemoryService) :
  wf s -> wf (get_session_history sid s).2.
Proof.
  intros [Hdom Hinj]. unfold get_session_history.
  destruct (chat_histories s !! sid) eqn:E; cbn; [by split|].
  set (h := fresh (dom (instances s))).
  assert (instances s !! h = None) as Hfresh.
  { apply not_elem_of_dom. apply is_fresh. }
  split; cbn.
  - intros sid' h' Hl. destruct (decide (sid = sid')) as [->|Hne].
    + rewrite lookup_insert_eq in Hl. injection Hl as <-.
      rewrite lookup_insert_eq. by eexists.
    + rewrite lookup_insert_ne in Hl by done.
      destruct (Hdom _ _ Hl) as [ms Hms].
      rewrite lookup_insert_ne; [by eexists | congruence].
  - intros sid1 sid2 h' H1 H2.
    destruct (decide (sid1 = sid2)) as [|Hne]; [done|]. exfalso.
    rewrite lookup_insert in H1. rewrite lookup_insert in H2.
    destruct (decide (sid = sid1)) as [E1|N1];
      destruct (decide (sid = sid2)) as [E2|N2].
    + congruence.
    + injection H1 as <-. destruct (Hdom _ _ H2) as [ms Hms]. congruence.
    + injection H2 as <-. destruct (Hdom _ _ H1) as [ms Hms]. congruence.
    + apply Hne. by eapply Hinj.
Qed.

Lemma add_message_wf (h : ref) (m : message) (s : MemoryService) :
  wf s -> wf (add_message h m s).
Proof.
  intros [Hdom Hinj]. split; cbn; [|exact Hinj].
  intros sid h' Hl. destruct (decide (h = h')) as [->|Hne].
  - rewrite lookup_insert_eq. by eexists.
  - rewrite lookup_insert_ne by done. by eapply Hdom.
Qed.

Lemma clear_session_history_wf (sid : str) (s : MemoryService) :
  wf s -> wf (clear_session_history sid s).2.
Proof.
  intros [Hdom Hinj]. unfold clear_session_history.
  destruct (chat_histories s !! sid) as [h|] eqn:E; cbn; [|by split].
  split; cbn; [|exact Hinj].
  intros sid' h' Hl. destruct (decide (h = h')) as [->|Hne].
  - rewrite lookup_insert_eq. by eexists.
  - rewrite lookup_insert_ne by done. by eapply Hdom.
Qed.

Lemma messages_add_message (h : ref) (m : message) (s : MemoryService) :
  messages h (add_message h m s) = messages h s ++ [m].
Proof. unfold messages at 1. cbn. by rewrite lookup_insert_eq. Qed.

Lemma messages_add_message_ne (h h' : ref) (m : message) (s : MemoryService) :
  h <> h' -> messages h' (add_message h m s) = messages h' s.
Proof. intros Hne. unfold messages. cbn. by rewrite lookup_insert_ne. Qed.

Lemma get_session_history_preserves (sid k : str) (h : ref)
    (s : MemoryService) :
  chat_histories s !! k = Some h ->
  chat_histories (get_session_history sid s).2 !! k = Some h.
Proof.
  intros Hk. unfold get_session_history.
  destruct (chat_histories s !! sid) eqn:E; cbn; [exact Hk|].
  rewrite lookup_insert_ne; [exact Hk | congruence].
Qed.

(** In a well-formed service two sessions never share a history instance. *)
Lemma get_session_history_distinct (sid1 sid2 : str) (s : MemoryService) :
  wf s -> sid1 <> sid2 ->
  (get_session_history sid1 s).1
  <> (get_session_history sid2 (get_session_history sid1 s).2).1.
Proof.
  intros Hwf Hne Heq.
  pose proof (get_session_history_wf sid2 _ (get_session_history_wf sid1 _ Hwf))
    as [_ Hinj].
  apply Hne. eapply Hinj.
  - apply get_session_history_preserves, get_session_history_lookup.
  - rewrite Heq. apply get_session_history_lookup.
Qed.

(** In a well-formed service, clearing the history of one session leaves the
    messages of every other session as they were. *)
Lemma clear_session_history_other (sid sid' : str) (s : MemoryService) :
  wf s -> sid <> sid' ->
  get_session_message_count sid' (clear_session_history sid s).2
  = get_session_message_count sid' s.
Proof.
  intros [_ Hinj] Hne. unfold clear_session_history, get_session_message_count.
  destruct (chat_histories s !! sid) as [h|] eqn:E; cbn; [|reflexivity].
  destruct (chat_histories s !! sid') as [h'|] eqn:E'; [|reflexivity].
  unfold messages. cbn. rewrite lookup_insert_ne; [reflexivity|].
  intros ->. apply Hne. by eapply Hinj.
Qed.

End MemoryFacts.

(** C8: clearing the history of an existing session returns [True] and leaves
    its message count at 0; clearing a session id that has no history returns
    [False] and leaves the whole service as it was. *)
Theorem clear_session_history_count (sid : str) (s : MemoryService) :
  (is_Some (chat_histories s !! sid) ->
     (MemoryService.clear_session_history sid s).1 = true /\
     MemoryService.get_session_message_count sid
       (MemoryService.clear_session_history sid s).2 = 0%nat) /\
  (chat_histories s !! sid = None ->
     (MemoryService.clear_session_history sid s).1 = false /\
     (MemoryService.clear_session_history sid s).2 = s).
Proof.
  unfold MemoryService.clear_session_history,
    MemoryService.get_session_message_count.
  split.
  - intros [h Hh]. rewrite Hh. cbn. rewrite Hh. split; [done|].
    unfold MemoryService.messages. cbn. by rewrite lookup_insert_eq.
  - intros Hn. by rewrite Hn.
Qed.

Lemma clear_session_history_count_witness :
  is_Some (chat_histories store_one_session !! lit "s1") /\
  MemoryService.get_session_message_count (lit "s1") store_one_session = 2%nat /\
  MemoryService.get_session_message_count (lit "s1")
    (MemoryService.clear_session_history (lit "s1") store_one_session).2 = 0%nat /\
  chat_histories store_one_session !! lit "s2" = None /\
  (MemoryService.clear_session_history (lit "s2") store_one_session).1 = false.
Proof.
  pose proof (clear_session_history_count (lit "s1") store_one_session)
    as [Hex _].
  pose proof (clear_session_history_count (lit "s2") store_one_session)
    as [_ Hno].
  assert (is_Some (chat_histories store_one_session !! lit "s1")) as H1
    by (vm_compute; eauto).
  assert (chat_histories store_one_session !! lit "s2" = None) as H2
    by (vm_compute; reflexivity).
  refine (conj H1 (conj _ (conj (proj2 (Hex H1)) (conj H2 (proj1 (Hno H2)))))).
  vm_compute. reflexivity.
Defined.

(** C9: two lookups of the same session id return the same history instance
    and the second lookup changes nothing; the instance is the one that the
    service keeps under that id; a message appended through one handle is read
    through the other.  The instance is the session's own: in a well-formed
    service the lookup of another id returns another instance, through which
    the appended message is not read. *)
Theorem get_session_history_same_instance (sid : str) (s : MemoryService) :
  let r1 := MemoryService.get_session_history sid s in
  let r2 := MemoryService.get_session_history sid r1.2 in
  r2.1 = r1.1 /\ r2.2 = r1.2 /\
  chat_histories r1.2 !! sid = Some r1.1 /\
  (forall m,
     MemoryService.messages r2.1 (MemoryService.add_message r1.1 m r2.2)
     = MemoryService.messages r2.1 r2.2 ++ [m]) /\
  (MemoryService.wf s ->
   is_Some (instances r1.2 !! r1.1) /\
   forall sid', sid' <> sid ->
     let r' := MemoryService.get_session_history sid' r1.2 in
     r'.1 <> r1.1 /\
     chat_histories r'.2 !! sid = Some r1.1 /\
     forall m,
       MemoryService.messages r'.1 (MemoryService.add_message r1.1 m r'.2)
       = MemoryService.messages r'.1 r'.2).
Proof.
  intros r1 r2.
  assert (r2 = (r1.1, r1.2)) as Hr2.
  { subst r2. unfold MemoryService.get_session_history at 1.
    subst r1. by rewrite MemoryFacts.get_session_history_lookup. }
  rewrite Hr2. cbn [fst snd].
  split; [reflexivity|]. split; [reflexivity|].
  split; [apply MemoryFacts.get_session_history_lookup|]. split.
  - intros m. apply MemoryFacts.messages_add_message.
  - intros Hwf. split.
    { destruct (MemoryFacts.get_session_history_wf sid s Hwf) as [Hdom _].
      apply (Hdom sid). apply MemoryFacts.get_session_history_lookup. }
    intros sid' Hne.
    set (r' := MemoryService.get_session_history sid' r1.2).
    assert (r1.1 <> r'.1) as Hd
      by (apply MemoryFacts.get_session_history_distinct; [done|congruence]).
    split; [congruence|]. split.
    + apply MemoryFacts.get_session_history_preserves,
        MemoryFacts.get_session_history_lookup.
    + intros m. by apply MemoryFacts.messages_add_message_ne.
Qed.

Lemma get_session_history_same_instance_witness :
  MemoryService.wf MemoryService.init /\
  (MemoryService.get_session_history (lit "s2")
     (MemoryService.get_session_history (lit "s1") MemoryService.init).2).1
  <> (MemoryService.get_session_history (lit "s1") MemoryService.init).1 /\
  chat_histories
    (MemoryService.get_session_history (lit "s1") MemoryService.init).2
    !! lit "s1"
  = Some (MemoryService.get_session_history (lit "s1") MemoryService.init).1.
Proof.
  split; [apply MemoryFacts.wf_init|].
  destruct (get_session_history_same_instance (lit "s1") MemoryService.init)
    as (_ & _ & Hkept & _ & Hown).
  destruct (Hown MemoryFacts.wf_init) as [_ Hother].
  destruct (Hother (lit "s2") ltac:(discriminate)) as [Hne _].
  exact (conj Hne Hkept).
Defined.

(** C10: clearing a history changes neither the documents of any session nor
    the set of sessions; clearing the documents of a session changes neither
    the histories nor the sessions; and the other operations never remove a
    document. *)
Theorem clear_operations_frame (sid : str) (s : MemoryService) :
  (session_documents (MemoryService.clear_session_history sid s).2
     = session_documents s /\
   (forall sid',
      MemoryService.get_session_document_count sid'
        (MemoryService.clear_session_history sid s).2
      = MemoryService.get_session_document_count sid' s) /\
   MemoryService.list_active_sessions
     (MemoryService.clear_session_history sid s).2
     = MemoryService.list_active_sessions s) /\
  (chat_histories (MemoryService.clear_session_documents sid s).2
     = chat_histories s /\
   instances (MemoryService.clear_session_documents sid s).2 = instances s /\
   (forall sid',
      MemoryService.get_session_message_count sid'
        (MemoryService.clear_session_documents sid s).2
      = MemoryService.get_session_message_count sid' s) /\
   MemoryService.get_session_document_count sid
     (MemoryService.clear_session_documents sid s).2 = 0%nat) /\
  (session_documents (MemoryService.get_session_history sid s).2
     = session_documents s /\
   (forall h m, session_documents (MemoryService.add_message h m s)
                = session_documents s) /\
   (forall docs sid',
      (MemoryService.get_session_document_count sid' s
       <= MemoryService.get_session_document_count sid'
            (MemoryService.add_session_documents sid docs s).2)%nat)).
Proof.
  split; [|split].
  - assert (session_documents (MemoryService.clear_session_history sid s).2
            = session_documents s /\
            chat_histories (MemoryService.clear_session_history sid s).2
            = chat_histories s) as [Hd Hc].
    { unfold MemoryService.clear_session_history.
      by destruct (chat_histories s !! sid). }
    split; [exact Hd|]. split.
    + intros sid'. unfold MemoryService.get_session_document_count,
        MemoryService.get_session_documents. by rewrite Hd.
    + unfold MemoryService.list_active_sessions. by rewrite Hc.
  - unfold MemoryService.clear_session_documents,
      MemoryService.get_session_message_count,
      MemoryService.get_session_document_count,
      MemoryService.get_session_documents.
    destruct (session_documents s !! sid) eqn:E; cbn.
    + repeat split. by rewrite lookup_delete_eq.
    + repeat split. by rewrite E.
  - split; [|split].
    + unfold MemoryService.get_session_history.
      by destruct (chat_histories s !! sid).
    + done.
    + intros docs sid'. unfold MemoryService.get_session_document_count,
        MemoryService.get_session_documents. cbn.
      destruct (decide (sid = sid')) as [->|Hne].
      * rewrite lookup_insert_eq. cbn. rewrite length_app. lia.
      * by rewrite lookup_insert_ne.
Qed.

(** ** The supervisor: reading the model's reply *)

Import Supervisor.

Lemma startswith_refl (x : str) : startswith x x = true.
Proof. rewrite <- (app_nil_r x) at 1. apply startswith_app. Qed.

Lemma contains_app_r (p x : str) : contains x (p ++ x) = true.
Proof.
  induction p as [|c p IH]; simpl.
  - destruct x; simpl; [reflexivity|].
    by rewrite N.eqb_refl, startswith_refl.
  - rewrite IH. apply orb_true_r.
Qed.

Lemma search_operations_contains (s g : str) :
  search_operations s = Some g -> contains INCREMENTAL_OPERATIONS s = true.
Proof.
  induction s as [|c s IH]; intros Hs.
  - discriminate.
  - cbn [search_operations] in Hs. cbn [contains].
    destruct (startswith (c :: s) INCREMENTAL_OPERATIONS); [reflexivity|].
    rewrite IH; [apply orb_true_r | exact Hs].
Qed.

Section ReplyFacts.

Context `{R : PythonRuntime}.




End ReplyFacts.

(** ** The supervisor: the incremental operations of a reply *)

Section OperationsFacts.

Context `{R : PythonRuntime}.

(** The conversion starts with an import that fails, so no decoded array is
    ever converted. *)
Lemma parse_operations_decoded (reply explanation g : str) (v : json) :
  search_operations reply = Some g ->
  json_loads g = Ok v ->
  parse_operations reply explanation = Raise schemas_not_found.
Proof. intros Hs Hj. unfold parse_operations. by rewrite Hs, Hj. Qed.

(** Whatever the reply, reading it never yields an incremental update. *)
Lemma parse_response_update_none (reply : str) (cf cl : option str)
    (hc : bool) (p : Parsed) :
  parse_response reply cf cl hc = Ok p -> parsed_update p = None.
Proof.
  unfold parse_response, parse_incremental, parse_operations.
  destruct (contains INCREMENTAL_OPERATIONS reply && hc).
  - destruct (search_operations reply) as [g|]; cbn.
    + destruct (json_loads g) as [v|e]; cbn.
      * discriminate.
      * destruct (caught_by_fallback (class_of e)); cbn; [|discriminate].
        intros [= <-].
        unfold parse_full_generation.
        destruct (parse_code _ _ _) as [[c fn] lg]. by destruct c.
    + intros [= <-]. unfold parse_full_generation.
      destruct (parse_code _ _ _) as [[c fn] lg]. by destruct c.
  - cbn. intros [= <-]. unfold parse_full_generation.
    destruct (parse_code _ _ _) as [[c fn] lg]. by destruct c.
Qed.



(** When the operations array of a reply decodes, the conversion raises
    [ModuleNotFoundError], which the handler of lines 471-474 does not catch:
    the reading of the reply raises. *)
Lemma parse_response_decoded_array_raises (reply : str)
    (cf cl : option str) (g : str) (v : json) :
  search_operations reply = Some g ->
  json_loads g = Ok v ->
  parse_response reply cf cl true = Raise schemas_not_found /\
  caught_by_fallback (class_of schemas_not_found) = false.
Proof.
  intros Hs Hj. split; [|reflexivity].
  unfold parse_response, parse_incremental.
  rewrite (search_operations_contains _ _ Hs).
  by rewrite (parse_operations_decoded _ _ _ _ Hs Hj).
Qed.




End OperationsFacts.



(** On that reply the code agent's [try] ends in its handler: the command
    carries the error message and neither code nor an incremental update. *)
Example code_agent_try_array_of_int :
  exists s',
    try_except
      (@code_agent_try demo_runtime demo_backend_ops state_with_code 0%nat
         (lit "make the title blue") (lit "prompt"))
      (code_agent_except state_with_code 0%nat (lit "make the title blue"))
      MemoryService.init
    = (Ok {| goto := END;
             update :=
               [set_response (code_error_prefix ++ str_of schemas_not_found);
                set_messages
                  (messages state_with_code ++
                   [AIMessage
                      (code_error_prefix ++ str_of schemas_not_found)])] |},
       s').
Proof. eexists. reflexivity. Qed.

(** With the same reply the design document expects the standard parsing,
    which would give the whole reply as code. *)
Example standard_parsing_array_of_int :
  @parse_full_generation demo_runtime reply_array_of_int [] (lit "index.html")
    (lit "html")
  = {| parsed_code := reply_array_of_int;
       parsed_explanation := generic_explanation;
       parsed_filename := lit "index.html";
       parsed_language := lit "html";
       parsed_update := None |}.
Proof. reflexivity. Qed.

Example parse_response_malformed_array :
  @parse_response demo_runtime reply_malformed None None true
  = Ok {| parsed_code := reply_malformed;
          parsed_explanation := generic_explanation;
          parsed_filename := lit "index.html";
          parsed_language := lit "html";
          parsed_update := None |}.
Proof. reflexivity. Qed.

(** ** The supervisor: what the code agent returns for a reply *)

Section ArtifactFacts.

Context `{R : PythonRuntime} `{B : ModelBackend}.



End ArtifactFacts.



(** ** The supervisor: the choice between incremental and full generation *)

Lemma has_existing_code_spec (state : SupervisorState) :
  has_existing_code state = true <->
  exists c, currentCode state = Some c /\ strip c <> [].
Proof.
  unfold has_existing_code. split.
  - destruct (currentCode state) as [c|]; [|discriminate].
    intros Hs. exists c. split; [reflexivity|].
    destruct (strip c); [discriminate | discriminate].
  - intros (c & -> & Hne). by destruct (strip c).
Qed.

(** Inside the code agent the incremental branch is taken exactly when the
    state enables incremental updates (or has no such key) and holds non-blank
    editor code. *)
Lemma select_mode_incremental (state : SupervisorState) :
  select_mode state = incremental_mode <->
  enable_incremental_updates state <> Some false /\
  has_existing_code state = true.
Proof.
  unfold select_mode, enable_incremental.
  destruct (enable_incremental_updates state) as [[|]|];
    destruct (has_existing_code state); cbn; split;
    try discriminate; try (intros [? ?]; congruence); intros _; split;
    congruence.
Qed.

(** The state built by [process_request] never disables incremental updates,
    whatever the request says. *)
Lemma initial_state_enable_incremental (request : SupervisorRequest)
    (sid : str) :
  enable_incremental (initial_state request sid) = true.
Proof. reflexivity. Qed.

(** The dictionary that a node of the graph reads has no editor code: the
    full-generation branch is taken on it. *)
Lemma select_mode_channels (state : SupervisorState) :
  select_mode (channels state) = full_generation_mode.
Proof. reflexivity. Qed.

(** ** The supervisor: classification *)

Section NodeFacts.

Context `{R : PythonRuntime} `{B : ModelBackend}.

(** The classification step always returns a [Command]. *)
Lemma supervisor_node_returns (state : SupervisorState) (s : MemoryService) :
  exists c s', supervisor_node state s = (Ok c, s').
Proof.
  unfold supervisor_node. destruct (last (messages state)); [|by eexists _, _].
  autounfold with monad.
  destruct (MemoryService.get_session_history _ s) as [h s1].
  destruct (classifier_invoke _); by eexists _, _.
Qed.

(** The run of the [except] branch of the classification step. *)
Lemma supervisor_node_except (state : SupervisorState) (s : MemoryService)
    (last_message : message) (e : exn) :
  last (messages state) = Some last_message ->
  classifier_invoke
    [HumanMessage
       (classification_prompt
          (MemoryService.messages
             (MemoryService.get_session_history (session_id state) s).1
             (MemoryService.get_session_history (session_id state) s).2)
          (content last_message))] = Raise e ->
  supervisor_node state s =
    (Ok (classification_fallback e),
     (MemoryService.get_session_history (session_id state) s).2).
Proof.
  intros Hlast Hraise.
  unfold supervisor_node. rewrite Hlast.
  autounfold with monad.
  destruct (MemoryService.get_session_history (session_id state) s)
    as [h s1] eqn:Hh.
  cbn in Hraise. by rewrite Hraise.
Qed.

Lemma classification_fallback_fields (state : SupervisorState) (e : exn) :
  request_type (apply_update state (update (classification_fallback e)))
    = lit "chat" /\
  confidence (apply_update state (update (classification_fallback e)))
    = (1 # 2)%Q /\
  reasoning (apply_update state (update (classification_fallback e)))
    = lit "Classification failed: " ++ str_of e.
Proof. by destruct state. Qed.

(** C2: when the classifier raises on the prompt of the request, the
    classification step returns, without raising, the command that routes to
    the chat agent with request type ["chat"], confidence 0.5 and a reasoning
    that ends with the text of the exception. *)
Theorem supervisor_node_classification_failure (state : SupervisorState)
    (s : MemoryService) (last_message : message) (e : exn) :
  last (messages state) = Some last_message ->
  classifier_invoke
    [HumanMessage
       (classification_prompt
          (MemoryService.messages
             (MemoryService.get_session_history (session_id state) s).1
             (MemoryService.get_session_history (session_id state) s).2)
          (content last_message))] = Raise e ->
  supervisor_node state s =
    (Ok (classification_fallback e),
     (MemoryService.get_session_history (session_id state) s).2) /\
  goto (classification_fallback e) = chat_agent_node /\
  request_type (apply_update state (update (classification_fallback e)))
    = lit "chat" /\
  confidence (apply_update state (update (classification_fallback e)))
    = (1 # 2)%Q /\
  reasoning (apply_update state (update (classification_fallback e)))
    = lit "Classification failed: " ++ str_of e /\
  contains (str_of e)
    (reasoning (apply_update state (update (classification_fallback e))))
    = true.
Proof.
  intros Hlast Hraise.
  destruct (classification_fallback_fields state e) as (Hrt & Hcf & Hrs).
  split; [by eapply supervisor_node_except|].
  split; [reflexivity|]. split; [exact Hrt|]. split; [exact Hcf|].
  split; [exact Hrs|]. rewrite Hrs. apply contains_app_r.
Qed.

(** The chat agent always returns a [Command], and never touches the
    classification fields. *)
Lemma chat_agent_returns (state : SupervisorState) (s : MemoryService) :
  exists c s',
    chat_agent state s = (Ok c, s') /\
    request_type (apply_update state (update c)) = request_type state /\
    confidence (apply_update state (update c)) = confidence state /\
    reasoning (apply_update state (update c)) = reasoning state.
Proof.
  unfold chat_agent. destruct (last (messages state)).
  - autounfold with monad.
    destruct (MemoryService.get_session_history _ s) as [h s1].
    destruct (llm_invoke _); eexists _, _; (split; [reflexivity|]);
      by destruct state.
  - eexists _, _. split; [reflexivity|]. by destruct state.
Qed.

(** The fallback seen from [process_request]: when every call of the
    classifier raises [e] and the configuration is valid, the payload has
    request type ["chat"], confidence 0.5 and the reasoning of the fallback. *)
Lemma process_request_classification_failure (request : SupervisorRequest)
    (s : MemoryService) (e : exn) :
  _create_llm (config request) = Ok tt ->
  (forall ms, classifier_invoke ms = Raise e) ->
  exists p s',
    process_request request s = (Ok p, s') /\
    p_request_type p = lit "chat" /\
    p_confidence p = (1 # 2)%Q /\
    p_reasoning p = lit "Classification failed: " ++ str_of e.
Proof.
  intros Hcfg Hraise.
  unfold process_request, create_supervisor_graph.
  unfold bind at 1. unfold lift_result at 1. rewrite Hcfg.
  unfold try_except at 1. unfold bind at 1. unfold graph_invoke.
  unfold bind at 1.
  set (st0 := channels (initial_state request (session_id_of request))).
  pose proof (supervisor_node_except st0 s
                (HumanMessage (prompt request)) e eq_refl (Hraise _))
    as Hnode.
  destruct (classification_fallback_fields st0 e) as (Hrt & Hcf & Hrs).
  rewrite Hnode. cbn [goto classification_fallback].
  set (st1 := channels (apply_update _ _)) in *.
  set (s1 := (MemoryService.get_session_history _ s).2).
  destruct (chat_agent_returns st1 s1) as (c & s2 & Hchat & Hrt2 & Hcf2 & Hrs2).
  unfold bind at 1. rewrite Hchat. cbn [ret].
  eexists _, _. split; [reflexivity|].
  cbn [p_request_type p_confidence p_reasoning channels request_type
       confidence reasoning].
  rewrite Hrt2, Hcf2, Hrs2. subst st1.
  cbn [channels request_type confidence reasoning].
  by rewrite Hrt, Hcf, Hrs.
Qed.

End NodeFacts.

Lemma supervisor_node_classification_failure_witness :
  exists s',
    @supervisor_node demo_runtime demo_backend_down
      (initial_state request_plain (lit "s1")) MemoryService.init
    = (Ok (classification_fallback
             (Exn OtherException (lit "connection refused"))), s').
Proof.
  eexists.
  apply (@supervisor_node_classification_failure demo_runtime
           demo_backend_down (initial_state request_plain (lit "s1"))
           MemoryService.init (HumanMessage (lit "build my CV page"))
           (Exn OtherException (lit "connection refused")));
    reflexivity.
Defined.

(** ** The supervisor: errors at the boundary *)

Section BoundaryFacts.

Context `{R : PythonRuntime} `{B : ModelBackend}.

(** Both prompts of the code agent raise while they are formatted, before the
    [try] is entered: the code agent raises on every state that has a
    message. *)
Lemma code_agent_raises (state : SupervisorState) (s : MemoryService)
    (last_message : message) :
  last (messages state) = Some last_message ->
  code_agent state s =
    (Raise match select_mode state with
           | incremental_mode => Exn ValueError invalid_format_specifier
           | full_generation_mode =>
               Exn NameError (lit "name 'rag_context' is not defined")
           end,
     (MemoryService.get_session_history (session_id state) s).2).
Proof.
  intros Hlast. unfold code_agent. rewrite Hlast.
  autounfold with monad.
  destruct (MemoryService.get_session_history (session_id state) s) as [h s1].
  by destruct (select_mode state).
Qed.

(** The run of the classification step when the classifier answers. *)
Lemma supervisor_node_classified (state : SupervisorState) (s : MemoryService)
    (last_message : message) (rt : RequestType) :
  last (messages state) = Some last_message ->
  (forall ms, classifier_invoke ms = Ok rt) ->
  exists u,
    supervisor_node state s =
      (Ok {| goto := match type rt with
                     | Code => code_agent_node
                     | Chat => chat_agent_node
                     end;
             update := u |},
       (MemoryService.get_session_history (session_id state) s).2) /\
    messages (apply_update state u) = messages state /\
    session_id (apply_update state u) = session_id state /\
    select_mode (apply_update state u) = select_mode state.
Proof.
  intros Hlast Hrt. unfold supervisor_node. rewrite Hlast.
  autounfold with monad.
  destruct (MemoryService.get_session_history (session_id state) s)
    as [h s1].
  rewrite Hrt. eexists. split; [reflexivity|]. by destruct state.
Qed.

(** What the graph does with a request that the classifier answers with
    [code]: the code agent is called on a dictionary that holds the channels
    only. *)
Lemma graph_invoke_code (request : SupervisorRequest) (s : MemoryService)
    (rt : RequestType) :
  (forall ms, classifier_invoke ms = Ok rt) ->
  type rt = Code ->
  exists state,
    graph_invoke (initial_state request (session_id_of request)) s
    = bind (code_agent state)
        (fun c => ret (channels (apply_update state (update c))))
        (MemoryService.get_session_history (session_id_of request) s).2 /\
    state = channels state /\
    last (messages state) = Some (HumanMessage (prompt request)) /\
    session_id state = session_id_of request.
Proof.
  intros Hrt Hcode. unfold graph_invoke. cbv zeta. unfold bind at 1.
  set (st0 := channels (initial_state request (session_id_of request))).
  destruct (supervisor_node_classified st0 s
              (HumanMessage (prompt request)) rt eq_refl Hrt)
    as (u & Hnode & Hmsgs & Hsid & _).
  rewrite Hnode, Hcode. cbn [goto update].
  exists (channels (apply_update st0 u)). split; [reflexivity|].
  split; [reflexivity|]. cbn [channels messages session_id].
  by rewrite Hmsgs, Hsid.
Qed.

(** A request classified as code never reaches the model: the error reported
    is the one of the full-generation prompt, whatever the request says about
    editor code and incremental updates. *)
Lemma process_request_code (request : SupervisorRequest) (s : MemoryService)
    (rt : RequestType) :
  _create_llm (config request) = Ok tt ->
  (forall ms, classifier_invoke ms = Ok rt) ->
  type rt = Code ->
  exists p s',
    process_request request s = (Ok p, s') /\
    p_request_type p = lit "error" /\
    p_generated_code p = [] /\
    p_incremental_update p = None /\
    p_reasoning p =
      lit "Processing error: " ++ lit "name 'rag_context' is not defined".
Proof.
  intros Hcfg Hrt Hcode.
  unfold process_request, create_supervisor_graph.
  unfold bind at 1. unfold lift_result at 1. rewrite Hcfg.
  unfold try_except at 1. unfold bind at 1.
  destruct (graph_invoke_code request s rt Hrt Hcode)
    as (st & Hg & Hch & Hlast & Hsid).
  rewrite Hg. unfold bind at 1.
  rewrite (code_agent_raises st _ _ Hlast).
  assert (select_mode st = full_generation_mode) as ->
    by (rewrite Hch; apply select_mode_channels).
  rewrite Hsid. autounfold with monad.
  destruct (MemoryService.get_session_history (session_id_of request) s)
    as [h1 s1]. cbn [snd].
  destruct (MemoryService.get_session_history (session_id_of request) s1)
    as [h2 s2]. cbn [snd].
  destruct (MemoryService.get_session_history (session_id_of request) s2)
    as [h3 s3].
  eexists _, _. split; [reflexivity|]. by cbn.
Qed.

(** C1, the failing case: a request that the classifier answers with [code]
    never takes the incremental branch, whatever editor code it carries and
    whatever it says about incremental updates.  The code agent is called on a
    dictionary without the keys ["currentCode"] and
    ["enable_incremental_updates"], takes the full-generation branch, and the
    payload reports the error of the full-generation prompt. *)
Theorem process_request_never_selects_incremental_mode
    (request : SupervisorRequest) (s : MemoryService) (rt : RequestType) :
  _create_llm (config request) = Ok tt ->
  (forall ms, classifier_invoke ms = Ok rt) ->
  type rt = Code ->
  exists state p s',
    graph_invoke (initial_state request (session_id_of request)) s
    = bind (code_agent state)
        (fun c => ret (channels (apply_update state (update c))))
        (MemoryService.get_session_history (session_id_of request) s).2 /\
    currentCode state = None /\
    enable_incremental_updates state = None /\
    has_existing_code state = false /\
    select_mode state = full_generation_mode /\
    process_request request s = (Ok p, s') /\
    p_request_type p = lit "error" /\
    p_reasoning p =
      lit "Processing error: " ++ lit "name 'rag_context' is not defined" /\
    p_generated_code p = [] /\
    p_incremental_update p = None.
Proof.
  intros Hcfg Hrt Hcode.
  destruct (graph_invoke_code request s rt Hrt Hcode)
    as (st & Hg & Hch & _ & _).
  destruct (process_request_code request s rt Hcfg Hrt Hcode)
    as (p & s' & Hrun & Htype & Hgc & Hup & Hrs).
  exists st, p, s'. split; [exact Hg|].
  repeat split; try done; by rewrite Hch.
Qed.

(** [process_request] lets the error of an invalid provider configuration
    escape: the graph is built before its [try]. *)
Lemma process_request_invalid_configuration (request : SupervisorRequest)
    (s : MemoryService) (e : exn) :
  _create_llm (config request) = Raise e ->
  process_request request s = (Raise e, s) /\
  success (supervisor_routing request s).1 = false /\
  (supervisor_routing request s).2 = s.
Proof.
  intros Hcfg.
  assert (process_request request s = (Raise e, s)) as Hp.
  { unfold process_request, create_supervisor_graph. autounfold with monad.
    by rewrite Hcfg. }
  split; [exact Hp|]. unfold supervisor_routing. by rewrite Hp.
Qed.

(** With a valid configuration [process_request] always returns a payload:
    whatever the traversal raises is handled inside. *)
Lemma process_request_returns (request : SupervisorRequest)
    (s : MemoryService) :
  _create_llm (config request) = Ok tt ->
  exists p s', process_request request s = (Ok p, s').
Proof.
  intros Hcfg. unfold process_request, create_supervisor_graph.
  unfold bind at 1. unfold lift_result at 1. rewrite Hcfg.
  unfold try_except.
  destruct (bind (graph_invoke _) _ s) as [[p|e] s1]; [by eexists _, _|].
  autounfold with monad.
  destruct (MemoryService.get_session_history _ s1) as [h s2].
  by eexists _, _.
Qed.

(** C3, the failing case: when the traversal of the graph raises [e],
    [process_request] records the user turn and an error turn in the session
    and returns the error payload, and the endpoint answers with request type
    ["error"], the error text, and [success = True]. *)
Theorem supervisor_routing_traversal_error_reports_success
    (request : SupervisorRequest) (s s1 : MemoryService) (e : exn) :
  create_supervisor_graph (config request) = Ok tt ->
  graph_invoke (initial_state request (session_id_of request)) s
    = (Raise e, s1) ->
  r_request_type (supervisor_routing request s).1 = lit "error" /\
  r_response (supervisor_routing request s).1
    = request_error_prefix ++ str_of e /\
  success (supervisor_routing request s).1 = true /\
  MemoryService.messages
    (MemoryService.get_session_history (session_id_of request) s1).1
    (supervisor_routing request s).2
  = MemoryService.messages
      (MemoryService.get_session_history (session_id_of request) s1).1
      (MemoryService.get_session_history (session_id_of request) s1).2
    ++ [HumanMessage (prompt request);
        AIMessage (error_occurred_prefix ++ str_of e)].
Proof.
  intros Hcfg Hinv.
  unfold supervisor_routing, process_request.
  autounfold with monad.
  rewrite Hcfg. cbv beta iota zeta. rewrite Hinv. cbv beta iota zeta.
  destruct (MemoryService.get_session_history (session_id_of request) s1)
    as [h s2].
  cbn [fst snd r_request_type r_response success]. repeat split.
  rewrite MemoryFacts.messages_add_message, MemoryFacts.messages_add_message.
  by rewrite <- app_assoc.
Qed.

End BoundaryFacts.

Lemma process_request_never_selects_incremental_mode_witness :
  req_enable_incremental_updates request_incremental = Some true /\
  req_currentCode request_incremental = Some (lit "<h1>Hi</h1>") /\
  strip (lit "<h1>Hi</h1>") <> [] /\
  exists p s',
    @process_request demo_runtime demo_backend_code request_incremental
      MemoryService.init = (Ok p, s') /\
    p_request_type p = lit "error" /\
    p_reasoning p
    = lit "Processing error: name 'rag_context' is not defined" /\
    p_generated_code p = [] /\
    p_incremental_update p = None.
Proof.
  split; [reflexivity|]. split; [reflexivity|]. split; [discriminate|].
  destruct (@process_request_never_selects_incremental_mode demo_runtime
              demo_backend_code request_incremental MemoryService.init
              _ eq_refl (fun _ => eq_refl) eq_refl)
    as (st & p & s' & _ & _ & _ & _ & _ & Hrun & Htype & Hrs & Hgc & Hup).
  exists p, s'. exact (conj Hrun (conj Htype (conj Hrs (conj Hgc Hup)))).
Defined.

(** The same holds of a request that disables incremental updates: either way
    the error reported is the one of the full-generation prompt. *)
Example process_request_no_incremental_run :
  (@process_request demo_runtime demo_backend_code request_no_incremental
     MemoryService.init).1
  = (@process_request demo_runtime demo_backend_code request_incremental
       MemoryService.init).1 /\
  (@process_request demo_runtime demo_backend_code request_no_incremental
     MemoryService.init).1
  = Ok {| p_request_type := lit "error";
          p_confidence := 0%Q;
          p_reasoning :=
            lit "Processing error: name 'rag_context' is not defined";
          p_response :=
            request_error_prefix ++ lit "name 'rag_context' is not defined";
          p_generated_code := [];
          p_filename := lit "index.html";
          p_language := lit "html";
          p_incremental_update := None;
          p_messages := [HumanMessage (lit "make the title blue")];
          p_session_id := lit "s1" |}.
Proof. split; vm_compute; reflexivity. Qed.

(** Called directly on the dictionary of lines 575-588, which the graph never
    hands over, the code agent would take the incremental branch for this
    request. *)
Example select_mode_initial_state :
  select_mode (initial_state request_incremental (lit "s1"))
  = incremental_mode /\
  select_mode (channels (initial_state request_incremental (lit "s1")))
  = full_generation_mode.
Proof. split; reflexivity. Qed.

Lemma supervisor_routing_traversal_error_reports_success_witness :
  @create_supervisor_graph (config request_plain) = Ok tt /\
  r_request_type
    (@supervisor_routing demo_runtime demo_backend_code request_plain
       MemoryService.init).1 = lit "error" /\
  success
    (@supervisor_routing demo_runtime demo_backend_code request_plain
       MemoryService.init).1 = true.
Proof.
  assert (@create_supervisor_graph (config request_plain) = Ok tt) as Hcfg
    by reflexivity.
  assert (@graph_invoke demo_runtime demo_backend_code
            (initial_state request_plain (session_id_of request_plain))
            MemoryService.init
          = (Raise (Exn NameError (lit "name 'rag_context' is not defined")),
             (MemoryService.get_session_history (lit "s1")
                MemoryService.init).2)) as Hinv
    by (vm_compute; reflexivity).
  pose proof (@supervisor_routing_traversal_error_reports_success
                demo_runtime demo_backend_code request_plain
                MemoryService.init _ _ Hcfg Hinv)
    as (Hrt & _ & Hsucc & _).
  exact (conj Hcfg (conj Hrt Hsucc)).
Defined.

(** The same request, evaluated: the endpoint reports success for an error
    payload, and the session holds the user turn and the error turn. *)
Example supervisor_routing_plain_run :
  let r := @supervisor_routing demo_runtime demo_backend_code request_plain
             MemoryService.init in
  r_request_type r.1 = lit "error" /\
  r_reasoning r.1
    = lit "Processing error: name 'rag_context' is not defined" /\
  r_generated_code r.1 = [] /\
  success r.1 = true /\
  MemoryService.get_session_message_count (lit "s1") r.2 = 2%nat.
Proof. vm_compute. repeat split. Qed.

(** A request whose configuration names no API key: [process_request] raises,
    the endpoint answers with [success = False], nothing is recorded. *)
Example supervisor_routing_without_key_run :
  (@process_request demo_runtime demo_backend_code request_without_key
     MemoryService.init).1
  = Raise (Exn ValueError (lit "Invalid AI provider configuration")) /\
  success (@supervisor_routing demo_runtime demo_backend_code
             request_without_key MemoryService.init).1 = false /\
  (@supervisor_routing demo_runtime demo_backend_code request_without_key
     MemoryService.init).2 = MemoryService.init.
Proof. vm_compute. repeat split. Qed.

(** ** The RAG context builder: the budget does not count the separators *)

(** Two blocks of 16 characters fit a budget of 32; the context is 33
    characters long. *)
Example create_rag_context_exceeds_budget :
  total_len (blocks_from 0 [doc_a; doc_c]) = 32 /\
  len (create_rag_context [doc_a; doc_c] 32) = 33.
Proof. split; reflexivity. Qed.

(* ===================================================================== *)
(** * Further properties *)
(* ===================================================================== *)

(** ** Session memory: documents *)

Module MemoryMore.
Import MemoryService.

Lemma add_session_documents_wf (sid : str) (docs : list Document)
    (s : MemoryService) :
  wf s -> wf (add_session_documents sid docs s).2.
Proof. intros [Hdom Hinj]. by split. Qed.

Lemma clear_session_documents_wf (sid : str) (s : MemoryService) :
  wf s -> wf (clear_session_documents sid s).2.
Proof.
  intros Hwf. unfold clear_session_documents.
  destruct (session_documents s !! sid); [|exact Hwf].
  destruct Hwf as [Hdom Hinj]. by split.
Qed.

Lemma run_op_wf (o : memory_op) (s : MemoryService) : wf s -> wf (run_op s o).
Proof.
  intros Hwf. destruct o as [sid|sid m|sid|sid docs|sid]; cbn.
  - by apply MemoryFacts.get_session_history_wf.
  - pose proof (MemoryFacts.get_session_history_wf sid s Hwf) as Hg.
    destruct (get_session_history sid s) as [h s1].
    by apply MemoryFacts.add_message_wf.
  - by apply MemoryFacts.clear_session_history_wf.
  - by apply add_session_documents_wf.
  - by apply clear_session_documents_wf.
Qed.

Lemma run_op_sessions (o : memory_op) (s : MemoryService) (sid : str) :
  is_Some (chat_histories s !! sid) ->
  is_Some (chat_histories (run_op s o) !! sid).
Proof.
  intros [h Hh].
  assert (is_Some (chat_histories (get_session_history sid s).2 !! sid)) as _
    by (rewrite MemoryFacts.get_session_history_lookup; eauto).
  destruct o as [sid0|sid0 m|sid0|sid0 docs|sid0]; cbn.
  - exists h. by apply MemoryFacts.get_session_history_preserves.
  - pose proof (MemoryFacts.get_session_history_preserves sid0 sid h s Hh).
    destruct (get_session_history sid0 s) as [h0 s1]. cbn in *. eauto.
  - unfold clear_session_history.
    destruct (chat_histories s !! sid0); cbn; eauto.
  - eauto.
  - unfold clear_session_documents.
    destruct (session_documents s !! sid0); cbn; eauto.
Qed.

End MemoryMore.

(** X1: adding documents to a session and reading them back gives the old
    documents followed by the new ones; the documents of every other session
    and all histories are as before. *)
Theorem add_session_documents_round_trip (sid : str) (docs : list Document)
    (s : MemoryService) :
  let s' := (MemoryService.add_session_documents sid docs s).2 in
  (MemoryService.add_session_documents sid docs s).1 = true /\
  MemoryService.get_session_documents sid s'
    = MemoryService.get_session_documents sid s ++ docs /\
  MemoryService.get_session_document_count sid s'
    = (MemoryService.get_session_document_count sid s + length docs)%nat /\
  (forall sid', sid <> sid' ->
     MemoryService.get_session_documents sid' s'
     = MemoryService.get_session_documents sid' s) /\
  chat_histories s' = chat_histories s /\ instances s' = instances s.
Proof.
  cbn. unfold MemoryService.get_session_document_count,
    MemoryService.get_session_documents. cbn.
  rewrite lookup_insert_eq. cbn. rewrite length_app.
  repeat split. intros sid' Hne. by rewrite lookup_insert_ne.
Qed.

(** X2: clearing the documents of a session answers whether the session had a
    document entry; afterwards the session has no documents, a second clearing
    answers [False], and the documents of the other sessions are untouched.
    An entry exists as soon as documents were added, even an empty list. *)
Theorem clear_session_documents_spec (sid : str) (s : MemoryService) :
  let r := MemoryService.clear_session_documents sid s in
  (r.1 = true <-> is_Some (session_documents s !! sid)) /\
  MemoryService.get_session_documents sid r.2 = [] /\
  (MemoryService.clear_session_documents sid r.2).1 = false /\
  (forall sid', sid <> sid' ->
     MemoryService.get_session_documents sid' r.2
     = MemoryService.get_session_documents sid' s) /\
  (forall docs,
     (MemoryService.clear_session_documents sid
        (MemoryService.add_session_documents sid docs s).2).1 = true).
Proof.
  cbn. unfold MemoryService.clear_session_documents,
    MemoryService.get_session_documents.
  split; [|split; [|split; [|split]]].
  - destruct (session_documents s !! sid) eqn:E; cbn; split;
      first [ done | by eauto | by intros [? ?] ].
  - destruct (session_documents s !! sid) eqn:E; cbn.
    + by rewrite lookup_delete_eq.
    + by rewrite E.
  - destruct (session_documents s !! sid) eqn:E; cbn.
    + by rewrite lookup_delete_eq.
    + by rewrite E.
  - intros sid' Hne. destruct (session_documents s !! sid) eqn:E; cbn.
    + by rewrite lookup_delete_ne.
    + done.
  - intros docs. cbn. by rewrite lookup_insert_eq.
Qed.

(** ** Session memory: sequences of operations *)

Module MemorySequences.
Import MemoryService.

Lemma run_ops_wf_from (ops : list memory_op) (s : MemoryService) :
  wf s -> wf (run_ops ops s).
Proof.
  revert s. induction ops as [|o ops IH]; intros s Hwf; [exact Hwf|].
  cbn. apply IH. by apply MemoryMore.run_op_wf.
Qed.

Lemma run_ops_sessions_from (ops : list memory_op) (s : MemoryService)
    (sid : str) :
  is_Some (chat_histories s !! sid) ->
  is_Some (chat_histories (run_ops ops s) !! sid).
Proof.
  revert s. induction ops as [|o ops IH]; intros s Hs; [exact Hs|].
  cbn. apply IH. by apply MemoryMore.run_op_sessions.
Qed.

(** Looking a session up never changes the messages of any session. *)
Lemma get_session_history_messages (sid sid' : str) (s : MemoryService) :
  wf s ->
  session_messages sid' (get_session_history sid s).2 = session_messages sid' s.
Proof.
  intros [Hdom _]. unfold get_session_history, session_messages.
  destruct (chat_histories s !! sid) eqn:E; cbn; [reflexivity|].
  assert (instances s !! fresh (dom (instances s)) = None) as Hfresh
    by (apply not_elem_of_dom, is_fresh).
  destruct (decide (sid = sid')) as [<-|Hne].
  - rewrite lookup_insert_eq, E. unfold messages. cbn.
    by rewrite lookup_insert_eq.
  - rewrite lookup_insert_ne by done.
    destruct (chat_histories s !! sid') as [h'|] eqn:E'; [|reflexivity].
    unfold messages. cbn. rewrite lookup_insert_ne; [reflexivity|].
    intros Heq. destruct (Hdom _ _ E') as [ms Hms]. congruence.
Qed.

Lemma run_op_messages (o : memory_op) (s : MemoryService) (sid' : str) :
  wf s ->
  session_messages sid' (run_op s o)
  = op_on_messages o sid' (session_messages sid' s).
Proof.
  intros Hwf. destruct o as [sid|sid m|sid|sid docs|sid]; cbn.
  - by apply get_session_history_messages.
  - pose proof (get_session_history_messages sid sid' s Hwf) as Hg.
    pose proof (MemoryFacts.get_session_history_wf sid s Hwf) as [_ Hinj].
    pose proof (MemoryFacts.get_session_history_lookup sid s) as Hl.
    destruct (get_session_history sid s) as [h s1]. cbn in *.
    rewrite <- Hg. unfold session_messages. cbn.
    destruct (decide (sid = sid')) as [<-|Hne].
    + rewrite Hl. apply MemoryFacts.messages_add_message.
    + destruct (chat_histories s1 !! sid') as [h'|] eqn:E'; [|reflexivity].
      apply MemoryFacts.messages_add_message_ne.
      intros ->. apply Hne. by eapply Hinj.
  - destruct Hwf as [_ Hinj].
    unfold clear_session_history, session_messages.
    destruct (chat_histories s !! sid) as [h|] eqn:E; cbn.
    + destruct (decide (sid = sid')) as [<-|Hne].
      * rewrite E. unfold messages. cbn. by rewrite lookup_insert_eq.
      * destruct (chat_histories s !! sid') as [h'|] eqn:E'; [|reflexivity].
        unfold messages. cbn. rewrite lookup_insert_ne; [reflexivity|].
        intros ->. apply Hne. by eapply Hinj.
    + destruct (decide (sid = sid')) as [<-|Hne]; [by rewrite E | reflexivity].
  - reflexivity.
  - unfold clear_session_documents, session_messages.
    by destruct (session_documents s !! sid).
Qed.

End MemorySequences.

(** X3: after any sequence of operations on a new service, every session id
    refers to an existing history instance and no two session ids refer to the
    same instance. *)
Theorem run_ops_well_formed (ops : list memory_op) :
  MemoryService.wf (run_ops ops MemoryService.init).
Proof. apply MemorySequences.run_ops_wf_from, MemoryFacts.wf_init. Qed.

(** X4: no operation removes a session: a session id that is listed stays
    listed after any sequence of operations, clearings included. *)
Theorem run_ops_keeps_sessions (ops : list memory_op) (s : MemoryService)
    (sid : str) :
  sid ∈ MemoryService.list_active_sessions s ->
  sid ∈ MemoryService.list_active_sessions (run_ops ops s).
Proof.
  unfold MemoryService.list_active_sessions.
  rewrite !elem_of_elements, !elem_of_dom.
  apply MemorySequences.run_ops_sessions_from.
Qed.

Lemma run_ops_keeps_sessions_witness :
  lit "s1" ∈ MemoryService.list_active_sessions store_one_session /\
  lit "s1" ∈ MemoryService.list_active_sessions
    (run_ops [op_clear_session_history (lit "s1");
              op_clear_session_documents (lit "s1");
              op_get_session_history (lit "s2")] store_one_session).
Proof.
  assert (lit "s1" ∈ MemoryService.list_active_sessions store_one_session)
    as Hin.
  { unfold MemoryService.list_active_sessions.
    rewrite elem_of_elements, elem_of_dom. vm_compute. eauto. }
  exact (conj Hin (run_ops_keeps_sessions _ store_one_session (lit "s1") Hin)).
Defined.

(** X5: on a service reached from a new one by any sequence of operations, the
    messages of a session are what replaying the appends and the clearings of
    that session alone gives: operations on other sessions, lookups and
    document operations leave them as they are. *)
Theorem run_ops_session_messages (ops : list memory_op) (sid : str) :
  session_messages sid (run_ops ops MemoryService.init)
  = fold_left (fun old o => op_on_messages o sid old) ops [].
Proof.
  assert (forall s,
            MemoryService.wf s ->
            session_messages sid (run_ops ops s)
            = fold_left (fun old o => op_on_messages o sid old) ops
                (session_messages sid s)) as Hgen.
  { induction ops as [|o ops IH]; intros s Hwf; [reflexivity|].
    cbn. rewrite IH by (by apply MemoryMore.run_op_wf).
    by rewrite MemorySequences.run_op_messages. }
  apply (Hgen MemoryService.init MemoryFacts.wf_init).
Qed.

(** ** Session memory: the summary *)

Lemma preview_length (m : message) :
  len (preview_content (MemorySummary.preview m)) <= 103.
Proof.
  unfold MemorySummary.preview. cbn [preview_content].
  destruct (100 <? len (content m)) eqn:E.
  - rewrite len_app.
    pose proof (slice_to_length (content m) 100 ltac:(lia)).
    change (len (lit "...")) with 3. lia.
  - lia.
Qed.

(** X6: for a session with a history, the summary reports the message and
    document counts of the service and previews of the last three messages (of
    all of them when there are fewer), in order, each at most 103 characters
    long. *)
Theorem get_session_summary_existing (sid : str) (s : MemoryService) :
  is_Some (chat_histories s !! sid) ->
  let r := MemorySummary.get_session_summary sid s in
  summary_exists r = true /\
  message_count r = MemoryService.get_session_message_count sid s /\
  document_count r = MemoryService.get_session_document_count sid s /\
  last_messages r
    = Some (List.map MemorySummary.preview
              (last_n 3 (session_messages sid s))) /\
  (forall l, last_messages r = Some l ->
     length l = Nat.min 3 (message_count r) /\
     Forall (fun p => len (preview_content p) <= 103) l).
Proof.
  intros [h Hh]. cbv zeta.
  unfold MemorySummary.get_session_summary, session_messages,
    MemoryService.get_session_message_count,
    MemoryService.get_session_document_count,
    MemoryService.get_session_documents.
  rewrite Hh. cbn [summary_exists message_count document_count last_messages].
  repeat split.
  - injection H as <-. rewrite length_map. unfold last_n.
    rewrite length_drop. lia.
  - injection H as <-. apply List.Forall_forall. intros p Hp.
    apply in_map_iff in Hp as (m & <- & _). apply preview_length.
Qed.

Lemma get_session_summary_existing_witness :
  is_Some (chat_histories store_one_session !! lit "s1") /\
  message_count (MemorySummary.get_session_summary (lit "s1") store_one_session)
  = MemoryService.get_session_message_count (lit "s1") store_one_session.
Proof.
  assert (is_Some (chat_histories store_one_session !! lit "s1")) as H1
    by (vm_compute; eauto).
  pose proof (get_session_summary_existing (lit "s1") store_one_session H1)
    as (_ & Hc & _).
  exact (conj H1 Hc).
Defined.

(** X7: for a session without a history the summary reports that it does not
    exist, with no messages and no documents, whatever documents the service
    holds for it: documents added before the first message are not counted. *)
Theorem get_session_summary_without_history (sid : str)
    (docs : list Document) (s : MemoryService) :
  chat_histories s !! sid = None ->
  let s' := (MemoryService.add_session_documents sid docs s).2 in
  MemorySummary.get_session_summary sid s'
  = {| summary_session_id := sid; message_count := 0;
       summary_exists := false; document_count := 0;
       last_messages := None |} /\
  MemoryService.get_session_document_count sid s'
  = (MemoryService.get_session_document_count sid s + length docs)%nat.
Proof.
  intros Hn. cbn. split.
  - unfold MemorySummary.get_session_summary. cbn. by rewrite Hn.
  - unfold MemoryService.get_session_document_count,
      MemoryService.get_session_documents. cbn.
    rewrite lookup_insert_eq. cbn. by rewrite length_app.
Qed.

Lemma get_session_summary_without_history_witness :
  chat_histories MemoryService.init !! lit "s1" = None /\
  document_count
    (MemorySummary.get_session_summary (lit "s1")
       (MemoryService.add_session_documents (lit "s1") [doc_a]
          MemoryService.init).2) = 0%nat /\
  MemoryService.get_session_document_count (lit "s1")
    (MemoryService.add_session_documents (lit "s1") [doc_a]
       MemoryService.init).2 = 1%nat.
Proof.
  assert (chat_histories MemoryService.init !! lit "s1" = None) as Hn
    by reflexivity.
  pose proof (get_session_summary_without_history (lit "s1") [doc_a]
                MemoryService.init Hn) as [Hs Hc].
  exact (conj Hn (conj (f_equal document_count Hs) Hc)).
Defined.

(** ** The supervisor: what the nodes record *)

Lemma get_session_history_again (sid : str) (s : MemoryService) :
  MemoryService.get_session_history sid
    (MemoryService.get_session_history sid s).2
  = ((MemoryService.get_session_history sid s).1,
     (MemoryService.get_session_history sid s).2).
Proof.
  unfold MemoryService.get_session_history at 1.
  by rewrite MemoryFacts.get_session_history_lookup.
Qed.

Lemma get_session_history_own_messages (sid : str) (s : MemoryService) :
  MemoryService.messages (MemoryService.get_session_history sid s).1
    (MemoryService.get_session_history sid s).2
  = session_messages sid s.
Proof.
  unfold MemoryService.get_session_history, session_messages.
  destruct (chat_histories s !! sid) eqn:E; cbn; [reflexivity|].
  unfold MemoryService.messages. cbn. by rewrite lookup_insert_eq.
Qed.

Lemma get_session_history_documents (sid : str) (s : MemoryService) :
  session_documents (MemoryService.get_session_history sid s).2
  = session_documents s.
Proof.
  unfold MemoryService.get_session_history.
  by destruct (chat_histories s !! sid).
Qed.

(** Two messages appended through the handle of a session. *)
Lemma two_turns_recorded (sid : str) (s : MemoryService) (m1 m2 : message) :
  let h := (MemoryService.get_session_history sid s).1 in
  let s1 := (MemoryService.get_session_history sid s).2 in
  let s' := MemoryService.add_message h m2 (MemoryService.add_message h m1 s1) in
  session_messages sid s' = session_messages sid s ++ [m1; m2] /\
  session_documents s' = session_documents s.
Proof.
  cbv zeta. split.
  - unfold session_messages at 1. cbn [chat_histories MemoryService.add_message].
    rewrite MemoryFacts.get_session_history_lookup.
    rewrite !MemoryFacts.messages_add_message.
    rewrite get_session_history_own_messages. by rewrite <- app_assoc.
  - cbn. apply get_session_history_documents.
Qed.

Section RecordingFacts.

Context `{R : PythonRuntime} `{B : ModelBackend}.

(** The run of the chat agent: the text it answers with is the reply of the
    model or, when the model raises, the error message. *)
Lemma chat_agent_run (state : SupervisorState) (s : MemoryService)
    (m : message) :
  last (messages state) = Some m ->
  exists reply,
    chat_agent state s
    = (Ok {| goto := END;
             update := [set_response reply;
                        set_messages (messages state ++ [AIMessage reply])] |},
       MemoryService.add_message
         (MemoryService.get_session_history (session_id state) s).1
         (AIMessage reply)
         (MemoryService.add_message
            (MemoryService.get_session_history (session_id state) s).1
            (HumanMessage (content m))
            (MemoryService.get_session_history (session_id state) s).2)) /\
    (forall e, (forall ms, llm_invoke ms = Raise e) ->
               reply = chat_error_prefix ++ str_of e) /\
    (forall r, (forall ms, llm_invoke ms = Ok r) -> reply = r).
Proof.
  intros Hlast. unfold chat_agent. rewrite Hlast.
  autounfold with monad.
  destruct (MemoryService.get_session_history (session_id state) s)
    as [h s1].
  cbn [fst snd].
  match goal with
  | |- context [llm_invoke ?ms] => destruct (llm_invoke ms) as [r|e] eqn:E
  end.
  - exists r. split; [reflexivity|]. split.
    + intros e He. rewrite He in E. discriminate.
    + intros r' Hr. rewrite Hr in E. by injection E.
  - exists (chat_error_prefix ++ str_of e). split; [reflexivity|]. split.
    + intros e' He. rewrite He in E. by injection E as ->.
    + intros r' Hr. rewrite Hr in E. discriminate.
Qed.

(** X8: the chat agent never raises; whether the model answers or fails, it
    appends the user's message and then one assistant message, the text it
    returns, to the history of the session, and it touches neither the
    documents nor the generated code. *)
Theorem chat_agent_records_both_turns (state : SupervisorState)
    (s : MemoryService) (m : message) :
  last (messages state) = Some m ->
  exists c s',
    chat_agent state s = (Ok c, s') /\
    goto c = END /\
    session_messages (session_id state) s'
    = session_messages (session_id state) s
      ++ [HumanMessage (content m);
          AIMessage (response (apply_update state (update c)))] /\
    session_documents s' = session_documents s /\
    generated_code (apply_update state (update c)) = generated_code state /\
    (forall e, (forall ms, llm_invoke ms = Raise e) ->
       response (apply_update state (update c))
       = chat_error_prefix ++ str_of e) /\
    (forall r, (forall ms, llm_invoke ms = Ok r) ->
       response (apply_update state (update c)) = r).
Proof.
  intros Hlast.
  destruct (chat_agent_run state s m Hlast) as (reply & Hrun & Herr & Hok).
  destruct (two_turns_recorded (session_id state) s
              (HumanMessage (content m)) (AIMessage reply)) as [Hm Hd].
  eexists _, _. split; [exact Hrun|].
  assert (response
            (apply_update state
               [set_response reply;
                set_messages (messages state ++ [AIMessage reply])]) = reply)
    as Hresp by (by destruct state).
  cbn [update goto]. rewrite Hresp.
  split; [reflexivity|]. split; [exact Hm|]. split; [exact Hd|].
  split; [by destruct state|]. by split.
Qed.

(** The run of the [try] of the code agent with its handler. *)
Lemma code_agent_try_run (state : SupervisorState) (h : ref)
    (content0 code_prompt : str) (s : MemoryService) :
  exists c text,
    try_except (code_agent_try state h content0 code_prompt)
      (code_agent_except state h content0) s
    = (Ok c,
       MemoryService.add_message h (AIMessage text)
         (MemoryService.add_message h (HumanMessage content0) s)) /\
    goto c = END /\
    incremental_update (apply_update state (update c))
    = match llm_invoke [HumanMessage code_prompt] with
      | Ok reply =>
          match parse_response reply (currentFilename state)
                  (currentLanguage state) (has_existing_code state) with
          | Ok _ => None
          | Raise _ => incremental_update state
          end
      | Raise _ => incremental_update state
      end.
Proof.
  unfold code_agent_try, code_agent_except. autounfold with monad.
  destruct (llm_invoke [HumanMessage code_prompt]) as [reply|e].
  - destruct (parse_response reply _ _ _) as [p|e] eqn:Hp.
    + eexists _, _. split; [reflexivity|]. split; [reflexivity|].
      rewrite (parse_response_update_none _ _ _ _ _ Hp). by destruct state.
    + eexists _, _. split; [reflexivity|]. split; [reflexivity|].
      by destruct state.
  - eexists _, _. split; [reflexivity|]. split; [reflexivity|].
    by destruct state.
Qed.

(** X9: the [try] of the code agent with its handler never raises: whatever
    the model returns or raises and however the reading of the reply ends, it
    returns a command to [END] and appends the user's message and then one
    assistant message to the history; and it never returns an incremental
    update. *)
Theorem code_agent_try_records_both_turns (state : SupervisorState)
    (h : ref) (content0 code_prompt : str) (s : MemoryService) :
  exists c s' text,
    try_except (code_agent_try state h content0 code_prompt)
      (code_agent_except state h content0) s = (Ok c, s') /\
    goto c = END /\
    MemoryService.messages h s'
    = MemoryService.messages h s ++ [HumanMessage content0; AIMessage text] /\
    session_documents s' = session_documents s /\
    (incremental_update state = None ->
     incremental_update (apply_update state (update c)) = None).
Proof.
  destruct (code_agent_try_run state h content0 code_prompt s)
    as (c & text & Hrun & Hgoto & Hinc).
  eexists c, _, text. split; [exact Hrun|]. split; [exact Hgoto|].
  split; [|split].
  - rewrite !MemoryFacts.messages_add_message. by rewrite <- app_assoc.
  - reflexivity.
  - intros Hnone. rewrite Hinc.
    destruct (llm_invoke _); [destruct (parse_response _ _ _ _)|]; done.
Qed.

End RecordingFacts.

Lemma chat_agent_records_both_turns_witness :
  exists c s',
    @chat_agent demo_runtime demo_backend_down
      (initial_state request_plain (lit "s1")) MemoryService.init = (Ok c, s') /\
    session_messages (lit "s1") s'
    = [HumanMessage (lit "build my CV page"); AIMessage (lit "hello")].
Proof.
  destruct (@chat_agent_records_both_turns demo_runtime demo_backend_down
              (initial_state request_plain (lit "s1")) MemoryService.init
              (HumanMessage (lit "build my CV page")) eq_refl)
    as (c & s' & Hrun & _ & Hm & _ & _ & _ & Hok).
  exists c, s'. split; [exact Hrun|].
  etransitivity; [exact Hm|].
  rewrite (Hok (lit "hello")) by reflexivity. reflexivity.
Defined.

Lemma code_agent_try_records_both_turns_witness :
  exists c s',
    try_except
      (@code_agent_try demo_runtime demo_backend_ops state_with_code 0%nat
         (lit "make the title blue") (lit "prompt"))
      (code_agent_except state_with_code 0%nat (lit "make the title blue"))
      MemoryService.init = (Ok c, s') /\
    incremental_update (apply_update state_with_code (update c)) = None.
Proof.
  destruct (@code_agent_try_records_both_turns demo_runtime demo_backend_ops
              state_with_code 0%nat (lit "make the title blue") (lit "prompt")
              MemoryService.init)
    as (c & s' & text & Hrun & _ & _ & _ & Hinc).
  exists c, s'. split; [exact Hrun|]. apply Hinc. reflexivity.
Defined.

(** ** The supervisor: one request, end to end *)

Section RequestFacts.

Context `{R : PythonRuntime} `{B : ModelBackend}.

(** The run of the classification step on a state with a message: it routes to
    one of the two agents and changes none of the fields below. *)
Lemma supervisor_node_run (state : SupervisorState) (s : MemoryService)
    (m : message) :
  last (messages state) = Some m ->
  exists c,
    supervisor_node state s
    = (Ok c, (MemoryService.get_session_history (session_id state) s).2) /\
    (goto c = chat_agent_node /\
     request_type (apply_update state (update c)) = lit "chat" \/
     goto c = code_agent_node) /\
    messages (apply_update state (update c)) = messages state /\
    session_id (apply_update state (update c)) = session_id state /\
    generated_code (apply_update state (update c)) = generated_code state /\
    filename (apply_update state (update c)) = filename state /\
    language (apply_update state (update c)) = language state /\
    incremental_update (apply_update state (update c))
    = incremental_update state.
Proof.
  intros Hlast. unfold supervisor_node. rewrite Hlast.
  autounfold with monad.
  destruct (MemoryService.get_session_history (session_id state) s)
    as [h s1].
  cbn [fst snd].
  match goal with
  | |- context [classifier_invoke ?ms] =>
      destruct (classifier_invoke ms) as [rt|e]
  end.
  - eexists. split; [reflexivity|]. cbn [goto update].
    destruct state, rt as [[|] cf rs]; cbn; repeat split; auto.
  - eexists. split; [reflexivity|]. cbn [goto update classification_fallback].
    destruct state; cbn; repeat split; auto.
Qed.

(** The run of [process_request] under a valid configuration. *)
Lemma process_request_run (request : SupervisorRequest) (s : MemoryService) :
  _create_llm (config request) = Ok tt ->
  exists p reply,
    process_request request s
    = (Ok p,
       MemoryService.add_message
         (MemoryService.get_session_history (session_id_of request) s).1
         (AIMessage reply)
         (MemoryService.add_message
            (MemoryService.get_session_history (session_id_of request) s).1
            (HumanMessage (prompt request))
            (MemoryService.get_session_history (session_id_of request) s).2)) /\
    p_generated_code p = [] /\
    p_filename p = lit "index.html" /\
    p_language p = lit "html" /\
    p_incremental_update p = None /\
    p_session_id p = session_id_of request /\
    (p_request_type p = lit "chat" \/ p_request_type p = lit "error").
Proof.
  intros Hcfg. unfold process_request, create_supervisor_graph.
  unfold bind at 1. unfold lift_result at 1. rewrite Hcfg.
  unfold try_except at 1. unfold bind at 1. unfold graph_invoke.
  unfold bind at 1.
  set (sid := session_id_of request).
  set (st0 := channels (initial_state request sid)).
  destruct (supervisor_node_run st0 s (HumanMessage (prompt request)) eq_refl)
    as (c & Hnode & Hgoto & Hmsgs & Hsid & Hgc & Hfn & Hlg & _).
  rewrite Hnode. change (session_id st0) with sid in *.
  set (st1 := channels (apply_update st0 (update c))) in *.
  change (messages (apply_update st0 (update c))) with (messages st1)
    in Hmsgs.
  change (session_id (apply_update st0 (update c))) with (session_id st1)
    in Hsid.
  change (generated_code (apply_update st0 (update c)))
    with (generated_code st1) in Hgc.
  change (filename (apply_update st0 (update c))) with (filename st1) in Hfn.
  change (language (apply_update st0 (update c))) with (language st1) in Hlg.
  change (request_type (apply_update st0 (update c)))
    with (request_type st1) in Hgoto.
  pose proof (get_session_history_again sid s) as Hagain.
  set (h := (MemoryService.get_session_history sid s).1) in *.
  set (s1 := (MemoryService.get_session_history sid s).2) in *.
  destruct Hgoto as [[Hgoto Hrt]|Hgoto]; rewrite Hgoto.
  - destruct (chat_agent_run st1 s1 (HumanMessage (prompt request)))
      as (reply & Hrun & _); [by rewrite Hmsgs|].
    unfold bind at 1. rewrite Hrun. rewrite Hsid, Hagain. cbn [fst snd ret].
    eexists _, reply. split; [reflexivity|].
    cbn [p_generated_code p_filename p_language p_incremental_update
           p_session_id p_request_type update].
    clearbody st1. destruct st1. cbn in *. subst. by repeat split; auto.
  - unfold bind at 1.
    rewrite (code_agent_raises st1 s1 (HumanMessage (prompt request)))
      by (by rewrite Hmsgs).
    rewrite Hsid, Hagain. cbn [fst snd].
    unfold bind, call, exec, ret. rewrite Hagain.
    eexists _, _. split; [reflexivity|]. cbn. by repeat split; auto.
Qed.

(** X10: the code agent never reaches the model: on a state with a message it
    raises while it formats its prompt ([ValueError] in the incremental
    branch, [NameError] otherwise), whatever the model backend is; it appends
    nothing to the history of the session. *)
Theorem code_agent_never_reaches_model (state : SupervisorState)
    (s : MemoryService) (m : message) :
  last (messages state) = Some m ->
  exists e s',
    code_agent state s = (Raise e, s') /\
    (select_mode state = incremental_mode -> class_of e = ValueError) /\
    (select_mode state = full_generation_mode -> class_of e = NameError) /\
    session_messages (session_id state) s'
    = session_messages (session_id state) s /\
    session_documents s' = session_documents s /\
    forall B' : ModelBackend,
      @code_agent R B' state s = (Raise e, s').
Proof.
  intros Hlast. eexists _, _.
  split; [by apply (code_agent_raises state s m)|].
  split; [by intros ->|]. split; [by intros ->|]. split; [|split].
  - unfold session_messages.
    rewrite MemoryFacts.get_session_history_lookup.
    apply get_session_history_own_messages.
  - apply get_session_history_documents.
  - intros B'. by apply (@code_agent_raises R B' state s m).
Qed.

(** X11: under a valid provider configuration [process_request] always
    returns a payload, and the history of the request's session grows by
    exactly the user's prompt followed by one assistant message; the documents
    of the service are untouched.  This holds for requests routed to the chat
    agent and for requests whose traversal fails alike. *)
Theorem process_request_records_one_exchange (request : SupervisorRequest)
    (s : MemoryService) :
  _create_llm (config request) = Ok tt ->
  exists p s' reply,
    process_request request s = (Ok p, s') /\
    p_session_id p = session_id_of request /\
    session_messages (session_id_of request) s'
    = session_messages (session_id_of request) s
      ++ [HumanMessage (prompt request); AIMessage reply] /\
    MemoryService.get_session_message_count (session_id_of request) s'
    = (MemoryService.get_session_message_count (session_id_of request) s
       + 2)%nat /\
    session_documents s' = session_documents s.
Proof.
  intros Hcfg.
  destruct (process_request_run request s Hcfg)
    as (p & reply & Hrun & _ & _ & _ & _ & Hsid & _).
  destruct (two_turns_recorded (session_id_of request) s
              (HumanMessage (prompt request)) (AIMessage reply)) as [Hm Hd].
  eexists p, _, reply. split; [exact Hrun|]. split; [exact Hsid|].
  split; [exact Hm|]. split; [|exact Hd].
  assert (forall sid s0,
            MemoryService.get_session_message_count sid s0
            = length (session_messages sid s0)) as Hcount.
  { intros sid s0. unfold MemoryService.get_session_message_count,
      session_messages. by destruct (chat_histories s0 !! sid). }
  rewrite !Hcount, Hm, length_app. reflexivity.
Qed.

(** X12: whatever the request, the state of the service and the backend, the
    response of the [/supervisor] endpoint carries no generated code and no
    incremental update, the default file name and language, and a request type
    that is ["chat"] or ["error"], never ["code"]. *)
Theorem supervisor_routing_never_returns_code (request : SupervisorRequest)
    (s : MemoryService) :
  let r := (supervisor_routing request s).1 in
  r_generated_code r = [] /\
  r_incremental_update r = None /\
  r_filename r = lit "index.html" /\
  r_language r = lit "html" /\
  (r_request_type r = lit "chat" \/ r_request_type r = lit "error").
Proof.
  cbv zeta. unfold supervisor_routing.
  destruct (_create_llm (config request)) as [[]|e] eqn:Hcfg.
  - destruct (process_request_run request s Hcfg)
      as (p & reply & Hrun & Hgc & Hfn & Hlg & _ & _ & Hrt).
    rewrite Hrun. cbn. by repeat split.
  - destruct (process_request_invalid_configuration request s e Hcfg)
      as [Hp _].
    rewrite Hp. cbn. repeat split; by right.
Qed.

End RequestFacts.

Lemma code_agent_never_reaches_model_witness :
  exists e s',
    @code_agent demo_runtime demo_backend_code state_with_code
      MemoryService.init = (Raise e, s') /\
    class_of e = ValueError.
Proof.
  destruct (@code_agent_never_reaches_model demo_runtime demo_backend_code
              state_with_code MemoryService.init
              (HumanMessage (lit "make the title blue")) eq_refl)
    as (e & s' & Hrun & Hinc & _).
  exists e, s'. split; [exact Hrun|]. apply Hinc. reflexivity.
Defined.

Lemma process_request_records_one_exchange_witness :
  @_create_llm (config request_plain) = Ok tt /\
  MemoryService.get_session_message_count (lit "s1")
    (@process_request demo_runtime demo_backend_down request_plain
       store_one_session).2 = 4%nat.
Proof.
  assert (@_create_llm (config request_plain) = Ok tt) as Hcfg by reflexivity.
  destruct (@process_request_records_one_exchange demo_runtime
              demo_backend_down request_plain store_one_session Hcfg)
    as (p & s' & reply & Hrun & _ & _ & Hcount & _).
  split; [exact Hcfg|]. rewrite Hrun. cbn [snd].
  etransitivity; [exact Hcount|]. vm_compute. reflexivity.
Defined.

(** ** The supervisor: a request classified as chat *)

Section ChatFacts.

Context `{R : PythonRuntime} `{B : ModelBackend}.





End ChatFacts.


(** ** The RAG context builder: the length of the context *)

Lemma len_join_nl (bs : list str) :
  len (join nl bs) = total_len bs + Z.of_nat (length bs - 1).
Proof.
  induction bs as [|b bs IH]; [reflexivity|].
  destruct bs as [|b' bs].
  - cbn [join total_len fold_right length]. lia.
  - change (join nl (b :: b' :: bs)) with (b ++ nl ++ join nl (b' :: bs)).
    rewrite !len_app, IH. change (len nl) with 1.
    cbn [total_len fold_right length]. lia.
Qed.

Lemma fitting_prefix_length (bs : list str) (budget : Z) :
  (length (fitting_prefix bs budget) <= length bs)%nat.
Proof.
  revert budget. induction bs as [|b bs IH]; intros budget; cbn; [lia|].
  destruct (len b >? budget); cbn; [lia|]. specialize (IH (budget - len b)).
  lia.
Qed.

Lemma blocks_from_length (i : nat) (docs : list Document) :
  length (blocks_from i docs) = length docs.
Proof.
  revert i. induction docs as [|d docs IH]; intros i; cbn; [reflexivity|].
  by rewrite IH.
Qed.

(** X14: for a non-negative [max_length] the context is at most [max_length]
    plus one character per additional document long: the budget counts the
    blocks but not the newlines that join them. *)
Theorem create_rag_context_length (docs : list Document) (max_length : Z) :
  0 <= max_length ->
  len (create_rag_context docs max_length)
  <= max_length + Z.of_nat (length docs - 1).
Proof.
  intros Hmax. destruct docs as [|d rest].
  - unfold create_rag_context, len. cbn [length]. lia.
  - unfold create_rag_context.
    destruct (Z.leb_spec (len (total_content 0 d)) max_length) as [Hfit|Hno].
    + rewrite rag_loop_first_fits by assumption.
      rewrite len_join_nl.
      destruct (fitting_prefix_maximal (blocks_from 0 (d :: rest)) max_length)
        as (_ & _ & Hsum & _).
      specialize (Hsum Hmax).
      pose proof (fitting_prefix_length (blocks_from 0 (d :: rest)) max_length)
        as Hlen.
      rewrite blocks_from_length in Hlen. lia.
    + cbn [rag_loop].
      assert ((0 + len (total_content 0 d) >? max_length) = true) as -> by lia.
      destruct (max_length - len (header 0 d) - 50 >? 100) eqn:Hroom.
      * cbn [app join]. rewrite !len_app.
        pose proof (slice_to_length (doc_content d)
                      (max_length - len (header 0 d) - 50) ltac:(lia)).
        change (len truncation_marker) with 10. lia.
      * unfold len. cbn [join length]. lia.
Qed.

Lemma create_rag_context_length_witness :
  0 <= 32 /\ len (create_rag_context [doc_a; doc_c] 32) <= 32 + 1.
Proof.
  assert (0 <= 32) as H0 by lia.
  exact (conj H0 (create_rag_context_length [doc_a; doc_c] 32 H0)).
Defined.

(** ** The supervisor: the operations array that is captured *)

Lemma lstrip_split (s : str) :
  exists ws, s = ws ++ lstrip s /\ Forall (fun c => isspace c = true) ws.
Proof.
  induction s as [|c s (ws & Heq & Hws)].
  - by exists [].
  - cbn. destruct (isspace c) eqn:E.
    + exists (c :: ws). split; [cbn; congruence | by constructor].
    + by exists [].
Qed.

Lemma through_bracket_split (s t : str) :
  through_bracket s = Some t ->
  exists body post,
    t = body ++ [93%N] /\ s = t ++ post /\ Forall (fun c => c <> 93%N) body.
Proof.
  revert t. induction s as [|c s IH]; intros t Ht; [discriminate|].
  cbn in Ht. destruct (c =? 93)%N eqn:E.
  - injection Ht as <-. apply N.eqb_eq in E as ->. by exists [], s.
  - destruct (through_bracket s) as [t'|]; [|discriminate].
    injection Ht as <-.
    destruct (IH t' eq_refl) as (body & post & -> & -> & Hb).
    exists (c :: body), post. repeat split.
    constructor; [|exact Hb]. by apply N.eqb_neq.
Qed.

Lemma startswith_split (s p : str) :
  startswith s p = true -> s = p ++ drop (length p) s.
Proof.
  revert s. induction p as [|c p IH]; intros s Hs; [reflexivity|].
  destruct s as [|d s]; [discriminate|]. cbn in Hs.
  apply andb_true_iff in Hs as [Hc Hs]. apply N.eqb_eq in Hc as ->.
  cbn. f_equal. by apply IH.
Qed.

(** X15: when the pattern of line 445 matches, the captured text is an
    opening bracket, a body without any closing bracket, and a closing
    bracket; it stands in the reply after the marker and white space only.
    An array that holds a nested array, or a closing bracket inside a string,
    is therefore captured only up to its first closing bracket. *)
Theorem search_operations_shape (s g : str) :
  search_operations s = Some g ->
  exists body pre ws post,
    g = [91%N] ++ body ++ [93%N] /\
    Forall (fun c => c <> 93%N) body /\
    s = pre ++ INCREMENTAL_OPERATIONS ++ ws ++ g ++ post /\
    Forall (fun c => isspace c = true) ws.
Proof.
  induction s as [|c s IH]; intros Hs.
  - discriminate.
  - cbn [search_operations] in Hs.
    destruct (startswith (c :: s) INCREMENTAL_OPERATIONS) eqn:Hst.
    + destruct (operations_after
                  (drop (length INCREMENTAL_OPERATIONS) (c :: s)))
        as [g'|] eqn:Hop.
      * injection Hs as <-. unfold operations_after in Hop.
        destruct (lstrip_split (drop (length INCREMENTAL_OPERATIONS) (c :: s)))
          as (ws & Hws & Hsp).
        destruct (lstrip _) as [|b t] eqn:Hl; [discriminate|].
        destruct (b =? 91)%N eqn:Hb; [|discriminate].
        apply N.eqb_eq in Hb as ->.
        destruct (through_bracket t) as [t'|] eqn:Ht; [|discriminate].
        injection Hop as <-.
        destruct (through_bracket_split _ _ Ht) as (body & post & -> & -> & Hbody).
        exists body, [], ws, post. repeat split; [exact Hbody| |exact Hsp].
        rewrite (startswith_split _ _ Hst) at 1. rewrite Hws.
        cbn [app]. by rewrite <- !app_assoc.
      * destruct (IH Hs) as (body & pre & ws & post & -> & Hbody & -> & Hws).
        exists body, (c :: pre), ws, post. by repeat split.
    + destruct (IH Hs) as (body & pre & ws & post & -> & Hbody & -> & Hws).
      exists body, (c :: pre), ws, post. by repeat split.
Qed.

Lemma search_operations_shape_witness :
  search_operations (lit "INCREMENTAL_OPERATIONS: [[1], [2]]")
  = Some (lit "[[1]") /\
  exists body pre ws post,
    lit "[[1]" = [91%N] ++ body ++ [93%N] /\
    Forall (fun c => c <> 93%N) body /\
    lit "INCREMENTAL_OPERATIONS: [[1], [2]]"
    = pre ++ INCREMENTAL_OPERATIONS ++ ws ++ lit "[[1]" ++ post /\
    Forall (fun c => isspace c = true) ws.
Proof.
  assert (search_operations (lit "INCREMENTAL_OPERATIONS: [[1], [2]]")
          = Some (lit "[[1]")) as Hs by reflexivity.
  exact (conj Hs (search_operations_shape _ _ Hs)).
Defined.

(** ** The supervisor: a reply in the requested format is read back *)

Lemma occurrences_app_ge (sep x y : str) :
  (occurrences sep y <= occurrences sep (x ++ y))%nat.
Proof. induction x as [|c x IH]; cbn [app occurrences]; lia. Qed.

Lemma occurrences_marker (sep b : str) :
  sep <> [] ->
  occurrences sep (sep ++ b) = S (occurrences sep (drop 1 (sep ++ b))).
Proof.
  intros Hne. destruct sep as [|c sep]; [done|].
  pose proof (startswith_app (c :: sep) b) as Hs. cbn [app] in Hs.
  cbn [app occurrences drop]. rewrite Hs. by rewrite drop_0.
Qed.

Lemma occurrences_zero (sep s : str) :
  occurrences sep s = 0%nat -> contains sep s = false.
Proof.
  induction s as [|c s IH]; cbn [occurrences contains].
  - destruct (startswith [] sep); [discriminate | reflexivity].
  - destruct (startswith (c :: s) sep); [discriminate|].
    intros H. by rewrite IH.
Qed.

Lemma contains_marker (sep a b : str) : contains sep (a ++ sep ++ b) = true.
Proof.
  induction a as [|c a IH]; cbn [app].
  - destruct sep as [|d sep]; [by destruct b|].
    pose proof (startswith_app (d :: sep) b) as Hs. cbn [app] in Hs.
    cbn [app contains]. by rewrite Hs.
  - cbn [contains]. rewrite IH. apply orb_true_r.
Qed.

Lemma split_go_skip (sep x b cur : str) :
  split_go sep (x ++ b) (length x) cur = split_go sep b 0 cur.
Proof. induction x as [|c x IH]; [reflexivity | exact IH]. Qed.

(** A separator that occurs once splits the text in two. *)
Lemma split_once (sep a b : str) :
  sep <> [] ->
  occurrences sep (a ++ sep ++ b) = 1%nat ->
  split sep (a ++ sep ++ b) = [a; b].
Proof.
  intros Hne Hocc.
  assert (1 <= occurrences sep (sep ++ b))%nat as Hm
    by (rewrite occurrences_marker by done; lia).
  assert (contains sep b = false) as Hb.
  { apply occurrences_zero.
    pose proof (occurrences_app_ge sep a (sep ++ b)).
    rewrite occurrences_marker in * by done.
    destruct sep as [|c sep]; [done|]. cbn [app drop] in *.
    rewrite drop_0 in *.
    pose proof (occurrences_app_ge (c :: sep) sep b). lia. }
  unfold split.
  enough (forall cur,
            split_go sep (a ++ sep ++ b) 0 cur = [rev cur ++ a; b]) as H
    by apply H.
  induction a as [|c a IH]; intros cur.
  - cbn [app]. destruct sep as [|d sep]; [done|].
    pose proof (startswith_app (d :: sep) b) as Hs. cbn [app] in Hs.
    cbn [app split_go]. rewrite Hs.
    replace (length (d :: sep) - 1)%nat with (length sep) by (cbn; lia).
    rewrite split_go_skip.
    rewrite app_nil_r. f_equal.
    apply (split_not_contains (d :: sep) b Hb).
  - cbn [app] in *. cbn [occurrences] in Hocc.
    pose proof (occurrences_app_ge sep a (sep ++ b)).
    destruct (startswith (c :: a ++ sep ++ b) sep) eqn:Hs; [lia|].
    cbn [split_go]. rewrite Hs, IH by lia.
    cbn [rev]. by rewrite <- app_assoc.
Qed.

Lemma lstrip_space (ws x : str) :
  Forall (fun c => isspace c = true) ws -> lstrip (ws ++ x) = lstrip x.
Proof.
  induction 1 as [|c ws Hc _ IH]; [reflexivity|]. cbn. by rewrite Hc.
Qed.

Lemma clean_first (x : str) :
  clean x = true -> exists c t, x = c :: t /\ isspace c = false.
Proof.
  destruct x as [|c t]; [discriminate|]. cbn [clean].
  intros H. apply andb_true_iff in H as [H _].
  exists c, t. split; [reflexivity|]. by destruct (isspace c).
Qed.

Lemma clean_last (x : str) :
  clean x = true -> exists c t, rev x = c :: t /\ isspace c = false.
Proof.
  intros H. assert (x <> []) as Hne by (by destruct x).
  destruct (exists_last Hne) as (t' & d & ->).
  exists d, (rev t'). split; [by rewrite rev_app_distr|].
  assert (exists c, clean (t' ++ [d])
                    = negb (isspace c)
                      && negb (isspace (List.last (t' ++ [d]) c)))
    as [c Hc] by (destruct t'; by eexists).
  rewrite Hc, last_last in H. apply andb_true_iff in H as [_ H].
  by destruct (isspace d).
Qed.

Lemma lstrip_clean (x y : str) : clean x = true -> lstrip (x ++ y) = x ++ y.
Proof.
  intros (c & t & -> & Hc)%clean_first. cbn. by rewrite Hc.
Qed.

Lemma rstrip_clean (y z : str) : clean z = true -> rstrip (y ++ z) = y ++ z.
Proof.
  intros (c & t & Hz & Hc)%clean_last. unfold rstrip.
  rewrite rev_app_distr, Hz. cbn. rewrite Hc.
  change (c :: t ++ rev y) with ((c :: t) ++ rev y).
  rewrite <- Hz, <- rev_app_distr. apply rev_involutive.
Qed.

Lemma rstrip_space (x ws : str) :
  Forall (fun c => isspace c = true) ws -> rstrip (x ++ ws) = rstrip x.
Proof.
  intros Hws. unfold rstrip. rewrite rev_app_distr.
  rewrite lstrip_space; [reflexivity|].
  apply List.Forall_forall. intros c Hc. apply in_rev in Hc.
  by apply (proj1 (List.Forall_forall _ _) Hws).
Qed.

(** White space around a clean text is stripped, and nothing else. *)
Lemma strip_padded (ws1 x ws2 : str) :
  Forall (fun c => isspace c = true) ws1 ->
  Forall (fun c => isspace c = true) ws2 ->
  clean x = true ->
  strip (ws1 ++ x ++ ws2) = x.
Proof.
  intros H1 H2 Hx. unfold strip.
  rewrite lstrip_space, lstrip_clean, rstrip_space by assumption.
  rewrite <- (app_nil_l x) at 1. rewrite rstrip_clean by assumption.
  reflexivity.
Qed.

(** A text between two clean texts is kept whole. *)
Lemma strip_between (ws x mid z : str) :
  Forall (fun c => isspace c = true) ws ->
  clean x = true -> clean z = true ->
  strip (ws ++ x ++ mid ++ z) = x ++ mid ++ z.
Proof.
  intros Hws Hx Hz. unfold strip.
  rewrite lstrip_space, lstrip_clean by assumption.
  rewrite !app_assoc. rewrite rstrip_clean by assumption. reflexivity.
Qed.

Lemma occurrences_ge_one (sep a b : str) :
  sep <> [] -> (1 <= occurrences sep (a ++ sep ++ b))%nat.
Proof.
  intros Hne. pose proof (occurrences_app_ge sep a (sep ++ b)).
  rewrite occurrences_marker in * by done. lia.
Qed.

(** In a text where the separator occurs once, it occurs once in every suffix
    that still holds it. *)
Lemma occurrences_suffix (sep p a b : str) :
  sep <> [] ->
  occurrences sep (p ++ a ++ sep ++ b) = 1%nat ->
  occurrences sep (a ++ sep ++ b) = 1%nat.
Proof.
  intros Hne Hocc. pose proof (occurrences_ge_one sep a b Hne).
  pose proof (occurrences_app_ge sep p (a ++ sep ++ b)). lia.
Qed.

Section RoundTrip.

Context `{R : PythonRuntime}.

Variables explanation code filename language : str.

Hypothesis clean_explanation : clean explanation = true.
Hypothesis clean_code : clean code = true.
Hypothesis clean_filename : clean filename = true.
Hypothesis clean_language : clean language = true.

Let reply := format_reply explanation code filename language.

Hypothesis one_EXPLANATION : occurrences EXPLANATION reply = 1%nat.
Hypothesis one_CODE : occurrences CODE reply = 1%nat.
Hypothesis one_FILENAME : occurrences FILENAME reply = 1%nat.
Hypothesis one_LANGUAGE : occurrences LANGUAGE reply = 1%nat.

Let space : str := lit " ".

Let space_ok : Forall (fun c => isspace c = true) space.
Proof. by repeat constructor. Qed.

Let nl_ok : Forall (fun c => isspace c = true) nl.
Proof. by repeat constructor. Qed.

(** The text after the [CODE:] marker. *)
Let after_code : str :=
  nl ++ code ++ nl ++ FILENAME ++ space ++ filename ++ nl ++
  LANGUAGE ++ space ++ language.

Lemma parse_code_format (f0 l0 : str) :
  parse_code reply f0 l0 = (code, filename, str_lower language).
Proof.
  assert (reply = (EXPLANATION ++ space ++ explanation ++ nl) ++ CODE
                    ++ after_code) as Hreply
    by (unfold reply, format_reply, after_code; by rewrite <- !app_assoc).
  assert (split CODE reply
          = [EXPLANATION ++ space ++ explanation ++ nl; after_code]) as Hsplit.
  { rewrite Hreply. apply split_once; [discriminate|].
    rewrite <- Hreply. exact one_CODE. }
  assert (strip after_code
          = (code ++ nl) ++ FILENAME
              ++ (space ++ filename ++ nl ++ LANGUAGE ++ space ++ language))
    as Hstrip1.
  { unfold after_code.
    transitivity
      (strip (nl ++ code
                ++ (nl ++ FILENAME ++ space ++ filename ++ nl ++ LANGUAGE
                      ++ space) ++ language)).
    - f_equal; by rewrite <- ?app_assoc.
    - rewrite strip_between by assumption. by rewrite <- !app_assoc. }
  assert (occurrences FILENAME
            ((code ++ nl) ++ FILENAME
               ++ (space ++ filename ++ nl ++ LANGUAGE ++ space ++ language))
          = 1%nat) as Hocc1.
  { apply (occurrences_suffix FILENAME
             (EXPLANATION ++ space ++ explanation ++ nl ++ CODE ++ nl));
      [discriminate|].
    rewrite <- one_FILENAME. unfold reply, format_reply.
    by rewrite <- !app_assoc. }
  assert (strip (space ++ filename ++ nl ++ LANGUAGE ++ space ++ language)
          = (filename ++ nl) ++ LANGUAGE ++ (space ++ language)) as Hstrip2.
  { transitivity
      (strip (space ++ filename ++ (nl ++ LANGUAGE ++ space) ++ language)).
    - f_equal; by rewrite <- ?app_assoc.
    - rewrite strip_between by assumption. by rewrite <- !app_assoc. }
  assert (occurrences LANGUAGE
            ((filename ++ nl) ++ LANGUAGE ++ (space ++ language)) = 1%nat)
    as Hocc2.
  { apply (occurrences_suffix LANGUAGE
             (EXPLANATION ++ space ++ explanation ++ nl ++ CODE ++ nl ++ code
                ++ nl ++ FILENAME ++ space)); [discriminate|].
    rewrite <- one_LANGUAGE. unfold reply, format_reply.
    by rewrite <- !app_assoc. }
  assert (strip (code ++ nl) = code) as Hcode
    by (apply (strip_padded [] code nl); by try constructor).
  assert (strip (filename ++ nl) = filename) as Hfile
    by (apply (strip_padded [] filename nl); by try constructor).
  assert (strip (space ++ language) = language) as Hlang.
  { rewrite <- (app_nil_r language) at 1.
    apply (strip_padded space language []); by try constructor. }
  unfold parse_code. cbv zeta.
  rewrite Hsplit. cbn [length item nth Nat.ltb Nat.leb].
  rewrite Hreply at 1. rewrite contains_marker.
  rewrite Hstrip1, contains_marker.
  rewrite (split_once FILENAME _ _ ltac:(discriminate) Hocc1).
  cbn [length item nth Nat.ltb Nat.leb].
  rewrite Hstrip2, contains_marker.
  rewrite (split_once LANGUAGE _ _ ltac:(discriminate) Hocc2).
  cbn [length item nth Nat.ltb Nat.leb].
  by rewrite Hcode, Hfile, Hlang.
Qed.

Lemma parse_explanation_format (e0 : str) :
  parse_explanation reply e0 = explanation.
Proof.
  assert (reply = [] ++ EXPLANATION
                    ++ ((space ++ explanation ++ nl) ++ CODE ++ after_code))
    as Hreply
    by (unfold reply, format_reply, after_code; cbn [app];
        by rewrite <- !app_assoc).
  assert (occurrences CODE ((space ++ explanation ++ nl) ++ CODE ++ after_code)
          = 1%nat) as Hocc.
  { apply (occurrences_suffix CODE EXPLANATION); [discriminate|].
    rewrite <- one_CODE. unfold reply, format_reply, after_code.
    by rewrite <- !app_assoc. }
  assert (contains EXPLANATION reply = true) as Hin
    by (rewrite Hreply; apply contains_marker).
  assert (split EXPLANATION reply
          = [[]; (space ++ explanation ++ nl) ++ CODE ++ after_code])
    as Hsplit.
  { rewrite Hreply. apply split_once; [discriminate|].
    rewrite <- Hreply. exact one_EXPLANATION. }
  unfold parse_explanation. cbv zeta.
  rewrite Hin, Hsplit. cbn [item nth]. rewrite contains_marker.
  rewrite (split_once CODE _ _ ltac:(discriminate) Hocc). cbn [item nth].
  by apply strip_padded.
Qed.

(** X16: a reply in the requested format whose four parts are clean (not
    empty, no white space at either end) and in which each marker occurs
    exactly once is read back as its parts, the language in lower case. *)
Theorem parse_full_generation_format (e0 f0 l0 : str) :
  parse_full_generation reply e0 f0 l0
  = {| parsed_code := code;
       parsed_explanation := explanation;
       parsed_filename := filename;
       parsed_language := str_lower language;
       parsed_update := None |}.
Proof.
  unfold parse_full_generation.
  rewrite parse_code_format, parse_explanation_format.
  destruct (clean_first code clean_code) as (c & t & -> & _). reflexivity.
Qed.

End RoundTrip.

Lemma parse_full_generation_format_witness :
  format_reply (lit "fixes bug") (lit "<p>hi</p>") (lit "index.html")
    (lit "HTML") =
  lit "EXPLANATION: fixes bug" ++ nl ++ lit "CODE:" ++ nl ++ lit "<p>hi</p>"
    ++ nl ++ lit "FILENAME: index.html" ++ nl ++ lit "LANGUAGE: HTML" /\
  @parse_full_generation demo_runtime
    (format_reply (lit "fixes bug") (lit "<p>hi</p>") (lit "index.html")
       (lit "HTML")) [] [] []
  = {| parsed_code := lit "<p>hi</p>";
       parsed_explanation := lit "fixes bug";
       parsed_filename := lit "index.html";
       parsed_language := lit "html";
       parsed_update := None |}.
Proof.
  split; [reflexivity|].
  apply (@parse_full_generation_format demo_runtime (lit "fixes bug")
           (lit "<p>hi</p>") (lit "index.html") (lit "HTML"));
    reflexivity.
Defined.

(** ** Uploading documents *)

Module PathFacts.

Import PosixPath.

Lemma rfind_range (c : N) (s : str) : -1 <= rfind c s < len s.
Proof.
  unfold len. induction s as [|d s IH]; cbn [rfind length]; [lia|].
  destruct (0 <=? rfind c s) eqn:E; [lia|].
  destruct (d =? c)%N; lia.
Qed.

Lemma rfind_neg (c : N) (s : str) : rfind c s < 0 -> c ∉ s.
Proof.
  induction s as [|d s IH]; cbn [rfind]; [intros _; apply not_elem_of_nil|].
  destruct (0 <=? rfind c s) eqn:E; [lia|].
  destruct (d =? c)%N eqn:Ed; [lia|]. intros _.
  apply not_elem_of_cons. split.
  - intros ->. by rewrite N.eqb_refl in Ed.
  - apply IH. lia.
Qed.

Lemma rfind_none (c : N) (s : str) : c ∉ s -> rfind c s = -1.
Proof.
  induction s as [|d s IH]; [done|].
  intros [Hd Hs]%not_elem_of_cons. cbn [rfind]. rewrite (IH Hs). cbn.
  destruct (d =? c)%N eqn:Ed; [|done].
  apply N.eqb_eq in Ed. congruence.
Qed.

Lemma rfind_unique (c : N) (a b : str) :
  c ∉ b -> rfind c (a ++ c :: b) = len a.
Proof.
  intros Hb. unfold len. induction a as [|d a IH]; cbn [app rfind length].
  - rewrite (rfind_none _ _ Hb). cbn. by rewrite N.eqb_refl.
  - rewrite IH. destruct (0 <=? Z.of_nat (length a)) eqn:E; lia.
Qed.

Lemma rfind_app_notin (c : N) (s t : str) :
  c ∉ t -> rfind c (s ++ t) = rfind c s.
Proof.
  intros Ht. induction s as [|d s IH]; cbn [app rfind].
  - by apply rfind_none.
  - by rewrite IH.
Qed.

Lemma rfind_split (c : N) (s : str) :
  0 <= rfind c s ->
  exists a b, s = a ++ c :: b /\ (c ∉ b) /\ rfind c s = len a.
Proof.
  unfold len. induction s as [|d s IH]; cbn [rfind]; [lia|].
  destruct (0 <=? rfind c s) eqn:E.
  - intros _. destruct IH as (a & b & Hs & Hb & Hr); [lia|].
    exists (d :: a), b. rewrite Hr. cbn [app length]. rewrite Hs at 1.
    repeat split; [done|lia].
  - destruct (d =? c)%N eqn:Ed; [|lia]. intros _.
    apply N.eqb_eq in Ed. subst d. exists [], s.
    repeat split. apply rfind_neg. lia.
Qed.

(** No [c] comes after the position that [rfind] returns. *)
Lemma rfind_after (c : N) (s : str) :
  c ∉ drop (Z.to_nat (rfind c s + 1)) s.
Proof.
  destruct (Z.lt_ge_cases (rfind c s) 0) as [Hneg|Hpos].
  - pose proof (rfind_range c s).
    assert (Hr : rfind c s = -1) by lia.
    rewrite Hr. cbn. by apply rfind_neg.
  - destruct (rfind_split c s Hpos) as (a & b & Hs & Hb & Hr).
    rewrite Hr. unfold len.
    replace (Z.to_nat (Z.of_nat (length a) + 1)) with (length a + 1)%nat
      by lia.
    rewrite Hs, <- drop_drop, drop_app_length. by cbn.
Qed.

Lemma has_non_dot_elim (chars : str) :
  has_non_dot chars = true ->
  exists x c y, chars = x ++ c :: y /\ c <> 46%N.
Proof.
  induction chars as [|d chars IH]; cbn [has_non_dot]; [done|].
  destruct (d =? 46)%N eqn:Ed.
  - intros (x & c & y & -> & Hc)%IH. by exists (d :: x), c, y.
  - intros _. exists [], d, chars. split; [done|]. by apply N.eqb_neq.
Qed.

Lemma has_non_dot_intro (x y : str) (c : N) :
  c <> 46%N -> has_non_dot (x ++ c :: y) = true.
Proof.
  intros Hc. induction x as [|d x IH]; cbn [app has_non_dot].
  - by apply N.eqb_neq in Hc as ->.
  - by destruct (d =? 46)%N.
Qed.

Lemma slice_to_app_length (a b : str) : slice_to (a ++ b) (len a) = a.
Proof.
  unfold slice_to, len.
  destruct (Z.leb_spec 0 (Z.of_nat (length a))); [|lia].
  by rewrite Nat2Z.id, take_app_length.
Qed.

Lemma slice_from_app_length (a b : str) : slice_from (a ++ b) (len a) = b.
Proof.
  unfold slice_from, len.
  destruct (Z.leb_spec 0 (Z.of_nat (length a))); [|lia].
  by rewrite Nat2Z.id, drop_app_length.
Qed.

(** A path whose last component has a character other than a dot before its
    last dot is split at that dot. *)
Lemma splitext_intro (pre post e : str) (c : N) :
  c <> 46%N -> c <> 47%N -> 47%N ∉ post -> 46%N ∉ e -> 47%N ∉ e ->
  splitext (pre ++ c :: post ++ 46%N :: e) = (pre ++ c :: post, 46%N :: e).
Proof.
  intros Hc Hc' Hpost He He'. unfold splitext.
  assert (Hdot : rfind 46 (pre ++ c :: post ++ 46%N :: e)
                 = len (pre ++ c :: post)).
  { change (pre ++ c :: post ++ 46%N :: e)
      with (pre ++ (c :: post) ++ 46%N :: e).
    rewrite app_assoc. by apply rfind_unique. }
  assert (Hsep : rfind 47 (pre ++ c :: post ++ 46%N :: e) = rfind 47 pre).
  { apply rfind_app_notin.
    rewrite not_elem_of_cons, not_elem_of_app, not_elem_of_cons.
    repeat split; first [done | congruence]. }
  rewrite Hdot, Hsep.
  pose proof (rfind_range 47 pre) as Hr.
  assert (Hlen : len (pre ++ c :: post) = len pre + 1 + len post).
  { unfold len. rewrite length_app. cbn [length]. lia. }
  destruct (Z.gtb_spec (len (pre ++ c :: post)) (rfind 47 pre));
    [|unfold len in *; lia].
  change (pre ++ c :: post ++ 46%N :: e)
    with (pre ++ (c :: post) ++ 46%N :: e).
  rewrite app_assoc, slice_to_app_length, slice_from_app_length.
  unfold slice_from at 1.
  destruct (Z.leb_spec 0 (rfind 47 pre + 1)); [|lia].
  rewrite drop_app_le by (unfold len in Hr; lia).
  by rewrite has_non_dot_intro.
Qed.

(** A path with an extension has the shape of [splitext_intro]. *)
Lemma splitext_elim (p : str) :
  (splitext p).2 <> [] ->
  exists pre c post e,
    p = pre ++ c :: post ++ 46%N :: e /\
    c <> 46%N /\ c <> 47%N /\ (47%N ∉ post) /\ (46%N ∉ e) /\ (47%N ∉ e) /\
    splitext p = (pre ++ c :: post, 46%N :: e).
Proof.
  unfold splitext.
  pose proof (rfind_range 47 p) as Hsep.
  pose proof (rfind_after 47 p) as Hafter.
  destruct (Z.gtb_spec (rfind 46 p) (rfind 47 p)); [|done].
  destruct (rfind_split 46 p) as (a & b & Hp & Hb & Hdot); [lia|].
  rewrite Hdot in *. clear Hdot.
  assert (Hto : slice_to p (len a) = a)
    by (rewrite Hp; apply slice_to_app_length).
  assert (Hfrom : slice_from p (len a) = 46%N :: b)
    by (rewrite Hp; apply slice_from_app_length).
  rewrite Hto, Hfrom. unfold slice_from.
  destruct (Z.leb_spec 0 (rfind 47 p + 1)); [|lia].
  remember (Z.to_nat (rfind 47 p + 1)) as n eqn:Hn.
  assert (Hle : (n <= length a)%nat) by (unfold len in *; lia).
  destruct (has_non_dot (drop n a)) eqn:Hnd; [|done].
  intros _.
  destruct (has_non_dot_elim _ Hnd) as (x & c & y & Hdrop & Hc).
  rewrite Hp in Hafter.
  rewrite drop_app_le, Hdrop in Hafter by exact Hle.
  rewrite not_elem_of_app, not_elem_of_app, !not_elem_of_cons in Hafter.
  destruct Hafter as ((_ & Hc' & Hy) & _ & Hb').
  exists (take n a ++ x), c, y, b.
  assert (Ha : a = (take n a ++ x) ++ c :: y).
  { rewrite <- app_assoc, <- Hdrop. by rewrite take_drop. }
  repeat split;
    first [ done | congruence | by rewrite <- Ha
          | rewrite Hp; rewrite Ha at 1; by rewrite <- !app_assoc ].
Qed.

End PathFacts.

Module UploadFacts.

Import PosixPath DocumentUpload.

(** Each supported extension is a dot followed by letters. *)
Lemma supported_extension_shape (ext : str) :
  ext ∈ get_supported_formats ->
  exists e, ext = 46%N :: e /\ (46%N ∉ e) /\ (47%N ∉ e).
Proof.
  unfold get_supported_formats.
  cbn [List.map supported_formats snd fold_left app].
  intros Hin.
  repeat (apply elem_of_cons in Hin as [->|Hin]);
    [..|by apply elem_of_nil in Hin];
    (eexists; split; [reflexivity|]);
    rewrite !not_elem_of_cons; repeat split;
    first [done | apply not_elem_of_nil].
Qed.

(** For a supported extension [_load_document] runs one of the loaders. *)
Lemma load_dispatch `{DocumentLoaders} (ext : str) :
  ext ∈ get_supported_formats ->
  exists l, forall content name,
    _load_document content ext name
    = let? documents := loader_load l content in
      Ok (List.map (with_metadata name ext) documents).
Proof.
  unfold get_supported_formats.
  cbn [List.map supported_formats snd fold_left app].
  intros Hin.
  repeat (apply elem_of_cons in Hin as [->|Hin]);
    [..|by apply elem_of_nil in Hin].
  - by exists PyPDFLoader.
  - by exists Docx2txtLoader.
  - by exists Docx2txtLoader.
  - by exists UnstructuredExcelLoader.
  - by exists UnstructuredExcelLoader.
Qed.

(** A supported file is read, written to a temporary file and handed to one
    loader; only what the loader raises is wrapped. *)
Lemma process_uploaded_file_supported
    `{PythonRuntime} `{DocumentLoaders} `{UploadIO} (file : UploadFile) :
  is_supported_format (upload_filename file) = true ->
  exists l,
    process_uploaded_file file
    = match read_error file with
      | Some message => Raise (OSError message)
      | None =>
          match
            temporary_file_error (upload_content file)
              (splitext (str_lower (upload_filename file))).2
          with
          | Some message => Raise (OSError message)
          | None =>
              match loader_load l (upload_content file) with
              | Ok raw =>
                  Ok (List.map
                        (with_metadata (upload_filename file)
                           (splitext (str_lower (upload_filename file))).2)
                        raw)
              | Raise e =>
                  Raise (Exn ValueError
                           (lit "Failed to process file: " ++ str_of e))
              end
          end
      end.
Proof.
  intros Hs. unfold process_uploaded_file. rewrite Hs. cbn [negb].
  unfold is_supported_format in Hs. apply bool_decide_eq_true in Hs.
  destruct (load_dispatch _ Hs) as (l & Hl).
  exists l. destruct (read_error file); [done|]. cbn [rbind].
  destruct (temporary_file_error _ _); [done|]. cbn [rbind].
  rewrite Hl. by destruct (loader_load l (upload_content file)).
Qed.

(** The documents of a processed upload carry its name and extension. *)
Lemma process_uploaded_file_metadata
    `{PythonRuntime} `{DocumentLoaders} `{UploadIO} (file : UploadFile)
    (documents : list LoadedDocument) :
  process_uploaded_file file = Ok documents ->
  is_supported_format (upload_filename file) = true /\
  read_error file = None /\
  temporary_file_error (upload_content file)
    (splitext (str_lower (upload_filename file))).2 = None /\
  exists l raw,
    loader_load l (upload_content file) = Ok raw /\
    documents
    = List.map
        (with_metadata (upload_filename file)
           (splitext (str_lower (upload_filename file))).2) raw.
Proof.
  intros Hp.
  destruct (is_supported_format (upload_filename file)) eqn:Hs.
  - destruct (process_uploaded_file_supported file Hs) as (l & Hl).
    rewrite Hl in Hp.
    destruct (read_error file); [discriminate|].
    destruct (temporary_file_error _ _); [discriminate|].
    destruct (loader_load l (upload_content file)) as [raw|] eqn:Hraw;
      [|discriminate].
    injection Hp as <-. repeat split. by exists l, raw.
  - unfold process_uploaded_file in Hp. rewrite Hs in Hp. discriminate.
Qed.

Lemma process_uploaded_file_unsupported
    `{PythonRuntime} `{DocumentLoaders} `{UploadIO} (file : UploadFile) :
  is_supported_format (upload_filename file) = false ->
  process_uploaded_file file
  = Raise (Exn ValueError
             (lit "Unsupported file format: " ++ upload_filename file)).
Proof. intros Hs. unfold process_uploaded_file. by rewrite Hs. Qed.

(** The loop of [extract_key_information], in closed form. *)
Lemma extract_fold (documents : list LoadedDocument) (info : KeyInformation) :
  fold_left add_key_information documents info
  = {| total_documents := total_documents info;
       file_types :=
         file_types info ∪
           list_to_set
             (List.map (fun d => default (lit "unknown") (file_type d))
                documents);
       source_files :=
         source_files info ∪
           list_to_set
             (List.map
                (fun d => default (lit "unknown") (source_file (document d)))
                documents);
       total_text_length :=
         total_text_length info +
           total_len (List.map (fun d => page_content (document d)) documents);
       summary :=
         summary info ++
           List.map
             (fun d =>
                {| entry_source :=
                     default (lit "unknown") (source_file (document d));
                   entry_preview := key_preview d |}) documents |}.
Proof.
  revert info. induction documents as [|d documents IH]; intros info.
  - destruct info. cbn.
    f_equal;
      first [ by rewrite (right_id_L ∅ (∪)) | lia | by rewrite app_nil_r ].
  - cbn [fold_left]. rewrite IH. unfold add_key_information, total_len.
    cbn [total_documents file_types source_files total_text_length summary
         List.map fold_right list_to_set].
    f_equal;
      first [ by rewrite (assoc_L (∪)) | lia | by rewrite <- app_assoc ].
Qed.

Lemma key_preview_length (d : LoadedDocument) : len (key_preview d) <= 153.
Proof.
  unfold key_preview. cbv zeta.
  pose proof (slice_to_length (strip (page_content (document d))) 150
                ltac:(lia)).
  destruct (150 <? len (page_content (document d))).
  - rewrite len_app. change (len (lit "...")) with 3. lia.
  - lia.
Qed.

Lemma list_to_set_constant {A} (f : A -> str) (x : str) (l : list A) :
  l <> [] -> Forall (fun a => f a = x) l ->
  list_to_set (List.map f l) =@{gset str} {[ x ]}.
Proof.
  intros Hne Hall. apply set_eq. intros y.
  rewrite elem_of_list_to_set, elem_of_singleton, list_elem_of_In, in_map_iff.
  rewrite List.Forall_forall in Hall. split.
  - intros (a & <- & Ha). by apply Hall.
  - intros ->. destruct l as [|a l]; [done|].
    exists a. split; [apply Hall|]; by left.
Qed.

End UploadFacts.

Import DocumentUpload.

(** X17 (document_service.py, [is_supported_format]): a file name is accepted
    exactly when its lower-case form ends with one of the five supported
    extensions and, before that extension, the last path component has a
    character other than a dot.  Here 46 is the dot and 47 the slash. *)
Theorem is_supported_format_iff `{PythonRuntime} (filename : str) :
  is_supported_format filename = true <->
  exists pre c post ext,
    str_lower filename = pre ++ c :: post ++ ext /\
    c <> 46%N /\ c <> 47%N /\ (47%N ∉ post) /\
    ext ∈ get_supported_formats.
Proof.
  unfold is_supported_format. cbv zeta. rewrite bool_decide_eq_true. split.
  - intros Hin.
    destruct (UploadFacts.supported_extension_shape _ Hin) as (e & He & _).
    destruct (PathFacts.splitext_elim (str_lower filename))
      as (pre & c & post & e' & Hp & Hc & Hc' & Hpost & _ & _ & Hsplit);
      [by rewrite He|].
    exists pre, c, post, (46%N :: e'). rewrite Hsplit in Hin.
    by repeat split.
  - intros (pre & c & post & ext & Hp & Hc & Hc' & Hpost & Hin).
    destruct (UploadFacts.supported_extension_shape _ Hin)
      as (e & -> & He & He').
    rewrite Hp, PathFacts.splitext_intro by done. exact Hin.
Qed.

Lemma is_supported_format_iff_witness :
  @is_supported_format demo_runtime (lit "CV.final.PDF") = true /\
  @is_supported_format demo_runtime (lit ".pdf") = false.
Proof.
  split.
  - apply (@is_supported_format_iff demo_runtime (lit "CV.final.PDF")).
    exists (lit "cv.fina"), 108%N, [], (lit ".pdf").
    repeat split; [discriminate..|apply not_elem_of_nil|].
    apply list_elem_of_In. left. reflexivity.
  - reflexivity.
Defined.

(** X18 (document_service.py, [process_uploaded_file] and [_load_document]):
    an unsupported name is refused with a [ValueError] that names the file.
    On a supported file the function raises either a [ValueError] that
    carries the message of the loader that failed, or, unwrapped, the
    [OSError] of the read or of the temporary file, which stand before the
    [try]; the "Unsupported file extension" error of [_load_document] is
    never raised.  On success the file is supported, it was read and written,
    the documents are those of one loader, with their contents, and each
    carries the file name and the lower-case extension as metadata. *)
Theorem process_uploaded_file_outcome
    `{PythonRuntime} `{DocumentLoaders} `{UploadIO} (file : UploadFile) :
  let name := upload_filename file in
  let ext := (PosixPath.splitext (str_lower name)).2 in
  match process_uploaded_file file with
  | Ok documents =>
      is_supported_format name = true /\
      ext ∈ get_supported_formats /\
      read_error file = None /\
      temporary_file_error (upload_content file) ext = None /\
      (exists l raw,
         loader_load l (upload_content file) = Ok raw /\
         List.map (fun d => page_content (document d)) documents
         = List.map page_content raw) /\
      Forall (fun d => source_file (document d) = Some name /\
                       file_type d = Some ext) documents
  | Raise e =>
      if is_supported_format name
      then
        (class_of e = ValueError /\
         read_error file = None /\
         temporary_file_error (upload_content file) ext = None /\
         exists l e0,
           loader_load l (upload_content file) = Raise e0 /\
           str_of e = lit "Failed to process file: " ++ str_of e0) \/
        (is_ValueError (class_of e) = false /\
         exists message,
           e = OSError message /\
           (read_error file = Some message \/
            read_error file = None /\
            temporary_file_error (upload_content file) ext = Some message))
      else e = Exn ValueError (lit "Unsupported file format: " ++ name)
  end.
Proof.
  intros name ext.
  destruct (is_supported_format name) eqn:Hs.
  - destruct (UploadFacts.process_uploaded_file_supported file Hs)
      as (l & ->).
    destruct (read_error file) as [message|] eqn:Hread.
    { right. split; [done|]. exists message. split; [done|]. by left. }
    fold name ext.
    destruct (temporary_file_error (upload_content file) ext)
      as [message|] eqn:Hwrite.
    { right. split; [done|]. exists message. split; [done|]. by right. }
    destruct (loader_load l (upload_content file)) as [raw|e0] eqn:Hl.
    + split; [done|]. split.
      { unfold is_supported_format in Hs. by apply bool_decide_eq_true in Hs. }
      split; [done|]. split; [done|]. split.
      * exists l, raw. split; [done|].
        rewrite List.map_map. by apply List.map_ext.
      * apply List.Forall_forall. intros d (r & <- & _)%in_map_iff. done.
    + left. repeat split. by exists l, e0.
  - by rewrite (UploadFacts.process_uploaded_file_unsupported file Hs).
Qed.

(** X19 (chat.py, [upload_document]): a failed upload leaves the memory
    service as it was.  The status is 400 only when a loader failed on a
    supported file, with the loader's message in the detail; a file of an
    unsupported format is answered with status 500, because the 400 raised
    for it inside the [try] is caught by the last handler; and so is a
    supported file that cannot be read or written to its temporary file. *)
Theorem upload_document_failure
    `{PythonRuntime} `{DocumentLoaders} `{UploadIO}
    (file : UploadFile) (session_id : str) (s : MemoryService)
    (status_code : Z) (detail : str) (s' : MemoryService) :
  upload_document file session_id s
    = (HTTPException status_code detail, s') ->
  s' = s /\
  ((is_supported_format (upload_filename file) = false /\
    status_code = 500 /\ detail = internal_server_error) \/
   (is_supported_format (upload_filename file) = true /\
    status_code = 400 /\
    exists l e0,
      loader_load l (upload_content file) = Raise e0 /\
      detail = lit "Failed to process file: " ++ str_of e0) \/
   (is_supported_format (upload_filename file) = true /\
    status_code = 500 /\ detail = internal_server_error /\
    exists message,
      read_error file = Some message \/
      temporary_file_error (upload_content file)
        (PosixPath.splitext (str_lower (upload_filename file))).2
      = Some message)).
Proof.
  unfold upload_document, upload_document_try.
  destruct (is_supported_format (upload_filename file)) eqn:Hs; cbn [negb].
  - destruct (UploadFacts.process_uploaded_file_supported file Hs)
      as (l & ->).
    destruct (read_error file) as [message|] eqn:Hread.
    { cbn. intros [= <- <- <-]. split; [done|]. right. right.
      repeat split. exists message. by left. }
    destruct (temporary_file_error _ _) as [message|] eqn:Hwrite.
    { cbn. intros [= <- <- <-]. split; [done|]. right. right.
      repeat split. exists message. by right. }
    destruct (loader_load l (upload_content file)) as [raw|e0] eqn:Hl.
    + cbn. discriminate.
    + cbn. intros [= <- <- <-]. split; [done|]. right. left.
      repeat split. by exists l, e0.
  - intros [= <- <- <-]. split; [done|]. by left.
Qed.

Lemma upload_document_failure_witness :
  @upload_document demo_runtime demo_loaders demo_io upload_txt (lit "s1")
    store_one_session
  = (HTTPException 500 internal_server_error, store_one_session) /\
  @is_supported_format demo_runtime (upload_filename upload_txt) = false.
Proof.
  assert (Hrun :
    @upload_document demo_runtime demo_loaders demo_io upload_txt (lit "s1")
      store_one_session
    = (HTTPException 500 internal_server_error, store_one_session))
    by (vm_compute; reflexivity).
  split; [exact Hrun|].
  destruct (@upload_document_failure demo_runtime demo_loaders demo_io
              upload_txt (lit "s1") store_one_session 500
              internal_server_error store_one_session Hrun)
    as [_ [[Hs _]|[[_ [Hc _]]|[_ [_ [_ [message [Hr|Hw]]]]]]]].
  - exact Hs.
  - discriminate Hc.
  - discriminate Hr.
  - discriminate Hw.
Defined.

(** A supported file on a full disk: the [OSError] of the temporary file is
    answered with status 500 and nothing is stored. *)
Example upload_document_full_disk :
  @upload_document demo_runtime demo_loaders demo_io_full upload_pdf
    (lit "s1") store_one_session
  = (HTTPException 500 internal_server_error, store_one_session) /\
  @process_uploaded_file demo_runtime demo_loaders demo_io_full upload_pdf
  = Raise (OSError (lit "[Errno 28] No space left on device")).
Proof. split; vm_compute; reflexivity. Qed.

(** X20 (chat.py, [upload_document]): when the file is processed, the endpoint
    responds; the documents of the session are the earlier ones followed by
    the new ones, every other session keeps its documents, the chat histories
    are untouched, and the body reports the number of new documents, the new
    total of the session and the RAG context of the new documents cut to 500
    characters. *)
Theorem upload_document_success
    `{PythonRuntime} `{DocumentLoaders} `{UploadIO}
    (file : UploadFile) (session_id : str) (s : MemoryService)
    (documents : list LoadedDocument) :
  process_uploaded_file file = Ok documents ->
  exists body s',
    upload_document file session_id s = (Respond body, s') /\
    MemoryService.get_session_documents session_id s'
    = MemoryService.get_session_documents session_id s
        ++ List.map document documents /\
    (forall other, other <> session_id ->
       MemoryService.get_session_documents other s'
       = MemoryService.get_session_documents other s) /\
    chat_histories s' = chat_histories s /\
    instances s' = instances s /\
    upload_success body = true /\
    upload_document_count body = length documents /\
    total_session_documents body
    = (MemoryService.get_session_document_count session_id s
         + length documents)%nat /\
    upload_preview body = create_rag_context (List.map document documents) 500.
Proof.
  intros Hp. unfold upload_document, upload_document_try.
  destruct (is_supported_format (upload_filename file)) eqn:Hs; cbn [negb].
  - rewrite Hp. cbn [MemoryService.add_session_documents negb].
    eexists _, _. split; [reflexivity|].
    unfold MemoryService.get_session_document_count,
      MemoryService.get_session_documents.
    cbn [session_documents chat_histories instances upload_success
         upload_document_count total_session_documents upload_preview].
    rewrite lookup_insert_eq. cbn [default]. unfold id.
    repeat split; try done.
    + intros other Hne. by rewrite lookup_insert_ne.
    + rewrite length_app, length_map. done.
  - rewrite (UploadFacts.process_uploaded_file_unsupported file Hs) in Hp.
    discriminate.
Qed.

Lemma upload_document_success_witness :
  @process_uploaded_file demo_runtime demo_loaders demo_io upload_pdf
  = Ok [{| document := {| page_content := lit " page one ";
                          source_file := Some (lit "CV.final.PDF") |};
           file_type := Some (lit ".pdf") |}] /\
  exists body s',
    @upload_document demo_runtime demo_loaders demo_io upload_pdf (lit "s1")
      store_one_session = (Respond body, s') /\
    MemoryService.get_session_documents (lit "s1") s'
    = [doc_a; {| page_content := lit " page one ";
                 source_file := Some (lit "CV.final.PDF") |}] /\
    total_session_documents body = 2%nat /\
    upload_preview body
    = nl ++ lit "[Document: CV.final.PDF]" ++ nl ++ lit "page one".
Proof.
  assert (Hp :
    @process_uploaded_file demo_runtime demo_loaders demo_io upload_pdf
    = Ok [{| document := {| page_content := lit " page one ";
                            source_file := Some (lit "CV.final.PDF") |};
             file_type := Some (lit ".pdf") |}])
    by (vm_compute; reflexivity).
  split; [exact Hp|].
  destruct (@upload_document_success demo_runtime demo_loaders demo_io upload_pdf
              (lit "s1") store_one_session _ Hp)
    as (body & s' & Hrun & Hdocs & _ & _ & _ & _ & _ & Htotal & Hpreview).
  exists body, s'. split; [exact Hrun|]. split; [|split].
  - etransitivity; [exact Hdocs|]. vm_compute. reflexivity.
  - etransitivity; [exact Htotal|]. vm_compute. reflexivity.
  - etransitivity; [exact Hpreview|]. vm_compute. reflexivity.
Defined.

(** X21 (document_service.py, [extract_key_information] after
    [process_uploaded_file]): the information extracted from an upload with at
    least one document names exactly one file type, the lower-case extension,
    and exactly one source file, the uploaded name; it counts the documents
    and their unstripped lengths and has one preview of at most 153
    characters per document. *)
Theorem extract_key_information_upload
    `{PythonRuntime} `{DocumentLoaders} `{UploadIO}
    (file : UploadFile) (documents : list LoadedDocument) :
  process_uploaded_file file = Ok documents ->
  documents <> [] ->
  let info := extract_key_information documents in
  file_types info
  = {[ (PosixPath.splitext (str_lower (upload_filename file))).2 ]} /\
  source_files info = {[ upload_filename file ]} /\
  total_documents info = length documents /\
  total_text_length info
  = total_len (List.map (fun d => page_content (document d)) documents) /\
  length (summary info) = length documents /\
  Forall (fun entry => entry_source entry = upload_filename file /\
                       len (entry_preview entry) <= 153) (summary info).
Proof.
  intros Hp Hne info.
  assert (Hmeta :
    Forall (fun d => source_file (document d) = Some (upload_filename file) /\
              file_type d
              = Some (PosixPath.splitext
                        (str_lower (upload_filename file))).2) documents).
  { destruct (UploadFacts.process_uploaded_file_metadata file _ Hp)
      as (_ & _ & _ & l & raw & _ & ->).
    apply List.Forall_forall. intros d (r & <- & _)%in_map_iff. done. }
  subst info. unfold extract_key_information.
  rewrite UploadFacts.extract_fold.
  cbn [total_documents file_types source_files total_text_length summary
       app].
  rewrite !(left_id_L ∅ (∪)).
  repeat split.
  - apply UploadFacts.list_to_set_constant; [done|].
    eapply List.Forall_impl; [|exact Hmeta]. by intros d [_ ->].
  - apply UploadFacts.list_to_set_constant; [done|].
    eapply List.Forall_impl; [|exact Hmeta]. by intros d [-> _].
  - by rewrite length_map.
  - apply List.Forall_forall. intros entry (d & <- & Hd)%in_map_iff.
    cbn [entry_source entry_preview].
    rewrite List.Forall_forall in Hmeta. destruct (Hmeta d Hd) as [-> _].
    split; [done|]. apply UploadFacts.key_preview_length.
Qed.

Lemma extract_key_information_upload_witness :
  let info :=
    extract_key_information
      [{| document := {| page_content := lit " page one ";
                         source_file := Some (lit "CV.final.PDF") |};
          file_type := Some (lit ".pdf") |}] in
  file_types info = {[ lit ".pdf" ]} /\
  source_files info = {[ lit "CV.final.PDF" ]} /\
  total_text_length info = 10.
Proof.
  assert (Hp :
    @process_uploaded_file demo_runtime demo_loaders demo_io upload_pdf
    = Ok [{| document := {| page_content := lit " page one ";
                            source_file := Some (lit "CV.final.PDF") |};
             file_type := Some (lit ".pdf") |}])
    by (vm_compute; reflexivity).
  destruct (@extract_key_information_upload demo_runtime demo_loaders demo_io
              upload_pdf _ Hp ltac:(discriminate))
    as (Ht & Hs & _ & Hl & _).
  intros info. subst info. split; [|split].
  - etransitivity; [exact Ht|]. reflexivity.
  - exact Hs.
  - etransitivity; [exact Hl|]. reflexivity.
Defined.

(** ** The AI service and the code-editor endpoint *)

Section ServiceFacts.

Context `{R : PythonRuntime} `{B : ModelBackend}.

(** The two descriptions of [process_request] agree: on a supervisor without
    a graph it builds the graph and goes on as [run_graph]. *)
Lemma process_request_without_graph (request : SupervisorRequest)
    (s : MemoryService) :
  CachedSupervisor.process_request false request s
  = (Supervisor.process_request request s,
     if Supervisor.create_supervisor_graph (config request) is Ok _
     then true else false).
Proof.
  unfold CachedSupervisor.process_request, Supervisor.process_request.
  cbn [negb]. unfold bind at 1. unfold lift_result at 1.
  by destruct (Supervisor.create_supervisor_graph (config request)).
Qed.

(** The traversal of a built graph reads the request's prompt, editor fields
    and session id, and nothing else of its configuration: it always returns a
    payload without code and records the exchange. *)
Lemma run_graph_run (request : SupervisorRequest) (s : MemoryService) :
  exists p reply,
    CachedSupervisor.run_graph request s
    = (Ok p,
       MemoryService.add_message
         (MemoryService.get_session_history
            (Supervisor.session_id_of request) s).1
         (AIMessage reply)
         (MemoryService.add_message
            (MemoryService.get_session_history
               (Supervisor.session_id_of request) s).1
            (HumanMessage (prompt request))
            (MemoryService.get_session_history
               (Supervisor.session_id_of request) s).2)) /\
    p_generated_code p = [] /\
    p_filename p = lit "index.html" /\
    p_language p = lit "html" /\
    p_session_id p = Supervisor.session_id_of request.
Proof.
  pose (request' :=
    {| prompt := prompt request;
       config := {| aiProvider := openai;
                    sessionId := sessionId (config request);
                    openaiApiKey := Some (lit "key");
                    anthropicApiKey := None;
                    azureOpenAIConfig := false |};
       req_session_id := req_session_id request;
       req_currentCode := req_currentCode request;
       req_currentFilename := req_currentFilename request;
       req_currentLanguage := req_currentLanguage request;
       req_enable_incremental_updates :=
         req_enable_incremental_updates request |}).
  destruct (process_request_run request' s eq_refl)
    as (p & reply & Hrun & Hgc & Hfn & Hlg & _ & Hsid & _).
  exists p, reply. split; [exact Hrun|]. by repeat split.
Qed.

(** A request that reaches the graph is answered with a payload. *)
Lemma generate_response_processed (graph : bool) (request : SupervisorRequest)
    (s : MemoryService) :
  graph = true \/ Supervisor._create_llm (config request) = Ok tt ->
  exists p reply,
    AIService.generate_response graph request s
    = (ai_payload p,
       MemoryService.add_message
         (MemoryService.get_session_history
            (Supervisor.session_id_of request) s).1
         (AIMessage reply)
         (MemoryService.add_message
            (MemoryService.get_session_history
               (Supervisor.session_id_of request) s).1
            (HumanMessage (prompt request))
            (MemoryService.get_session_history
               (Supervisor.session_id_of request) s).2), true) /\
    p_session_id p = Supervisor.session_id_of request.
Proof.
  intros Hg.
  destruct (run_graph_run request s) as (p & reply & Hrun & _ & _ & _ & Hsid).
  exists p, reply. split; [|exact Hsid].
  unfold AIService.generate_response, CachedSupervisor.process_request,
    Supervisor.create_supervisor_graph.
  destruct Hg as [->| ->]; [|destruct graph]; cbn [negb]; by rewrite Hrun.
Qed.

Lemma generate_response_run (graph : bool) (request : SupervisorRequest)
    (s : MemoryService) :
  let r := (AIService.generate_response graph request s).1.1 in
  AIService.get_generated_code r = [] /\
  AIService.get_filename r = lit "index.html" /\
  AIService.get_language r = lit "html".
Proof.
  cbv zeta.
  unfold AIService.generate_response, CachedSupervisor.process_request.
  destruct graph; cbn [negb].
  - destruct (run_graph_run request s) as (p & reply & -> & Hgc & Hfn & Hlg & _).
    by cbn.
  - destruct (Supervisor.create_supervisor_graph (config request)); [|by cbn].
    destruct (run_graph_run request s) as (p & reply & -> & Hgc & Hfn & Hlg & _).
    by cbn.
Qed.

End ServiceFacts.

(** X22 (chat.py, [generate_code_only]; ai_service.py,
    [generate_code_with_context] and [generate_response]): whatever the
    request, the store, the backend and the state of the service's graph, the
    response of the [/generate-code] endpoint carries no code, the language
    ["html"] and the file name ["index.html"]; the language and file name of
    the request are not used. *)
Theorem generate_code_only_never_returns_code `{PythonRuntime} `{ModelBackend}
    (graph : bool) (request : CodeOnlyRequest) (s : MemoryService) :
  let r := (AIService.generate_code_only graph request s).1.1 in
  code r = [] /\
  code_language r = lit "html" /\
  code_filename r = lit "index.html".
Proof.
  cbv zeta. unfold AIService.generate_code_only,
    AIService.generate_code_with_context. cbn [truthy].
  match goal with
  | |- context [AIService.generate_response graph ?q s] =>
      pose proof (generate_response_run graph q s) as Hr;
      destruct (AIService.generate_response graph q s) as [[r s'] g]
  end.
  destruct Hr as (Hgc & Hfn & Hlg). by repeat split.
Qed.

(** X23 (ai_service.py, [generate_response]; supervisor.py,
    [process_request]): once the graph of the service's supervisor is built,
    the provider configuration of a request is no longer examined: every
    request is answered with a payload of the supervisor, never with the error
    dictionary, its exchange is recorded in the session of the request, and
    the graph stays built. *)
Theorem generate_response_built_graph `{PythonRuntime} `{ModelBackend}
    (request : SupervisorRequest) (s : MemoryService) :
  exists p s' reply,
    AIService.generate_response true request s = (ai_payload p, s', true) /\
    p_session_id p = Supervisor.session_id_of request /\
    session_messages (Supervisor.session_id_of request) s'
    = session_messages (Supervisor.session_id_of request) s
        ++ [HumanMessage (prompt request); AIMessage reply].
Proof.
  destruct (generate_response_processed true request s (or_introl eq_refl))
    as (p & reply & Hrun & Hsid).
  destruct (two_turns_recorded (Supervisor.session_id_of request) s
              (HumanMessage (prompt request)) (AIMessage reply)) as [Hm _].
  eexists p, _, reply. split; [exact Hrun|]. by split.
Qed.

(** X24 (ai_service.py, [generate_response]): on a service whose graph is not
    built, a request with an invalid provider configuration is answered with
    the error dictionary, whose session id is the request's own even when it
    is [None]; the store is untouched and the graph stays unbuilt.  A request
    with a valid configuration is answered as on a built graph. *)
Theorem generate_response_first_request `{PythonRuntime} `{ModelBackend}
    (request : SupervisorRequest) (s : MemoryService) :
  AIService.generate_response false request s
  = match Supervisor._create_llm (config request) with
    | Ok _ => AIService.generate_response true request s
    | Raise e =>
        (ai_error
           (Supervisor.request_error_prefix
              ++ lit "Invalid AI provider configuration")
           (req_session_id request), s, false)
    end.
Proof.
  unfold AIService.generate_response, CachedSupervisor.process_request,
    Supervisor.create_supervisor_graph.
  cbn [negb].
  destruct (Supervisor._create_llm (config request)) as [[]|e] eqn:Hcfg;
    [done|].
  assert (str_of e = lit "Invalid AI provider configuration") as ->; [|done].
  unfold Supervisor._create_llm in Hcfg.
  repeat match type of Hcfg with
         | context [match ?x with _ => _ end] => destruct x
         end; by inversion Hcfg.
Qed.

(** X25 (chat.py, [generate_code_only]): the session id of a code-editor
    request is not used.  When the request reaches the graph (the graph is
    built, or the configuration is valid), its prompt and one assistant
    message are appended to the session named by the configuration, or to
    ["default"] when that name is empty; the stored documents are untouched
    and the graph is built afterwards. *)
Theorem generate_code_only_session `{PythonRuntime} `{ModelBackend}
    (graph : bool) (request : CodeOnlyRequest) (s : MemoryService) :
  graph = true \/ Supervisor._create_llm (co_config request) = Ok tt ->
  let sid := or_else (Some (sessionId (co_config request))) (lit "default") in
  let s' := (AIService.generate_code_only graph request s).1.2 in
  (exists reply,
     session_messages sid s'
     = session_messages sid s
         ++ [HumanMessage (co_prompt request); AIMessage reply]) /\
  session_documents s' = session_documents s /\
  (AIService.generate_code_only graph request s).2 = true.
Proof.
  intros Hg sid s'. subst s'.
  unfold AIService.generate_code_only, AIService.generate_code_with_context.
  cbn [truthy].
  match goal with
  | |- context [AIService.generate_response graph ?q s] =>
      destruct (generate_response_processed graph q s Hg)
        as (p & reply & -> & _);
      destruct (two_turns_recorded (Supervisor.session_id_of q) s
                  (HumanMessage (prompt q)) (AIMessage reply)) as [Hm Hd]
  end.
  cbn [fst snd]. split; [by exists reply|]. by split.
Qed.

Lemma generate_code_only_session_witness :
  (false = true \/
   Supervisor._create_llm (co_config code_only_request) = Ok tt) /\
  exists reply,
    session_messages (lit "default")
      (@AIService.generate_code_only demo_runtime demo_backend_down false
         code_only_request store_one_session).1.2
    = session_messages (lit "default") store_one_session
        ++ [HumanMessage (lit "add a footer"); AIMessage reply].
Proof.
  split; [right; reflexivity|].
  destruct (@generate_code_only_session demo_runtime demo_backend_down false
              code_only_request store_one_session (or_intror eq_refl))
    as [Hm _].
  exact Hm.
Defined.

(** ** Reading a reply in which a marker is missing *)

Lemma startswith_app_l (s t p : str) :
  startswith s p = true -> startswith (s ++ t) p = true.
Proof.
  revert s. induction p as [|c p IH]; intros s; [done|].
  destruct s as [|d s]; [done|]. cbn [app startswith].
  intros [-> Hs]%andb_true_iff. by rewrite (IH _ Hs).
Qed.

Lemma contains_app_left (sub s t : str) :
  contains sub s = true -> contains sub (s ++ t) = true.
Proof.
  induction s as [|c s IH].
  - cbn [contains]. rewrite orb_false_r. intros Hs.
    destruct sub as [|d sub]; [by destruct t|done].
  - cbn [app contains]. intros [Hs|Hc]%orb_true_iff.
    + pose proof (startswith_app_l (c :: s) t sub Hs) as Hs'.
      cbn [app] in Hs'. by rewrite Hs'.
    + rewrite (IH Hc). apply orb_true_r.
Qed.

Lemma contains_app_right (sub s t : str) :
  contains sub t = true -> contains sub (s ++ t) = true.
Proof.
  intros Ht. induction s as [|c s IH]; [done|].
  cbn [app contains]. rewrite IH. apply orb_true_r.
Qed.

Lemma contains_part (sub pre piece post : str) :
  contains sub piece = true -> contains sub (pre ++ piece ++ post) = true.
Proof.
  intros Hp. by apply contains_app_right, contains_app_left.
Qed.

(** Every piece of a split is a contiguous part of the text. *)
Lemma split_go_parts (sep s : str) (skip : nat) (cur : str) :
  skip = 0%nat \/ cur = [] ->
  Forall (fun piece => exists pre post, rev cur ++ s = pre ++ piece ++ post)
    (split_go sep s skip cur).
Proof.
  revert skip cur. induction s as [|c s IH]; intros skip cur Hk.
  - cbn [split_go]. constructor; [|constructor].
    exists [], []. by rewrite !app_nil_r.
  - cbn [split_go]. destruct skip as [|k].
    + destruct (startswith (c :: s) sep).
      * constructor.
        -- by exists [], (c :: s).
        -- eapply List.Forall_impl; [|apply (IH _ []); by right].
           intros piece (pre & post & Heq). cbn [rev app] in Heq.
           exists (rev cur ++ c :: pre), post.
           rewrite Heq. by rewrite <- app_assoc.
      * eapply List.Forall_impl; [|apply (IH 0%nat (c :: cur)); by left].
        intros piece (pre & post & Heq). exists pre, post.
        rewrite <- Heq. cbn [rev]. by rewrite <- app_assoc.
    + destruct Hk as [Hk| ->]; [done|].
      eapply List.Forall_impl; [|apply (IH k []); by right].
      intros piece (pre & post & Heq). cbn [rev app] in *.
      exists (c :: pre), post. by rewrite Heq.
Qed.

Lemma contains_item_split (sub sep s : str) (i : nat) :
  contains sub (item (split sep s) i) = true -> contains sub s = true.
Proof.
  unfold item, split. intros Hc.
  pose proof (split_go_parts sep s 0 [] (or_introl eq_refl)) as Hparts.
  destruct (nth_in_or_default i (split_go sep s 0 []) []) as [Hin|Hnil].
  - rewrite List.Forall_forall in Hparts.
    destruct (Hparts _ Hin) as (pre & post & Heq). cbn [rev app] in Heq.
    rewrite Heq. by apply contains_part.
  - rewrite Hnil in Hc. destruct sub as [|d sub]; [by destruct s|done].
Qed.

Lemma contains_strip (sub s : str) :
  contains sub (strip s) = true -> contains sub s = true.
Proof.
  unfold strip, rstrip. intros Hc.
  destruct (lstrip_split s) as (ws & Hs & _).
  destruct (lstrip_split (rev (lstrip s))) as (ws' & Hr & _).
  apply (f_equal (@rev N)) in Hr. rewrite rev_involutive, rev_app_distr in Hr.
  rewrite Hs, Hr. by apply contains_part.
Qed.

(** X26 (supervisor.py, lines 477-505): the file name and the language are
    read only behind a [FILENAME:] marker.  A reply without that marker keeps
    the file name and the language of the editor, also when it has a
    [LANGUAGE:] line.  Its code is the second piece of the reply split at
    [CODE:], stripped; when [CODE:] occurs exactly once, that is everything
    behind the marker, a [LANGUAGE:] line included. *)
Theorem parse_full_generation_without_filename `{PythonRuntime}
    (reply explanation filename language : str) :
  contains FILENAME reply = false ->
  let parsed := parse_full_generation reply explanation filename language in
  parsed_filename parsed = filename /\
  parsed_language parsed = language /\
  (contains CODE reply = true ->
   strip (item (split CODE reply) 1) <> [] ->
   parsed_code parsed = strip (item (split CODE reply) 1)) /\
  (forall before after,
     reply = before ++ CODE ++ after ->
     occurrences CODE reply = 1%nat ->
     strip after <> [] ->
     parsed_code parsed = strip after).
Proof.
  intros Hf. cbv zeta.
  assert (parsed_filename
            (parse_full_generation reply explanation filename language)
          = filename /\
          parsed_language
            (parse_full_generation reply explanation filename language)
          = language /\
          (contains CODE reply = true ->
           strip (item (split CODE reply) 1) <> [] ->
           parsed_code
             (parse_full_generation reply explanation filename language)
           = strip (item (split CODE reply) 1))) as (Hfn & Hlg & Hcode).
  { unfold parse_full_generation, parse_code.
    destruct (contains CODE reply) eqn:Hc; [|by repeat split].
    pose proof (split_contains_length CODE reply ltac:(discriminate) Hc)
      as Hl.
    destruct (1 <? length (split CODE reply))%nat eqn:E;
      [|apply Nat.ltb_ge in E; lia].
    destruct (contains FILENAME (strip (item (split CODE reply) 1))) eqn:Hcf.
    { apply contains_strip, contains_item_split in Hcf. congruence. }
    destruct (strip (item (split CODE reply) 1)) as [|c code];
      by repeat split. }
  split; [exact Hfn|]. split; [exact Hlg|]. split; [exact Hcode|].
  intros before after Hreply Hocc Hne.
  assert (split CODE reply = [before; after]) as Hsplit
    by (rewrite Hreply in *; by apply split_once).
  rewrite Hsplit in Hcode. cbn [item nth] in Hcode. apply Hcode; [|exact Hne].
  rewrite Hreply. apply contains_marker.
Qed.

Lemma parse_full_generation_without_filename_witness :
  let reply := lit "CODE: <p>hi</p>" ++ nl ++ lit "LANGUAGE: css" in
  contains FILENAME reply = false /\
  @parse_full_generation demo_runtime reply [] (lit "index.html") (lit "html")
  = {| parsed_code := lit "<p>hi</p>" ++ nl ++ lit "LANGUAGE: css";
       parsed_explanation := [];
       parsed_filename := lit "index.html";
       parsed_language := lit "html";
       parsed_update := None |}.
Proof.
  cbv zeta. split; [reflexivity|].
  destruct (@parse_full_generation_without_filename demo_runtime
              (lit "CODE: <p>hi</p>" ++ nl ++ lit "LANGUAGE: css") []
              (lit "index.html") (lit "html") eq_refl)
    as (Hfn & Hlg & _ & Hcode).
  specialize (Hcode [] (lit " <p>hi</p>" ++ nl ++ lit "LANGUAGE: css")
                eq_refl eq_refl ltac:(discriminate)).
  destruct (@parse_full_generation demo_runtime _ _ _ _)
    as [c e f l u] eqn:Hp.
  cbn [parsed_filename parsed_language parsed_code] in *. subst c f l.
  f_equal.
  - apply (f_equal parsed_explanation) in Hp. cbn in Hp. by rewrite <- Hp.
  - apply (f_equal parsed_update) in Hp. cbn in Hp. by rewrite <- Hp.
Defined.

(** ** Technology detection *)

Module TechnologyFacts.

Import Technologies.

Lemma elem_of_add_if (x name : str) (condition : bool) (t : gset str) :
  x ∈ add_if condition name t <-> x ∈ t \/ (condition = true /\ x = name).
Proof.
  unfold add_if. destruct condition.
  - rewrite elem_of_union, elem_of_singleton. tauto.
  - intuition discriminate.
Qed.

(** Two different literals are different strings. *)
Ltac literals :=
  match goal with
  | H : lit _ = lit _ |- _ => by vm_compute in H
  | H : (if _ then lit _ else lit _) = lit _ |- _ => by vm_compute in H
  | H : lit _ = (if ?b then lit _ else lit _) |- _ =>
      destruct b; by vm_compute in H
  end.

Ltac members :=
  repeat progress
    (rewrite ?elem_of_add_if, ?elem_of_union, ?elem_of_singleton,
       ?elem_of_empty in * ).

Section Extension.

Variable filename : str.

Let t0 : gset str := by_extension filename ∅.

Lemma by_extension_sass : lit "sass" ∈ t0 -> lit "css" ∈ t0.
Proof.
  subst t0. unfold by_extension.
  repeat match goal with
         | |- context [if ?b then _ else _] => destruct b eqn:?
         end; members; intuition (try literals).
Qed.

Lemma by_extension_typescript :
  lit "typescript" ∈ t0 -> endswith filename (lit ".tsx") = true.
Proof.
  subst t0. unfold by_extension.
  destruct (endswith filename (lit ".tsx")) eqn:Htsx; [done|].
  repeat match goal with
         | |- context [if ?b then _ else _] => destruct b eqn:?
         end; members; intuition (try literals).
Qed.

Lemma by_extension_javascript :
  lit "javascript" ∈ t0 ->
  endswith filename (lit ".tsx") = true \/
  endswith filename (lit ".jsx") = true.
Proof.
  subst t0. unfold by_extension.
  destruct (endswith filename (lit ".tsx")) eqn:Htsx; [by left|].
  destruct (endswith filename (lit ".jsx")) eqn:Hjsx; [by right|].
  cbn [orb].
  repeat match goal with
         | |- context [if ?b then _ else _] => destruct b eqn:?
         end; members; intuition (try literals).
Qed.

Lemma by_extension_react :
  endswith filename (lit ".tsx") = true \/
  endswith filename (lit ".jsx") = true ->
  lit "react" ∈ t0.
Proof.
  subst t0. unfold by_extension. intros Hx.
  assert (endswith filename (lit ".tsx") || endswith filename (lit ".jsx")
          = true) as ->
    by (apply orb_true_iff; exact Hx).
  members. by left; right.
Qed.

Lemma by_extension_vocabulary (name : str) :
  name ∈ t0 ->
  name ∈ [lit "react"; lit "typescript"; lit "javascript"; lit "vue";
          lit "html5"; lit "css"; lit "sass"].
Proof.
  subst t0. unfold by_extension. rewrite !elem_of_cons.
  repeat match goal with
         | |- context [if ?b then _ else _] => destruct b eqn:?
         end; members; intuition.
Qed.

End Extension.

End TechnologyFacts.

(** X27 (ai_service.py, [detect_technologies]): the detected set is
    consistent.  ["sass"] is reported only together with ["css"];
    ["typescript"] and ["javascript"] are reported together only for a
    [.tsx] or [.jsx] file; such a file is always reported as ["react"]; and
    every reported name is one of ten. *)
Theorem detect_technologies_consistent `{PythonRuntime} (code filename : str) :
  let t := Technologies.detect_technologies code filename in
  (lit "sass" ∈ t -> lit "css" ∈ t) /\
  (lit "typescript" ∈ t -> lit "javascript" ∈ t ->
   endswith filename (lit ".tsx") = true \/
   endswith filename (lit ".jsx") = true) /\
  (endswith filename (lit ".tsx") = true \/
   endswith filename (lit ".jsx") = true -> lit "react" ∈ t) /\
  (forall name, name ∈ t ->
     name ∈ [lit "react"; lit "typescript"; lit "javascript"; lit "vue";
             lit "html5"; lit "css"; lit "sass"; lit "nextjs";
             lit "tailwindcss"; lit "bootstrap"]).
Proof.
  cbv zeta. unfold Technologies.detect_technologies.
  pose proof (TechnologyFacts.by_extension_sass filename) as Hsass.
  pose proof (TechnologyFacts.by_extension_typescript filename) as Hts.
  pose proof (TechnologyFacts.by_extension_javascript filename) as Hjs.
  pose proof (TechnologyFacts.by_extension_react filename) as Hreact.
  pose proof (TechnologyFacts.by_extension_vocabulary filename) as Hvoc.
  cbv zeta in Hsass, Hts, Hjs, Hreact, Hvoc.
  set (t0 := Technologies.by_extension filename ∅) in *. clearbody t0.
  destruct (contains (lit "typescript") (str_lower code)
            || contains (lit ": string") code
            || contains (lit "interface ") code);
    [|destruct (contains (lit "javascript") (str_lower code)
               || endswith filename (lit ".js"))].
  all: repeat split.
  all: try (intros name; specialize (Hvoc name); rewrite !elem_of_cons in *).
  all: TechnologyFacts.members.
  all: intuition (try TechnologyFacts.literals).
Qed.

